(** * WiMarka annotation backend: workflow and persistence layer

    A shallow embedding of [backend/main.py] and [backend/schemas.py].
    Tables are lists of rows in storage order, a request handler is a
    computation over a database session that can raise an HTTP error, and
    the session keeps the log of the snapshots it committed. *)

From stdpp Require Import base numbers list strings gmap sorting.
From Stdlib Require Import Sorted.

Local Open Scope Z_scope.

(** ** Values of the Python side *)

(** Truthiness of an [Optional[str]]: [None] and the empty string are falsy. *)
Definition truthy_str (o : option string) : bool :=
  match o with
  | Some s => negb (bool_decide (s = ""%string))
  | None => false
  end.

(** Truthiness of an [Optional[List[_]]]: [None] and [[]] are falsy. *)
Definition truthy_list {A} (o : option (list A)) : bool :=
  match o with
  | Some (_ :: _) => true
  | _ => false
  end.

(** Iterating over an [Optional[List[_]]] that was found truthy. *)
Definition items {A} (o : option (list A)) : list A := default [] o.

(** Modelled from the spec: auth.py is not among the sources.  The spec only
    gives [hash_password(plain) -> hash]; the digest is kept symbolic. *)
Inductive password_hash : Type :=
  | get_password_hash (plain : string).

Global Instance password_hash_eq_dec : EqDecision password_hash.
Proof. solve_decision. Defined.

(** [HTTPException(status_code, detail)]. *)
Inductive HTTPException : Type :=
  | HTTP (status_code : Z) (detail : string).

Definition status_code (e : HTTPException) : Z :=
  match e with HTTP c _ => c end.

(** ** Request schemas ([schemas.py]) *)

Module UserCreate.
Record t := mk {
    email : string;
    username : string;
    first_name : string;
    last_name : string;
    preferred_language : option string;
    languages : option (list string);
    password : string;
    is_evaluator : option bool
  }.
End UserCreate.

Module SentenceCreate.
Record t := mk {
    source_text : string;
    machine_translation : string;
    source_language : string;
    target_language : string;
    domain : option string
  }.
End SentenceCreate.

Module TextHighlightCreate.
Record t := mk {
    highlighted_text : string;
    start_index : Z;
    end_index : Z;
    text_type : string;
    comment : string
  }.
End TextHighlightCreate.

Module AnnotationCreate.
Record t := mk {
    fluency_score : option Z;
    adequacy_score : option Z;
    overall_quality : option Z;
    errors_found : option string;
    suggested_correction : option string;
    comments : option string;
    final_form : option string;
    time_spent_seconds : option Z;
    sentence_id : Z;
    highlights : option (list TextHighlightCreate.t)
  }.
End AnnotationCreate.

Module LegacyAnnotationCreate.
Record t := mk {
    fluency_score : option Z;
    adequacy_score : option Z;
    overall_quality : option Z;
    errors_found : option string;
    suggested_correction : option string;
    comments : option string;
    final_form : option string;
    time_spent_seconds : option Z;
    sentence_id : Z
  }.
End LegacyAnnotationCreate.

(** A field of an update payload is unset ([None]), or set to a value that
    may itself be null ([Some None]); [model_dump(exclude_unset=True)] keeps
    the set ones only. *)
Module AnnotationUpdate.
Record t := mk {
    fluency_score : option (option Z);
    adequacy_score : option (option Z);
    overall_quality : option (option Z);
    errors_found : option (option string);
    suggested_correction : option (option string);
    comments : option (option string);
    final_form : option (option string);
    time_spent_seconds : option (option Z);
    annotation_status : option (option string);
    highlights : option (list TextHighlightCreate.t)
  }.
End AnnotationUpdate.

Module EvaluationCreate.
Record t := mk {
    annotation_quality_score : option Z;
    accuracy_score : option Z;
    completeness_score : option Z;
    overall_evaluation_score : option Z;
    feedback : option string;
    evaluation_notes : option string;
    time_spent_seconds : option Z;
    annotation_id : Z
  }.
End EvaluationCreate.

Module EvaluationUpdate.
Record t := mk {
    annotation_quality_score : option (option Z);
    accuracy_score : option (option Z);
    completeness_score : option (option Z);
    overall_evaluation_score : option (option Z);
    feedback : option (option string);
    evaluation_notes : option (option string);
    time_spent_seconds : option (option Z);
    evaluation_status : option (option string)
  }.
End EvaluationUpdate.

(** ** Rows of the six tables

    The timestamp columns are filled by the database and are left out. *)

Module User.
Record t := mk {
    id : Z;
    email : string;
    username : string;
    first_name : string;
    last_name : string;
    hashed_password : password_hash;
    is_active : bool;
    is_admin : bool;
    is_evaluator : bool;
    guidelines_seen : bool;
    preferred_language : string
  }.

Definition set_is_evaluator (v : bool) (u : t) : t :=
    mk (id u) (email u) (username u) (first_name u) (last_name u)
       (hashed_password u) (is_active u) (is_admin u) v (guidelines_seen u)
       (preferred_language u).

Definition set_guidelines_seen (v : bool) (u : t) : t :=
    mk (id u) (email u) (username u) (first_name u) (last_name u)
       (hashed_password u) (is_active u) (is_admin u) (is_evaluator u) v
       (preferred_language u).

Definition set_preferred_language (v : string) (u : t) : t :=
    mk (id u) (email u) (username u) (first_name u) (last_name u)
       (hashed_password u) (is_active u) (is_admin u) (is_evaluator u)
       (guidelines_seen u) v.
End User.

Module UserLanguage.
Record t := mk {
    id : Z;
    user_id : Z;
    language : string
  }.
End UserLanguage.

Module Sentence.
Record t := mk {
    id : Z;
    source_text : string;
    machine_translation : string;
    source_language : string;
    target_language : string;
    domain : option string;
    is_active : bool
  }.
End Sentence.

Module Annotation.
Record t := mk {
    id : Z;
    sentence_id : Z;
    annotator_id : Z;
    fluency_score : option Z;
    adequacy_score : option Z;
    overall_quality : option Z;
    errors_found : option string;
    suggested_correction : option string;
    comments : option string;
    final_form : option string;
    time_spent_seconds : option Z;
    annotation_status : option string
  }.

Definition set_annotation_status (v : option string) (a : t) : t :=
    mk (id a) (sentence_id a) (annotator_id a) (fluency_score a)
       (adequacy_score a) (overall_quality a) (errors_found a)
       (suggested_correction a) (comments a) (final_form a)
       (time_spent_seconds a) v.
End Annotation.

Module TextHighlight.
Record t := mk {
    id : Z;
    annotation_id : Z;
    highlighted_text : string;
    start_index : Z;
    end_index : Z;
    text_type : string;
    comment : string
  }.
End TextHighlight.

Module Evaluation.
Record t := mk {
    id : Z;
    annotation_id : Z;
    evaluator_id : Z;
    annotation_quality_score : option Z;
    accuracy_score : option Z;
    completeness_score : option Z;
    overall_evaluation_score : option Z;
    feedback : option string;
    evaluation_notes : option string;
    time_spent_seconds : option Z;
    evaluation_status : option string
  }.
End Evaluation.

Global Instance User_eq_dec : EqDecision User.t.
Proof. solve_decision. Defined.
Global Instance UserLanguage_eq_dec : EqDecision UserLanguage.t.
Proof. solve_decision. Defined.
Global Instance Sentence_eq_dec : EqDecision Sentence.t.
Proof. solve_decision. Defined.
Global Instance Annotation_eq_dec : EqDecision Annotation.t.
Proof. solve_decision. Defined.
Global Instance TextHighlight_eq_dec : EqDecision TextHighlight.t.
Proof. solve_decision. Defined.
Global Instance Evaluation_eq_dec : EqDecision Evaluation.t.
Proof. solve_decision. Defined.

(** Modelled from the spec: database.py (the table declarations and their
    column defaults) is not among the sources.  A registered user starts
    active, not admin and with the guidelines unseen; a new sentence starts
    active, which init_db.py relies on when it seeds the sentences that
    [get_next_sentence] serves. *)
Module ColumnDefault.
Definition user_is_active : bool := true.
Definition user_is_admin : bool := false.
Definition user_is_evaluator : bool := false.
Definition user_guidelines_seen : bool := false.
Definition sentence_is_active : bool := true.
End ColumnDefault.

(** ** The database and a session on it *)

Record Database := mkDatabase {
  users : list User.t;
  user_languages : list UserLanguage.t;
  sentences : list Sentence.t;
  annotations : list Annotation.t;
  text_highlights : list TextHighlight.t;
  evaluations : list Evaluation.t
}.

Definition empty_db : Database := mkDatabase [] [] [] [] [] [].

Definition with_users (f : list User.t → list User.t) (d : Database) :=
  mkDatabase (f (users d)) (user_languages d) (sentences d) (annotations d)
             (text_highlights d) (evaluations d).
Definition with_user_languages
    (f : list UserLanguage.t → list UserLanguage.t) (d : Database) :=
  mkDatabase (users d) (f (user_languages d)) (sentences d) (annotations d)
             (text_highlights d) (evaluations d).
Definition with_sentences
    (f : list Sentence.t → list Sentence.t) (d : Database) :=
  mkDatabase (users d) (user_languages d) (f (sentences d)) (annotations d)
             (text_highlights d) (evaluations d).
Definition with_annotations
    (f : list Annotation.t → list Annotation.t) (d : Database) :=
  mkDatabase (users d) (user_languages d) (sentences d) (f (annotations d))
             (text_highlights d) (evaluations d).
Definition with_text_highlights
    (f : list TextHighlight.t → list TextHighlight.t) (d : Database) :=
  mkDatabase (users d) (user_languages d) (sentences d) (annotations d)
             (f (text_highlights d)) (evaluations d).
Definition with_evaluations
    (f : list Evaluation.t → list Evaluation.t) (d : Database) :=
  mkDatabase (users d) (user_languages d) (sentences d) (annotations d)
             (text_highlights d) (f (evaluations d)).

(** The integer primary key handed to a new row: one more than the largest
    key in the table, 1 in an empty table. *)
Definition next_id (ids : list Z) : Z := 1 + foldr Z.max 0 ids.

(** A session sees its own uncommitted writes in [txn]; [stored] is what
    other sessions see, and [commit_log] lists every snapshot this session
    made visible, oldest first. *)
Record Session := mkSession {
  stored : Database;
  txn : Database;
  commit_log : list Database
}.

Definition Handler (A : Type) : Type :=
  Session → (HTTPException + A) * Session.

Definition ret {A} (a : A) : Handler A := λ s, (inr a, s).

Definition bind {A B} (m : Handler A) (k : A → Handler B) : Handler B :=
  λ s, match m s with
       | (inl e, s') => (inl e, s')
       | (inr a, s') => k a s'
       end.

Definition raise {A} (e : HTTPException) : Handler A := λ s, (inl e, s).

Declare Scope handler_scope.
Delimit Scope handler_scope with handler.
Notation "x <- m ;; k" := (bind m (λ x, k))
  (at level 100, m at next level, right associativity) : handler_scope.
Notation "m ;; k" := (bind m (λ _, k))
  (at level 100, right associativity) : handler_scope.
Local Open Scope handler_scope.

(** [db.query(...)]: read the session's view. *)
Definition query {A} (q : Database → A) : Handler A :=
  λ s, (inr (q (txn s)), s).

(** A write inside the open transaction. *)
Definition write (f : Database → Database) : Handler unit :=
  λ s, (inr tt, mkSession (stored s) (f (txn s)) (commit_log s)).

(** [db.commit()]. *)
Definition db_commit : Handler unit :=
  λ s, (inr tt, mkSession (txn s) (txn s) (commit_log s ++ [txn s])).

(** [db.flush()]: the pending rows are already in [txn]. *)
Definition db_flush : Handler unit := ret tt.

(** [for x in xs: body(x)]. *)
Fixpoint for_each {A} (xs : list A) (body : A → Handler unit) : Handler unit :=
  match xs with
  | [] => ret tt
  | x :: rest => body x ;; for_each rest body
  end.

(** [db.add(row)]: the row is appended with the table's next key. *)
Definition db_add_user (row : Z → User.t) : Handler User.t :=
  r <- query (λ d, row (next_id (User.id <$> users d)));;
  write (with_users (λ t, t ++ [r]));;
  ret r.

Definition db_add_user_language (row : Z → UserLanguage.t)
  : Handler UserLanguage.t :=
  r <- query (λ d, row (next_id (UserLanguage.id <$> user_languages d)));;
  write (with_user_languages (λ t, t ++ [r]));;
  ret r.

Definition db_add_sentence (row : Z → Sentence.t) : Handler Sentence.t :=
  r <- query (λ d, row (next_id (Sentence.id <$> sentences d)));;
  write (with_sentences (λ t, t ++ [r]));;
  ret r.

Definition db_add_annotation (row : Z → Annotation.t) : Handler Annotation.t :=
  r <- query (λ d, row (next_id (Annotation.id <$> annotations d)));;
  write (with_annotations (λ t, t ++ [r]));;
  ret r.

Definition db_add_text_highlight (row : Z → TextHighlight.t)
  : Handler TextHighlight.t :=
  r <- query (λ d, row (next_id (TextHighlight.id <$> text_highlights d)));;
  write (with_text_highlights (λ t, t ++ [r]));;
  ret r.

Definition db_add_evaluation (row : Z → Evaluation.t) : Handler Evaluation.t :=
  r <- query (λ d, row (next_id (Evaluation.id <$> evaluations d)));;
  write (with_evaluations (λ t, t ++ [r]));;
  ret r.

(** Serving one request: a fresh session on the stored database runs the
    handler and is closed, which drops whatever was not committed. *)
Definition serve {A} (h : Handler A) (d : Database)
  : (HTTPException + A) * Database * list Database :=
  let '(r, s) := h (mkSession d d []) in (r, stored s, commit_log s).

Definition response {A} (h : Handler A) (d : Database) : HTTPException + A :=
  (serve h d).1.1.
Definition db_after {A} (h : Handler A) (d : Database) : Database :=
  (serve h d).1.2.
Definition commits {A} (h : Handler A) (d : Database) : list Database :=
  (serve h d).2.

(** ** Authentication dependencies *)

(** A bearer token after signature and expiry checks: its subject (the
    e-mail it was issued for), or [None] when the token is rejected. *)
Definition token : Type := option string.

(** Modelled from the spec: auth.py is not among the sources.
    [current_user(token)] fails with Unauthorized if the token is invalid or
    expired or its subject is not found. *)
Definition get_current_user (tok : token) : Handler User.t :=
  match tok with
  | None => raise (HTTP 401 "Unauthorized")
  | Some sub =>
      user <- query (λ d, head (filter (λ u, User.email u = sub) (users d)));;
      match user with
      | Some u => ret u
      | None => raise (HTTP 401 "Unauthorized")
      end
  end.

(** Modelled from the spec: the role guards of auth.py, each failing with
    Forbidden if its predicate is false. *)
Definition get_current_admin_user (tok : token) : Handler User.t :=
  u <- get_current_user tok;;
  if User.is_admin u then ret u else raise (HTTP 403 "Forbidden").

Definition get_current_evaluator_user (tok : token) : Handler User.t :=
  u <- get_current_user tok;;
  if User.is_evaluator u then ret u else raise (HTTP 403 "Forbidden").

Definition get_current_admin_or_evaluator_user (tok : token) : Handler User.t :=
  u <- get_current_user tok;;
  if User.is_admin u || User.is_evaluator u then ret u
  else raise (HTTP 403 "Forbidden").

(** ** Response shapes *)

Module UserResponse.
Record t := mk {
    user : User.t;
    languages : list string
  }.
End UserResponse.

Module AnnotationResponse.
Record t := mk {
    annotation : Annotation.t;
    sentence : Sentence.t;
    annotator : UserResponse.t;
    highlights : list TextHighlight.t
  }.
End AnnotationResponse.

Module LegacyAnnotationResponse.
Record t := mk {
    annotation : Annotation.t;
    sentence : Sentence.t;
    annotator : UserResponse.t
  }.
End LegacyAnnotationResponse.

Module EvaluationResponse.
Record t := mk {
    evaluation : Evaluation.t;
    evaluator : UserResponse.t;
    annotation : AnnotationResponse.t
  }.
End EvaluationResponse.

(** A Python float, as far as the handlers build one: the literal [0.0], or
    the float that [a / b] evaluates to for integers [a] and [b ≠ 0] (the
    quotient rounded to the nearest double).  The rounding is not computed:
    the value is kept as the division that produced it. *)
Inductive py_float : Type :=
  | float_zero
  | int_quotient (a b : Z).

Module EvaluatorStats.
Record t := mk {
    total_evaluations : nat;
    completed_evaluations : nat;
    pending_evaluations : nat;
    average_time_per_evaluation : py_float
  }.
End EvaluatorStats.

(** [UserResponse.from_orm(obj)]: the row and the language strings of its
    [languages] relationship. *)
Definition user_from_orm (obj : User.t) : Handler UserResponse.t :=
  langs <- query (λ d, UserLanguage.language <$>
                 filter (λ l, UserLanguage.user_id l = User.id obj)
                        (user_languages d));;
  ret (UserResponse.mk obj langs).

(** [UserResponse.from_orm(row.relationship)] for a many-to-one relationship,
    which is [None] when no stored user has the key: the [getattr] defaults
    then give no id and an empty e-mail, and building the response model
    from them raises. *)
Definition user_from_orm_relationship (obj : option User.t)
  : Handler UserResponse.t :=
  match obj with
  | Some obj => user_from_orm obj
  | None => raise (HTTP 500 "Internal Server Error")
  end.

(** The response dict of an annotation: its columns, its [sentence] and
    [annotator] relationships and the rows of its [highlights] relationship.
    The relationships are declared in database.py, which is not among the
    sources; each is read through the foreign key the spec gives for it.
    The response model requires a sentence: an empty relationship fails the
    validation of the response. *)
Definition annotation_dict (a : Annotation.t) : Handler AnnotationResponse.t :=
  sentence <- query (λ d, head (filter (λ s, Sentence.id s = Annotation.sentence_id a)
                                       (sentences d)));;
  annotator <- query (λ d, head (filter (λ u, User.id u = Annotation.annotator_id a)
                                        (users d)));;
  annotator <- user_from_orm_relationship annotator;;
  hs <- query (λ d, filter (λ h, TextHighlight.annotation_id h = Annotation.id a)
                           (text_highlights d));;
  match sentence with
  | Some sentence => ret (AnnotationResponse.mk a sentence annotator hs)
  | None => raise (HTTP 500 "Internal Server Error")
  end.

(** The response dict of the legacy endpoint: the same without highlights. *)
Definition legacy_annotation_dict (a : Annotation.t)
  : Handler LegacyAnnotationResponse.t :=
  sentence <- query (λ d, head (filter (λ s, Sentence.id s = Annotation.sentence_id a)
                                       (sentences d)));;
  annotator <- query (λ d, head (filter (λ u, User.id u = Annotation.annotator_id a)
                                        (users d)));;
  annotator <- user_from_orm_relationship annotator;;
  match sentence with
  | Some sentence => ret (LegacyAnnotationResponse.mk a sentence annotator)
  | None => raise (HTTP 500 "Internal Server Error")
  end.

(** The response dict of an evaluation: its columns, its [evaluator]
    relationship and the dict of its [annotation] relationship, read through
    [evaluation.annotation.id] and its siblings, which raises when the
    relationship is empty. *)
Definition evaluation_dict (e : Evaluation.t) : Handler EvaluationResponse.t :=
  evaluator <- query (λ d, head (filter (λ u, User.id u = Evaluation.evaluator_id e)
                                        (users d)));;
  evaluator <- user_from_orm_relationship evaluator;;
  parent <- query (λ d, head (filter (λ a, Annotation.id a = Evaluation.annotation_id e)
                                     (annotations d)));;
  match parent with
  | None => raise (HTTP 500 "Internal Server Error")
  | Some a =>
      ar <- annotation_dict a;;
      ret (EvaluationResponse.mk e evaluator ar)
  end.

(** ** Pagination *)

(** [.offset(skip).limit(limit)] for non-negative arguments; what a negative
    offset or limit does is left to the database engine. *)
Definition offset_limit {A} (skip limit : Z) (rows : list A) : list A :=
  take (Z.to_nat limit) (drop (Z.to_nat skip) rows).

(** ** Highlight de-duplication *)

Definition highlight_key (h : TextHighlightCreate.t) : Z * Z * string * string :=
  (TextHighlightCreate.start_index h, TextHighlightCreate.end_index h,
   TextHighlightCreate.text_type h, TextHighlightCreate.comment h).

(** The loop over the submitted highlights, with its [seen] set and its
    [unique_highlights] accumulator. *)
Fixpoint unique_highlights_loop (hs : list TextHighlightCreate.t)
    (seen : gset (Z * Z * string * string))
    (unique_highlights : list TextHighlightCreate.t)
  : list TextHighlightCreate.t :=
  match hs with
  | [] => unique_highlights
  | h :: rest =>
      let key := highlight_key h in
      if decide (key ∉ seen)
      then unique_highlights_loop rest ({[ key ]} ∪ seen) (unique_highlights ++ [h])
      else unique_highlights_loop rest seen unique_highlights
  end.

Definition unique_highlights (hs : list TextHighlightCreate.t)
  : list TextHighlightCreate.t :=
  unique_highlights_loop hs ∅ [].

Definition new_highlight (annotation_id : Z) (h : TextHighlightCreate.t)
    (i : Z) : TextHighlight.t :=
  TextHighlight.mk i annotation_id
    (TextHighlightCreate.highlighted_text h)
    (TextHighlightCreate.start_index h)
    (TextHighlightCreate.end_index h)
    (TextHighlightCreate.text_type h)
    (TextHighlightCreate.comment h).

Definition add_highlights (annotation_id : Z)
    (hs : list TextHighlightCreate.t) : Handler unit :=
  for_each (unique_highlights hs) (λ highlight_data,
    db_add_text_highlight (new_highlight annotation_id highlight_data);;
    ret tt).

(** ** Handlers of [main.py] *)

(** [UPDATE users SET ... WHERE id = ?], issued for an attribute change on a
    loaded row. *)
Definition update_user_row (id : Z) (f : User.t → User.t) : Handler unit :=
  write (with_users (fmap (λ u, if decide (User.id u = id) then f u else u))).

Definition update_annotation_row (id : Z) (f : Annotation.t → Annotation.t)
  : Handler unit :=
  write (with_annotations
           (fmap (λ a, if decide (Annotation.id a = id) then f a else a))).

Definition update_evaluation_row (id : Z) (f : Evaluation.t → Evaluation.t)
  : Handler unit :=
  write (with_evaluations
           (fmap (λ e, if decide (Evaluation.id e = id) then f e else e))).

(** The [User] row that [register] builds from its payload. *)
Definition new_user (user_data : UserCreate.t) (i : Z) : User.t :=
  let hashed_password := get_password_hash (UserCreate.password user_data) in
  User.mk i
    (UserCreate.email user_data)
    (UserCreate.username user_data)
    (UserCreate.first_name user_data)
    (UserCreate.last_name user_data)
    hashed_password
    ColumnDefault.user_is_active
    ColumnDefault.user_is_admin
    (default ColumnDefault.user_is_evaluator (UserCreate.is_evaluator user_data))
    ColumnDefault.user_guidelines_seen
    (if truthy_str (UserCreate.preferred_language user_data)
     then default ""%string (UserCreate.preferred_language user_data)
     else if truthy_list (UserCreate.languages user_data)
          then default ""%string (head (items (UserCreate.languages user_data)))
          else "tagalog"%string).

(** POST /api/register *)
Definition register (user_data : UserCreate.t) : Handler UserResponse.t :=
  existing_user <- query (λ d, head (filter
      (λ u, User.email u = UserCreate.email user_data
            ∨ User.username u = UserCreate.username user_data) (users d)));;
  if existing_user is Some _ then
    raise (HTTP 400 "Email or username already registered")
  else
    db_user <- db_add_user (new_user user_data);;
    db_commit;;
    (if truthy_list (UserCreate.languages user_data)
        && bool_decide (0 < length (items (UserCreate.languages user_data)))%nat
     then
       for_each (items (UserCreate.languages user_data)) (λ language,
         db_add_user_language (λ i, UserLanguage.mk i (User.id db_user) language);;
         ret tt);;
       db_commit
     else if truthy_str (UserCreate.preferred_language user_data) then
       db_add_user_language (λ i, UserLanguage.mk i (User.id db_user)
         (default ""%string (UserCreate.preferred_language user_data)));;
       db_commit
     else ret tt);;
    user_from_orm db_user.

(** PUT /api/me/guidelines-seen *)
Definition mark_guidelines_seen (current_user : User.t) : Handler UserResponse.t :=
  update_user_row (User.id current_user) (User.set_guidelines_seen true);;
  db_commit;;
  user_from_orm (User.set_guidelines_seen true current_user).

(** The [Sentence] row built from the fields of [sentence_data]. *)
Definition new_sentence (sentence_data : SentenceCreate.t) (i : Z) : Sentence.t :=
  Sentence.mk i
    (SentenceCreate.source_text sentence_data)
    (SentenceCreate.machine_translation sentence_data)
    (SentenceCreate.source_language sentence_data)
    (SentenceCreate.target_language sentence_data)
    (SentenceCreate.domain sentence_data)
    ColumnDefault.sentence_is_active.

(** POST /api/sentences *)
Definition create_sentence (sentence_data : SentenceCreate.t)
    (current_user : User.t) : Handler Sentence.t :=
  db_sentence <- db_add_sentence (new_sentence sentence_data);;
  db_commit;;
  ret db_sentence.

(** POST /api/admin/sentences/bulk *)
Fixpoint bulk_add_sentences (sentences_data : list SentenceCreate.t)
    (db_sentences : list Sentence.t) : Handler (list Sentence.t) :=
  match sentences_data with
  | [] => ret db_sentences
  | sentence_data :: rest =>
      db_sentence <- db_add_sentence (new_sentence sentence_data);;
      bulk_add_sentences rest (db_sentences ++ [db_sentence])
  end.

Definition bulk_create_sentences (sentences_data : list SentenceCreate.t)
    (current_user : User.t) : Handler (list Sentence.t) :=
  db_sentences <- bulk_add_sentences sentences_data [];;
  db_commit;;
  ret db_sentences.

(** The filter shared by GET /api/sentences/next and
    GET /api/sentences/unannotated. *)
Definition unannotated_query (current_user : User.t) (d : Database)
  : list Sentence.t :=
  filter (λ s, ¬ Exists (λ a, Annotation.sentence_id a = Sentence.id s
                              ∧ Annotation.annotator_id a = User.id current_user)
                        (annotations d))
    (filter (λ s, Sentence.is_active s = true
                  ∧ Sentence.target_language s = User.preferred_language current_user)
       (sentences d)).

(** GET /api/sentences/next *)
Definition get_next_sentence (current_user : User.t)
  : Handler (option Sentence.t) :=
  next_sentence <- query (λ d, head (unannotated_query current_user d));;
  ret next_sentence.

(** GET /api/sentences/unannotated *)
Definition get_unannotated_sentences (skip limit : Z) (current_user : User.t)
  : Handler (list Sentence.t) :=
  unannotated_sentences <-
    query (λ d, offset_limit skip limit (unannotated_query current_user d));;
  ret unannotated_sentences.

(** The [Annotation] row built from the payload without its highlights,
    the caller's id and the status "completed". *)
Definition new_annotation (annotation_data : AnnotationCreate.t)
    (current_user : User.t) (i : Z) : Annotation.t :=
  Annotation.mk i
    (AnnotationCreate.sentence_id annotation_data)
    (User.id current_user)
    (AnnotationCreate.fluency_score annotation_data)
    (AnnotationCreate.adequacy_score annotation_data)
    (AnnotationCreate.overall_quality annotation_data)
    (AnnotationCreate.errors_found annotation_data)
    (AnnotationCreate.suggested_correction annotation_data)
    (AnnotationCreate.comments annotation_data)
    (AnnotationCreate.final_form annotation_data)
    (AnnotationCreate.time_spent_seconds annotation_data)
    (Some "completed"%string).

(** POST /api/annotations *)
Definition create_annotation (annotation_data : AnnotationCreate.t)
    (current_user : User.t) : Handler AnnotationResponse.t :=
  existing_annotation <- query (λ d, head (filter
      (λ a, Annotation.sentence_id a = AnnotationCreate.sentence_id annotation_data
            ∧ Annotation.annotator_id a = User.id current_user)
      (annotations d)));;
  if existing_annotation is Some _ then
    raise (HTTP 400 "You have already annotated this sentence")
  else
    db_annotation <- db_add_annotation (new_annotation annotation_data current_user);;
    db_flush;;
    (if truthy_list (AnnotationCreate.highlights annotation_data) then
       add_highlights (Annotation.id db_annotation)
                      (items (AnnotationCreate.highlights annotation_data))
     else ret tt);;
    db_commit;;
    annotation_dict db_annotation.

Definition new_legacy_annotation (annotation_data : LegacyAnnotationCreate.t)
    (current_user : User.t) (i : Z) : Annotation.t :=
  Annotation.mk i
    (LegacyAnnotationCreate.sentence_id annotation_data)
    (User.id current_user)
    (LegacyAnnotationCreate.fluency_score annotation_data)
    (LegacyAnnotationCreate.adequacy_score annotation_data)
    (LegacyAnnotationCreate.overall_quality annotation_data)
    (LegacyAnnotationCreate.errors_found annotation_data)
    (LegacyAnnotationCreate.suggested_correction annotation_data)
    (LegacyAnnotationCreate.comments annotation_data)
    (LegacyAnnotationCreate.final_form annotation_data)
    (LegacyAnnotationCreate.time_spent_seconds annotation_data)
    (Some "completed"%string).

(** POST /api/annotations/legacy *)
Definition create_legacy_annotation (annotation_data : LegacyAnnotationCreate.t)
    (current_user : User.t) : Handler LegacyAnnotationResponse.t :=
  existing_annotation <- query (λ d, head (filter
      (λ a, Annotation.sentence_id a = LegacyAnnotationCreate.sentence_id annotation_data
            ∧ Annotation.annotator_id a = User.id current_user)
      (annotations d)));;
  if existing_annotation is Some _ then
    raise (HTTP 400 "You have already annotated this sentence")
  else
    db_annotation <- db_add_annotation
                       (new_legacy_annotation annotation_data current_user);;
    db_commit;;
    legacy_annotation_dict db_annotation.

(** The [setattr] loop over [model_dump(exclude_unset=True,
    exclude={'highlights'})]. *)
Definition apply_annotation_update (u : AnnotationUpdate.t) (a : Annotation.t)
  : Annotation.t :=
  Annotation.mk (Annotation.id a) (Annotation.sentence_id a)
    (Annotation.annotator_id a)
    (default (Annotation.fluency_score a) (AnnotationUpdate.fluency_score u))
    (default (Annotation.adequacy_score a) (AnnotationUpdate.adequacy_score u))
    (default (Annotation.overall_quality a) (AnnotationUpdate.overall_quality u))
    (default (Annotation.errors_found a) (AnnotationUpdate.errors_found u))
    (default (Annotation.suggested_correction a)
             (AnnotationUpdate.suggested_correction u))
    (default (Annotation.comments a) (AnnotationUpdate.comments u))
    (default (Annotation.final_form a) (AnnotationUpdate.final_form u))
    (default (Annotation.time_spent_seconds a)
             (AnnotationUpdate.time_spent_seconds u))
    (default (Annotation.annotation_status a)
             (AnnotationUpdate.annotation_status u)).

(** PUT /api/annotations/{annotation_id} *)
Definition update_annotation (annotation_id : Z)
    (annotation_data : AnnotationUpdate.t) (current_user : User.t)
  : Handler AnnotationResponse.t :=
  annotation <- query (λ d, head (filter
      (λ a, Annotation.id a = annotation_id
            ∧ Annotation.annotator_id a = User.id current_user)
      (annotations d)));;
  match annotation with
  | None => raise (HTTP 404 "Annotation not found")
  | Some annotation =>
      update_annotation_row (Annotation.id annotation)
        (apply_annotation_update annotation_data);;
      match AnnotationUpdate.highlights annotation_data with
      | Some highlights =>
          write (with_text_highlights
                   (filter (λ h, TextHighlight.annotation_id h ≠ annotation_id)));;
          add_highlights annotation_id highlights
      | None => ret tt
      end;;
      db_commit;;
      annotation_dict (apply_annotation_update annotation_data annotation)
  end.

(** PUT /api/admin/users/{user_id}/toggle-evaluator *)
Definition toggle_user_evaluator_role (user_id : Z) (current_user : User.t)
  : Handler UserResponse.t :=
  user <- query (λ d, head (filter (λ u, User.id u = user_id) (users d)));;
  match user with
  | None => raise (HTTP 404 "User not found")
  | Some user =>
      update_user_row (User.id user)
        (User.set_is_evaluator (negb (User.is_evaluator user)));;
      db_commit;;
      user_from_orm (User.set_is_evaluator (negb (User.is_evaluator user)) user)
  end.

(** The [Evaluation] row built from the payload, the caller's id and the
    status "completed". *)
Definition new_evaluation (evaluation_data : EvaluationCreate.t)
    (current_user : User.t) (i : Z) : Evaluation.t :=
  Evaluation.mk i
    (EvaluationCreate.annotation_id evaluation_data)
    (User.id current_user)
    (EvaluationCreate.annotation_quality_score evaluation_data)
    (EvaluationCreate.accuracy_score evaluation_data)
    (EvaluationCreate.completeness_score evaluation_data)
    (EvaluationCreate.overall_evaluation_score evaluation_data)
    (EvaluationCreate.feedback evaluation_data)
    (EvaluationCreate.evaluation_notes evaluation_data)
    (EvaluationCreate.time_spent_seconds evaluation_data)
    (Some "completed"%string).

(** POST /api/evaluations *)
Definition create_evaluation (evaluation_data : EvaluationCreate.t)
    (current_user : User.t) : Handler EvaluationResponse.t :=
  existing_evaluation <- query (λ d, head (filter
      (λ e, Evaluation.annotation_id e = EvaluationCreate.annotation_id evaluation_data
            ∧ Evaluation.evaluator_id e = User.id current_user)
      (evaluations d)));;
  if existing_evaluation is Some _ then
    raise (HTTP 400 "You have already evaluated this annotation")
  else
    db_evaluation <- db_add_evaluation (new_evaluation evaluation_data current_user);;
    db_commit;;
    annotation <- query (λ d, head (filter
        (λ a, Annotation.id a = EvaluationCreate.annotation_id evaluation_data)
        (annotations d)));;
    match annotation with
    | Some annotation =>
        update_annotation_row (Annotation.id annotation)
          (Annotation.set_annotation_status (Some "reviewed"%string));;
        db_commit
    | None => ret tt
    end;;
    evaluation_dict db_evaluation.

(** The [setattr] loop over [model_dump(exclude_unset=True)]. *)
Definition apply_evaluation_update (u : EvaluationUpdate.t) (e : Evaluation.t)
  : Evaluation.t :=
  Evaluation.mk (Evaluation.id e) (Evaluation.annotation_id e)
    (Evaluation.evaluator_id e)
    (default (Evaluation.annotation_quality_score e)
             (EvaluationUpdate.annotation_quality_score u))
    (default (Evaluation.accuracy_score e) (EvaluationUpdate.accuracy_score u))
    (default (Evaluation.completeness_score e)
             (EvaluationUpdate.completeness_score u))
    (default (Evaluation.overall_evaluation_score e)
             (EvaluationUpdate.overall_evaluation_score u))
    (default (Evaluation.feedback e) (EvaluationUpdate.feedback u))
    (default (Evaluation.evaluation_notes e)
             (EvaluationUpdate.evaluation_notes u))
    (default (Evaluation.time_spent_seconds e)
             (EvaluationUpdate.time_spent_seconds u))
    (default (Evaluation.evaluation_status e)
             (EvaluationUpdate.evaluation_status u)).

(** PUT /api/evaluations/{evaluation_id} *)
Definition update_evaluation (evaluation_id : Z)
    (evaluation_data : EvaluationUpdate.t) (current_user : User.t)
  : Handler EvaluationResponse.t :=
  evaluation <- query (λ d, head (filter
      (λ e, Evaluation.id e = evaluation_id
            ∧ Evaluation.evaluator_id e = User.id current_user)
      (evaluations d)));;
  match evaluation with
  | None => raise (HTTP 404 "Evaluation not found")
  | Some evaluation =>
      update_evaluation_row (Evaluation.id evaluation)
        (apply_evaluation_update evaluation_data);;
      db_commit;;
      evaluation_dict (apply_evaluation_update evaluation_data evaluation)
  end.

(** The annotations still to be evaluated by [current_user]: status
    "completed" and id not among those the evaluator has evaluated. *)
Definition pending_query (current_user : User.t) (d : Database)
  : list Annotation.t :=
  let evaluated_annotation_ids :=
    Evaluation.annotation_id <$>
      filter (λ e, Evaluation.evaluator_id e = User.id current_user)
             (evaluations d) in
  filter (λ a, Annotation.annotation_status a = Some "completed"%string
               ∧ Annotation.id a ∉ evaluated_annotation_ids)
         (annotations d).

(** GET /api/evaluations/pending *)
Fixpoint annotation_dicts (rows : list Annotation.t)
    (response_annotations : list AnnotationResponse.t)
  : Handler (list AnnotationResponse.t) :=
  match rows with
  | [] => ret response_annotations
  | annotation :: rest =>
      annotation_dict <- annotation_dict annotation;;
      annotation_dicts rest (response_annotations ++ [annotation_dict])
  end.

Definition get_pending_evaluations (skip limit : Z) (current_user : User.t)
  : Handler (list AnnotationResponse.t) :=
  annotations <- query (λ d, offset_limit skip limit (pending_query current_user d));;
  annotation_dicts annotations [].




(** POST /api/me/languages *)
Definition update_user_languages (languages : list string)
    (current_user : User.t) : Handler (list string) :=
  write (with_user_languages
           (filter (λ l, UserLanguage.user_id l ≠ User.id current_user)));;
  for_each languages (λ language,
    db_add_user_language (λ i, UserLanguage.mk i (User.id current_user) language);;
    ret tt);;
  match languages with
  | first_language :: _ =>
      update_user_row (User.id current_user)
        (User.set_preferred_language first_language)
  | [] => ret tt
  end;;
  db_commit;;
  ret languages.

(** ** The API as a transition system *)

(** The endpoints that write, each with the bearer token it is called with
    (registration takes none).  The other endpoints only read. *)
Inductive request : Type :=
  | Register (user_data : UserCreate.t)
  | MarkGuidelinesSeen (tok : token)
  | CreateSentence (tok : token) (sentence_data : SentenceCreate.t)
  | BulkCreateSentences (tok : token) (sentences_data : list SentenceCreate.t)
  | CreateAnnotation (tok : token) (annotation_data : AnnotationCreate.t)
  | CreateLegacyAnnotation (tok : token) (annotation_data : LegacyAnnotationCreate.t)
  | UpdateAnnotation (tok : token) (annotation_id : Z)
      (annotation_data : AnnotationUpdate.t)
  | ToggleUserEvaluatorRole (tok : token) (user_id : Z)
  | CreateEvaluation (tok : token) (evaluation_data : EvaluationCreate.t)
  | UpdateEvaluation (tok : token) (evaluation_id : Z)
      (evaluation_data : EvaluationUpdate.t)
  | UpdateUserLanguages (tok : token) (languages : list string).

(** A route: resolve the [Depends(...)] guard, then run the body. *)
Definition route {A} (guard : token → Handler User.t) (tok : token)
    (body : User.t → Handler A) : Handler unit :=
  current_user <- guard tok;;
  body current_user;;
  ret tt.

Definition handle (r : request) : Handler unit :=
  match r with
  | Register user_data => register user_data;; ret tt
  | MarkGuidelinesSeen tok => route get_current_user tok mark_guidelines_seen
  | CreateSentence tok sentence_data =>
      route get_current_admin_user tok (create_sentence sentence_data)
  | BulkCreateSentences tok sentences_data =>
      route get_current_admin_user tok (bulk_create_sentences sentences_data)
  | CreateAnnotation tok annotation_data =>
      route get_current_user tok (create_annotation annotation_data)
  | CreateLegacyAnnotation tok annotation_data =>
      route get_current_user tok (create_legacy_annotation annotation_data)
  | UpdateAnnotation tok annotation_id annotation_data =>
      route get_current_user tok (update_annotation annotation_id annotation_data)
  | ToggleUserEvaluatorRole tok user_id =>
      route get_current_admin_user tok (toggle_user_evaluator_role user_id)
  | CreateEvaluation tok evaluation_data =>
      route get_current_evaluator_user tok (create_evaluation evaluation_data)
  | UpdateEvaluation tok evaluation_id evaluation_data =>
      route get_current_evaluator_user tok
        (update_evaluation evaluation_id evaluation_data)
  | UpdateUserLanguages tok languages =>
      route get_current_user tok (update_user_languages languages)
  end.

(** The stored database after a request has been served. *)
Definition step (r : request) (d : Database) : Database := db_after (handle r) d.

(** The databases the API can reach from [d0]. *)
Inductive reachable (d0 : Database) : Database → Prop :=
  | reachable_refl : reachable d0 d0
  | reachable_step d r : reachable d0 d → reachable d0 (step r d).

(** ** Integrity conditions on a database *)

(** A table scan yields the rows in primary-key order: the keys of the
    stored rows are strictly increasing. *)
Definition primary_key_order (ids : list Z) : Prop := StronglySorted Z.lt ids.

(** What the specification asks of a sentence served to [current_user]. *)
Definition servable (current_user : User.t) (d : Database) (s : Sentence.t)
  : Prop :=
  Sentence.is_active s = true
  ∧ Sentence.target_language s = User.preferred_language current_user
  ∧ ¬ ∃ a, a ∈ annotations d
           ∧ Annotation.sentence_id a = Sentence.id s
           ∧ Annotation.annotator_id a = User.id current_user.

Global Instance servable_dec current_user d s :
  Decision (servable current_user d s).
Proof.
  refine (cast_if (decide (
    (¬ Exists (λ a, Annotation.sentence_id a = Sentence.id s
                    ∧ Annotation.annotator_id a = User.id current_user)
              (annotations d))
    ∧ (Sentence.is_active s = true
       ∧ Sentence.target_language s = User.preferred_language current_user))));
    unfold servable; rewrite Exists_exists in *; tauto.
Defined.

(** A handler that leaves the session as it found it. *)
Definition read_only {A} (h : Handler A) : Prop := ∀ s, (h s).2 = s.

(** ** What the loops of the handlers write *)

(** One [db.add(TextHighlight(...))] of the highlight loop. *)
Definition insert_text_highlight (annotation_id : Z) (d : Database)
    (h : TextHighlightCreate.t) : Database :=
  with_text_highlights (λ t, t ++
    [new_highlight annotation_id h
       (next_id (TextHighlight.id <$> text_highlights d))]) d.

(** One [db.add(UserLanguage(...))] of a language loop. *)
Definition insert_user_language (user_id : Z) (d : Database)
    (language : string) : Database :=
  with_user_languages (λ t, t ++
    [UserLanguage.mk (next_id (UserLanguage.id <$> user_languages d))
       user_id language]) d.

(** One [db.add(Sentence(...))] of the bulk loop. *)
Definition insert_sentence (d : Database) (sentence_data : SentenceCreate.t)
  : Database :=
  with_sentences (λ t, t ++
    [new_sentence sentence_data (next_id (Sentence.id <$> sentences d))]) d.

(** The (sentence_id, annotator_id) pair of an annotation, and the
    invariant that no two stored annotations share it. *)
Definition annotation_pair (a : Annotation.t) : Z * Z :=
  (Annotation.sentence_id a, Annotation.annotator_id a).

Definition one_annotation_per_pair (d : Database) : Prop :=
  NoDup (annotation_pair <$> annotations d).

(** ** A small deployment

    The database as init_db.py seeds its admin, then a history of requests:
    two registrations, three sentences, one annotation with a repeated
    highlight, one evaluation. *)

Module Demo.
Local Open Scope string_scope.

Definition admin : User.t :=
  User.mk 1 "admin@example.com" "admin" "Admin" "User"
    (get_password_hash "admin123") true true false true "en".

Definition seeded : Database := mkDatabase [admin] [] [] [] [] [].

Definition alice_data : UserCreate.t :=
  UserCreate.mk "alice@example.com" "alice" "Alice" "Reyes" None
    (Some ["fr"; "tagalog"]) "secret" None.

Definition eve_data : UserCreate.t :=
  UserCreate.mk "eve@example.com" "eve" "Eve" "Santos" None None
    "secret" (Some true).

Definition alice : User.t := new_user alice_data 2.
Definition eve : User.t := new_user eve_data 3.

Definition admin_token : token := Some "admin@example.com".
Definition alice_token : token := Some "alice@example.com".
Definition eve_token : token := Some "eve@example.com".

Definition cat : SentenceCreate.t :=
  SentenceCreate.mk "The cat sat on the mat."
    "Le chat s'est assis sur le tapis." "en" "fr" (Some "general").
Definition morning : SentenceCreate.t :=
  SentenceCreate.mk "Good morning! How are you today?"
    "Magandang umaga! Kumusta ka ngayong araw?" "en" "tagalog" (Some "general").
Definition weather : SentenceCreate.t :=
  SentenceCreate.mk "The weather is beautiful today."
    "Le temps est beau aujourd'hui." "en" "fr" (Some "general").

Definition chat : TextHighlightCreate.t :=
  TextHighlightCreate.mk "chat" 3 7 "machine" "wrong noun".
Definition chat_again : TextHighlightCreate.t :=
  TextHighlightCreate.mk "chat " 3 7 "machine" "wrong noun".
Definition tapis : TextHighlightCreate.t :=
  TextHighlightCreate.mk "tapis" 28 33 "machine" "register".

Definition cat_annotation : AnnotationCreate.t :=
  AnnotationCreate.mk (Some 4) (Some 3) (Some 4) None None None None (Some 42)
    1 (Some [chat; tapis; chat_again; chat]).

Definition cat_annotation_legacy : LegacyAnnotationCreate.t :=
  LegacyAnnotationCreate.mk (Some 4) (Some 3) (Some 4) None None None None
    (Some 42) 1.

Definition cat_evaluation : EvaluationCreate.t :=
  EvaluationCreate.mk (Some 5) (Some 4) (Some 4) (Some 4) None None (Some 30) 1.

Definition run (d : Database) (history : list request) : Database :=
  foldl (λ d r, step r d) d history.

(** Alice and Eve have registered and the admin has added the sentences. *)
Definition staffed : Database :=
  run seeded [Register alice_data; Register eve_data;
              BulkCreateSentences admin_token [cat; morning];
              CreateSentence admin_token weather].

(** Alice has annotated the first sentence. *)
Definition annotated : Database :=
  run staffed [CreateAnnotation alice_token cat_annotation].

(** Eve has evaluated Alice's annotation. *)
Definition evaluated : Database :=
  run annotated [CreateEvaluation eve_token cat_evaluation].

End Demo.

(** The de-duplication tuple of a stored highlight. *)
Definition stored_highlight_key (h : TextHighlight.t) : Z * Z * string * string :=
  (TextHighlight.start_index h, TextHighlight.end_index h,
   TextHighlight.text_type h, TextHighlight.comment h).

(** The stored highlights of an annotation (its [highlights] relationship). *)
Definition highlights_of (annotation_id : Z) (d : Database)
  : list TextHighlight.t :=
  filter (λ h, TextHighlight.annotation_id h = annotation_id) (text_highlights d).

(** Every stored highlight belongs to a stored annotation. *)
Definition highlights_refer_to_annotations (d : Database) : Prop :=
  ∀ h, h ∈ text_highlights d →
       TextHighlight.annotation_id h ∈ Annotation.id <$> annotations d.

(** ** Transactions *)

(** Serving [h] on [d] is a single all-or-nothing transaction: either it
    commits nothing and the stored database is unchanged, or it commits
    once and that snapshot is the stored database afterwards. *)
Definition single_transaction {A} (h : Handler A) (d : Database) : Prop :=
  (commits h d = [] ∧ db_after h d = d) ∨ commits h d = [db_after h d].

(** The requests that reach a second [db.commit()]: a registration that is
    accepted (no stored user has its e-mail or its username) and has
    language rows to store (a non-empty [languages] list, or else a
    non-empty [preferred_language]); and an evaluation by an evaluator who
    has none yet for the annotation, when the annotation is stored. *)
Definition second_commit (r : request) (d : Database) : Prop :=
  match r with
  | Register user_data =>
      (∀ u, u ∈ users d →
            User.email u ≠ UserCreate.email user_data
            ∧ User.username u ≠ UserCreate.username user_data)
      ∧ (truthy_list (UserCreate.languages user_data) = true
         ∨ truthy_str (UserCreate.preferred_language user_data) = true)
  | CreateEvaluation tok evaluation_data =>
      ∃ current_user,
        response (get_current_evaluator_user tok) d = inr current_user
        ∧ (∀ e, e ∈ evaluations d →
                ¬ (Evaluation.annotation_id e
                     = EvaluationCreate.annotation_id evaluation_data
                   ∧ Evaluation.evaluator_id e = User.id current_user))
        ∧ ∃ a, a ∈ annotations d
               ∧ Annotation.id a = EvaluationCreate.annotation_id evaluation_data
  | _ => False
  end.

(** The language rows a registration stores: the [languages] list when it
    is non-empty, else the [preferred_language] when it is non-empty. *)
Definition registered_languages (user_data : UserCreate.t) : list string :=
  if truthy_list (UserCreate.languages user_data)
  then items (UserCreate.languages user_data)
  else if truthy_str (UserCreate.preferred_language user_data)
       then [default ""%string (UserCreate.preferred_language user_data)]
       else [].

(** The two snapshots of a request that commits twice. *)
Definition two_commits (r : request) (d d1 d2 : Database) : Prop :=
  match r with
  | Register user_data =>
      let user := new_user user_data (next_id (User.id <$> users d)) in
      d1 = with_users (λ t, t ++ [user]) d
      ∧ d2 = foldl (insert_user_language (User.id user)) d1
                   (registered_languages user_data)
      ∧ registered_languages user_data ≠ []
  | CreateEvaluation tok evaluation_data =>
      ∃ current_user,
        response (get_current_evaluator_user tok) d = inr current_user
        ∧ d1 = with_evaluations
                 (λ t, t ++ [new_evaluation evaluation_data current_user
                               (next_id (Evaluation.id <$> evaluations d))]) d
        ∧ d2 = with_annotations
                 (fmap (λ a, if decide (Annotation.id a
                                        = EvaluationCreate.annotation_id
                                            evaluation_data)
                             then Annotation.set_annotation_status
                                    (Some "reviewed"%string) a
                             else a)) d1
  | _ => False
  end.

(** What the specification asks of an annotation listed as pending for an
    evaluator: its status is "completed" and the evaluator has no
    evaluation of it. *)
Definition pending_for (current_user : User.t) (d : Database)
    (a : Annotation.t) : Prop :=
  Annotation.annotation_status a = Some "completed"%string
  ∧ ¬ ∃ e, e ∈ evaluations d
           ∧ Evaluation.annotation_id e = Annotation.id a
           ∧ Evaluation.evaluator_id e = User.id current_user.

Global Instance pending_for_dec current_user d a :
  Decision (pending_for current_user d a).
Proof.
  refine (cast_if (decide (
    Annotation.annotation_status a = Some "completed"%string
    ∧ ¬ Exists (λ e, Evaluation.annotation_id e = Annotation.id a
                     ∧ Evaluation.evaluator_id e = User.id current_user)
               (evaluations d))));
    unfold pending_for; rewrite Exists_exists in *; tauto.
Defined.

(** An annotation whose response dict can be built: a stored sentence has
    its [sentence_id] and a stored user its [annotator_id]. *)
Definition has_sentence_and_annotator (d : Database) (a : Annotation.t) : Prop :=
  (∃ s, s ∈ sentences d ∧ Sentence.id s = Annotation.sentence_id a)
  ∧ (∃ u, u ∈ users d ∧ User.id u = Annotation.annotator_id a).



(** ** Further handlers of [main.py] *)

(** [get_user_languages(db, user_id)] *)
Definition get_user_languages (user_id : Z) : Handler (list string) :=
  languages <- query (λ d, UserLanguage.language <$>
      filter (λ l, UserLanguage.user_id l = user_id) (user_languages d));;
  ret languages.


(** GET /api/sentences/{sentence_id} *)
Definition get_sentence (sentence_id : Z) (current_user : User.t)
  : Handler Sentence.t :=
  sentence <- query (λ d, head (filter (λ s, Sentence.id s = sentence_id)
                                       (sentences d)));;
  match sentence with
  | None => raise (HTTP 404 "Sentence not found")
  | Some sentence => ret sentence
  end.

(** [SELECT target_language, count(id) ... GROUP BY target_language]: one
    pair per distinct target language. *)
Definition count_by_target_language (rows : list Sentence.t)
  : list (string * Z) :=
  (λ language,
     (language,
      Z.of_nat (length (filter (λ s, Sentence.target_language s = language) rows))))
  <$> remove_dups (Sentence.target_language <$> rows).

(** The loop that fills the [counts] dict and accumulates [total]. *)
Fixpoint counts_loop (target_counts : list (string * Z))
    (counts : gmap string Z) (total : Z) : gmap string Z * Z :=
  match target_counts with
  | [] => (counts, total)
  | (language, count) :: rest =>
      counts_loop rest (<[language := count]> counts) (total + count)
  end.

(** GET /api/admin/sentences/counts *)
Definition get_sentence_counts_by_language (current_user : User.t)
  : Handler (gmap string Z) :=
  target_counts <- query (λ d, count_by_target_language (sentences d));;
  let '(counts, total) := counts_loop target_counts ∅ 0 in
  ret (<["all"%string := total]> counts).

(** ** Seeding ([init_db.py]) *)

Module Seed.
Local Open Scope string_scope.

Definition sample_sentences : list SentenceCreate.t :=
  [ SentenceCreate.mk "The cat sat on the mat."
      "Le chat s'est assis sur le tapis." "en" "fr" (Some "general");
    SentenceCreate.mk "I need to go to the hospital urgently."
      "Je dois aller à l'hôpital d'urgence." "en" "fr" (Some "medical");
    SentenceCreate.mk "The contract must be signed by both parties."
      "Le contrat doit être signé par les deux parties." "en" "fr" (Some "legal");
    SentenceCreate.mk "Please restart your computer to complete the installation."
      "Veuillez redémarrer votre ordinateur pour terminer l'installation."
      "en" "fr" (Some "technical");
    SentenceCreate.mk "The weather is beautiful today."
      "Le temps est beau aujourd'hui." "en" "fr" (Some "general");
    SentenceCreate.mk "Good morning! How are you today?"
      "Magandang umaga! Kumusta ka ngayong araw?" "en" "tagalog" (Some "general");
    SentenceCreate.mk "Please help me carry this heavy bag."
      "Pakitulong sa akin na buhatin ang mabigat na bag na ito."
      "en" "tagalog" (Some "general");
    SentenceCreate.mk "Where is the nearest hospital?"
      "Asa man ang pinaka-duol nga ospital?" "en" "cebuano" (Some "medical");
    SentenceCreate.mk "Thank you very much for your help."
      "Salamat kaayo sa imong tabang." "en" "cebuano" (Some "general");
    SentenceCreate.mk "What time does the store open?"
      "Ania nga oras ti panaglukat ti tienda?" "en" "ilocano" (Some "general");
    SentenceCreate.mk "I need to buy some food for dinner."
      "Kinahanglan ko nga mamakal sang pagkaon para sa panihapon."
      "en" "hiligaynon" (Some "general");
    SentenceCreate.mk "The weather is very hot today."
      "Maaninit na maray an panahon ngonyan." "en" "bicolano" (Some "general");
    SentenceCreate.mk "Can you speak English?"
      "Makakayani ka ba nga magsulti hin Iningles?" "en" "waray" (Some "general");
    SentenceCreate.mk "How much does this cost?"
      "Magkanu ya ini?" "en" "pampangan" (Some "general");
    SentenceCreate.mk "Please wait for me here."
      "Pakiayat ak diad toy lugar." "en" "pangasinan" (Some "general") ].

(** The admin row of [init_database]; the columns it does not set take
    their defaults. *)
Definition admin_user (i : Z) : User.t :=
  User.mk i "admin@example.com" "admin" "Admin" "User"
    (get_password_hash "admin123")
    ColumnDefault.user_is_active true ColumnDefault.user_is_evaluator true "en".

(** Modelled from the spec: the uniqueness of [users.username] (database.py
    is not among the sources); the rest is [init_database()] of init_db.py.
    Adding the admin row while a stored user already has the username
    [admin] makes [db.commit()] raise [IntegrityError], which nothing
    catches.  [users.email] is unique too, but the admin is added only after
    no row with its e-mail was found. *)
Definition init_database : Handler unit :=
  admin_user <- query (λ d, head (filter
      (λ u, User.email u = "admin@example.com") (users d)));;
  (if admin_user is Some _ then ret tt
   else
     username_taken <- query (λ d, head (filter
         (λ u, User.username u = "admin") (users d)));;
     if username_taken is Some _ then raise (HTTP 500 "IntegrityError")
     else db_add_user Seed.admin_user;; db_commit);;
  existing_sentences <- query sentences;;
  match existing_sentences with
  | [] =>
      for_each sample_sentences (λ sentence_data,
        db_add_sentence (new_sentence sentence_data);; ret tt);;
      db_commit
  | _ :: _ => ret tt
  end.

End Seed.

(** ** Further integrity conditions *)

(** No two stored users share an e-mail, and no two share a username. *)
Definition unique_credentials (d : Database) : Prop :=
  NoDup (User.email <$> users d) ∧ NoDup (User.username <$> users d).

(** The (annotation_id, evaluator_id) pair of an evaluation, and the
    invariant that no two stored evaluations share it. *)
Definition evaluation_pair (e : Evaluation.t) : Z * Z :=
  (Evaluation.annotation_id e, Evaluation.evaluator_id e).

Definition one_evaluation_per_pair (d : Database) : Prop :=
  NoDup (evaluation_pair <$> evaluations d).

(** Every table is stored in primary-key order. *)
Definition keyed (d : Database) : Prop :=
  primary_key_order (User.id <$> users d)
  ∧ primary_key_order (UserLanguage.id <$> user_languages d)
  ∧ primary_key_order (Sentence.id <$> sentences d)
  ∧ primary_key_order (Annotation.id <$> annotations d)
  ∧ primary_key_order (TextHighlight.id <$> text_highlights d)
  ∧ primary_key_order (Evaluation.id <$> evaluations d).

(** Every stored language row belongs to a stored user. *)
Definition languages_refer_to_users (d : Database) : Prop :=
  ∀ l, l ∈ user_languages d →
       UserLanguage.user_id l ∈ User.id <$> users d.

(** [init_database] has nothing to add for the admin, or can add it: a
    stored user has the admin e-mail, or no stored user has the username
    [admin]. *)
Definition admin_can_be_seeded (d : Database) : Prop :=
  (∃ u, u ∈ users d ∧ User.email u = "admin@example.com"%string)
  ∨ ∀ u, u ∈ users d → User.username u ≠ "admin"%string.

(** * Properties *)

(** ** Scans, keys and filters *)

Section scans.
Context {A : Type} (key : A → Z) (P : A → Prop) `{!∀ x, Decision (P x)}.

Lemma first_row_Some (rows : list A) (x : A) :
    head (filter P rows) = Some x → x ∈ rows ∧ P x.
  Proof.
    intros Hhd. apply head_Some_elem_of in Hhd.
    by apply list_elem_of_filter in Hhd as [? ?].
  Qed.

Lemma first_row_None (rows : list A) :
    head (filter P rows) = None ↔ ∀ y, y ∈ rows → ¬ P y.
  Proof.
    rewrite head_None. split.
    - intros Hnil y Hy HP.
      assert (y ∈ filter P rows) as Hin by (apply list_elem_of_filter; done).
      rewrite Hnil in Hin. by apply not_elem_of_nil in Hin.
    - intros Hno. induction rows as [|r rows IH]; [done|].
      rewrite filter_cons_False; [|apply Hno; left].
      apply IH. intros y Hy. apply Hno. by right.
  Qed.

Lemma first_row_least_key (rows : list A) (x : A) :
    primary_key_order (key <$> rows) →
    head (filter P rows) = Some x →
    ∀ y, y ∈ rows → P y → key x ≤ key y.
  Proof.
    unfold primary_key_order.
    induction rows as [|r rows IH]; intros Hsorted Hhd y Hy HPy; [done|].
    rewrite fmap_cons in Hsorted.
    apply StronglySorted_cons in Hsorted as [Hlt Hsorted].
    rewrite filter_cons in Hhd. destruct (decide (P r)) as [HPr|HPr].
    - simpl in Hhd. injection Hhd as ->.
      apply elem_of_cons in Hy as [->|Hy]; [lia|].
      rewrite Forall_forall in Hlt.
      assert (key x < key y); [|lia].
      apply Hlt, list_elem_of_fmap. by exists y.
    - apply elem_of_cons in Hy as [->|Hy]; [done|]. by apply IH.
  Qed.

Lemma primary_key_unique (rows : list A) (x y : A) :
    primary_key_order (key <$> rows) →
    x ∈ rows → y ∈ rows → key x = key y → x = y.
  Proof.
    unfold primary_key_order.
    induction rows as [|r rows IH]; intros Hsorted Hx Hy Hk.
    { by apply not_elem_of_nil in Hx. }
    rewrite fmap_cons in Hsorted.
    apply StronglySorted_cons in Hsorted as [Hlt Hsorted].
    rewrite Forall_forall in Hlt.
    assert (∀ z, z ∈ rows → key r < key z) as Hlt'.
    { intros z Hz. apply Hlt, list_elem_of_fmap. by exists z. }
    apply elem_of_cons in Hx as [->|Hx]; apply elem_of_cons in Hy as [->|Hy].
    - done.
    - specialize (Hlt' _ Hy). lia.
    - specialize (Hlt' _ Hx). lia.
    - by apply IH.
  Qed.
End scans.

(** ** Next sentence to annotate *)

Lemma servable_iff current_user d s :
  servable current_user d s ↔
    (¬ Exists (λ a, Annotation.sentence_id a = Sentence.id s
                    ∧ Annotation.annotator_id a = User.id current_user)
              (annotations d))
    ∧ (Sentence.is_active s = true
       ∧ Sentence.target_language s = User.preferred_language current_user).
Proof. unfold servable. rewrite Exists_exists. tauto. Qed.

Lemma unannotated_query_spec current_user d :
  unannotated_query current_user d
  = filter (servable current_user d) (sentences d).
Proof.
  unfold unannotated_query. rewrite list_filter_filter.
  apply list_filter_iff. intros s. by rewrite servable_iff.
Qed.

Lemma get_next_sentence_run current_user d :
  serve (get_next_sentence current_user) d
  = (inr (head (unannotated_query current_user d)), d, []).
Proof. reflexivity. Qed.

(** C1.  GET /api/sentences/next, on a table scanned in primary-key order:
    the handler answers without error and writes nothing; a sentence it
    returns is stored, active, in the caller's preferred language and not
    yet annotated by the caller, and has the least primary key among the
    sentences that pass this filter; it returns none only when no stored
    sentence passes the filter. *)
Theorem next_sentence_first_unannotated (current_user : User.t) (d : Database) :
  primary_key_order (Sentence.id <$> sentences d) →
  ∃ next_sentence,
    response (get_next_sentence current_user) d = inr next_sentence
    ∧ db_after (get_next_sentence current_user) d = d
    ∧ match next_sentence with
      | Some s =>
          s ∈ sentences d
          ∧ servable current_user d s
          ∧ ∀ s', s' ∈ sentences d → servable current_user d s' →
                  Sentence.id s ≤ Sentence.id s'
      | None => ∀ s', s' ∈ sentences d → ¬ servable current_user d s'
      end.
Proof.
  intros Hpk. exists (head (unannotated_query current_user d)).
  unfold response, db_after. rewrite get_next_sentence_run. simpl.
  split; [done|]. split; [done|].
  rewrite unannotated_query_spec.
  destruct (head (filter (servable current_user d) (sentences d)))
    as [s|] eqn:Hhd.
  - destruct (first_row_Some _ _ _ Hhd) as [Hin Hs].
    split; [done|]. split; [done|].
    by apply (first_row_least_key Sentence.id _ _ s).
  - exact (proj1 (first_row_None _ _) Hhd).
Qed.

(** ** Running the handlers *)

Lemma session_eta (s : Session) :
  mkSession (stored s) (txn s) (commit_log s) = s.
Proof. by destruct s. Qed.

Lemma add_highlights_run annotation_id hs s :
  add_highlights annotation_id hs s
  = (inr tt,
     mkSession (stored s)
       (foldl (insert_text_highlight annotation_id) (txn s) (unique_highlights hs))
       (commit_log s)).
Proof.
  unfold add_highlights. revert s. generalize (unique_highlights hs) as l.
  induction l as [|h l IH]; intros; simpl.
  - unfold ret. by rewrite session_eta.
  - unfold bind at 1. unfold bind at 1. simpl. by rewrite IH.
Qed.

Lemma add_user_languages_run user_id languages s :
  for_each languages (λ language,
      db_add_user_language (λ i, UserLanguage.mk i user_id language);;
      ret tt) s
  = (inr tt,
     mkSession (stored s)
       (foldl (insert_user_language user_id) (txn s) languages)
       (commit_log s)).
Proof.
  revert s. induction languages as [|l ls IH]; intros; simpl.
  - unfold ret. by rewrite session_eta.
  - unfold bind at 1. unfold bind at 1. simpl. by rewrite IH.
Qed.

Lemma bulk_add_sentences_run sentences_data db_sentences s :
  ∃ rows,
    bulk_add_sentences sentences_data db_sentences s
    = (inr rows,
       mkSession (stored s) (foldl insert_sentence (txn s) sentences_data)
         (commit_log s)).
Proof.
  revert db_sentences s.
  induction sentences_data as [|x xs IH]; intros; simpl.
  - exists db_sentences. unfold ret. by rewrite session_eta.
  - unfold bind at 1. simpl.
    destruct (IH (db_sentences ++
      [new_sentence x (next_id (Sentence.id <$> sentences (txn s)))])
      (mkSession (stored s) (insert_sentence (txn s) x) (commit_log s)))
      as [rows Hrows].
    exists rows. exact Hrows.
Qed.

Lemma read_only_ret {A} (a : A) : read_only (ret a).
Proof. done. Qed.

Lemma read_only_raise {A} e : read_only (@raise A e).
Proof. done. Qed.

Lemma read_only_query {A} (q : Database → A) : read_only (query q).
Proof. done. Qed.

Lemma read_only_bind {A B} (m : Handler A) (k : A → Handler B) :
  read_only m → (∀ a, read_only (k a)) → read_only (bind m k).
Proof.
  intros Hm Hk s. unfold bind. specialize (Hm s).
  destruct (m s) as [[e|a] s']; simpl in *; subst; [done|]. apply Hk.
Qed.

Create HintDb read_only.
#[global] Hint Resolve read_only_ret read_only_raise read_only_query : read_only.

Ltac solve_read_only :=
  repeat first
    [ apply read_only_ret | apply read_only_raise | apply read_only_query
    | apply read_only_bind; [|intros ?]
    | match goal with |- read_only (match ?x with _ => _ end) => destruct x end
    | solve [eauto with read_only] ].

Lemma read_only_get_current_user tok : read_only (get_current_user tok).
Proof. unfold get_current_user. solve_read_only. Qed.
#[global] Hint Resolve read_only_get_current_user : read_only.

Lemma read_only_get_current_admin_user tok :
  read_only (get_current_admin_user tok).
Proof. unfold get_current_admin_user. solve_read_only. Qed.

Lemma read_only_get_current_evaluator_user tok :
  read_only (get_current_evaluator_user tok).
Proof. unfold get_current_evaluator_user. solve_read_only. Qed.

Lemma read_only_get_current_admin_or_evaluator_user tok :
  read_only (get_current_admin_or_evaluator_user tok).
Proof. unfold get_current_admin_or_evaluator_user. solve_read_only. Qed.

Lemma read_only_user_from_orm u : read_only (user_from_orm u).
Proof. unfold user_from_orm. solve_read_only. Qed.

Lemma read_only_user_from_orm_relationship o :
  read_only (user_from_orm_relationship o).
Proof. unfold user_from_orm_relationship, user_from_orm. solve_read_only. Qed.
#[global] Hint Resolve read_only_user_from_orm_relationship : read_only.

Lemma read_only_annotation_dict a : read_only (annotation_dict a).
Proof. unfold annotation_dict. solve_read_only. Qed.
#[global] Hint Resolve read_only_annotation_dict : read_only.

Lemma read_only_legacy_annotation_dict a :
  read_only (legacy_annotation_dict a).
Proof. unfold legacy_annotation_dict. solve_read_only. Qed.

Lemma read_only_evaluation_dict e : read_only (evaluation_dict e).
Proof. unfold evaluation_dict. solve_read_only. Qed.

(** The response dicts in closed form. *)
Lemma annotation_dict_run a s :
  annotation_dict a s
  = (match head (filter (λ x, Sentence.id x = Annotation.sentence_id a)
                        (sentences (txn s))),
           head (filter (λ u, User.id u = Annotation.annotator_id a)
                        (users (txn s))) with
     | Some sentence, Some annotator =>
         inr (AnnotationResponse.mk a sentence
                (UserResponse.mk annotator
                   (UserLanguage.language <$>
                      filter (λ l, UserLanguage.user_id l = User.id annotator)
                             (user_languages (txn s))))
                (filter (λ h, TextHighlight.annotation_id h = Annotation.id a)
                        (text_highlights (txn s))))
     | _, _ => inl (HTTP 500 "Internal Server Error")
     end, s).
Proof.
  unfold annotation_dict, bind, query, user_from_orm_relationship,
    user_from_orm, ret, raise.
  by destruct (head _), (head _).
Qed.

Lemma legacy_annotation_dict_run a s :
  legacy_annotation_dict a s
  = (match (annotation_dict a s).1 with
     | inl e => inl e
     | inr resp =>
         inr (LegacyAnnotationResponse.mk (AnnotationResponse.annotation resp)
                (AnnotationResponse.sentence resp)
                (AnnotationResponse.annotator resp))
     end, s).
Proof.
  rewrite annotation_dict_run.
  unfold legacy_annotation_dict, bind, query, user_from_orm_relationship,
    user_from_orm, ret, raise.
  by destruct (head _), (head _).
Qed.

Lemma evaluation_dict_run e s :
  evaluation_dict e s
  = (match head (filter (λ u, User.id u = Evaluation.evaluator_id e)
                        (users (txn s))),
           head (filter (λ a, Annotation.id a = Evaluation.annotation_id e)
                        (annotations (txn s))) with
     | Some evaluator, Some a =>
         match (annotation_dict a s).1 with
         | inl err => inl err
         | inr ar =>
             inr (EvaluationResponse.mk e
                    (UserResponse.mk evaluator
                       (UserLanguage.language <$>
                          filter (λ l, UserLanguage.user_id l = User.id evaluator)
                                 (user_languages (txn s))))
                    ar)
         end
     | _, _ => inl (HTTP 500 "Internal Server Error")
     end, s).
Proof.
  unfold evaluation_dict, bind at 1, query at 1. simpl.
  destruct (head _) as [evaluator|]; simpl; [|done].
  unfold bind at 1. simpl. unfold bind at 1, query at 1. simpl.
  destruct (head _) as [a|]; [|done].
  unfold bind. rewrite annotation_dict_run. simpl.
  destruct (head (filter _ (sentences (txn s)))); [|done].
  by destruct (head (filter _ (users (txn s)))).
Qed.

(** What a response dict that was built shows. *)
Lemma annotation_dict_inr a s resp :
  (annotation_dict a s).1 = inr resp →
  AnnotationResponse.annotation resp = a
  ∧ AnnotationResponse.highlights resp
    = filter (λ h, TextHighlight.annotation_id h = Annotation.id a)
             (text_highlights (txn s))
  ∧ head (filter (λ x, Sentence.id x = Annotation.sentence_id a)
                 (sentences (txn s)))
    = Some (AnnotationResponse.sentence resp)
  ∧ head (filter (λ u, User.id u = Annotation.annotator_id a) (users (txn s)))
    = Some (UserResponse.user (AnnotationResponse.annotator resp)).
Proof.
  rewrite annotation_dict_run. simpl.
  destruct (head _), (head _); try done. by intros [= <-].
Qed.

#[global] Hint Resolve read_only_get_current_admin_user
  read_only_get_current_evaluator_user
  read_only_get_current_admin_or_evaluator_user
  read_only_user_from_orm read_only_evaluation_dict : read_only.

(** A read-only tail changes neither the stored database nor the log. *)
Lemma bind_read_only_tail {A B} (m : Handler A) (k : A → Handler B) s :
  (∀ a, read_only (k a)) → (bind m k s).2 = (m s).2.
Proof.
  intros Hk. unfold bind. destruct (m s) as [[e|a] s']; simpl; [done|].
  apply Hk.
Qed.

(** A read-only head lets the tail run on the same session. *)
Lemma bind_read_only_head {A B} (m : Handler A) (k : A → Handler B) s :
  read_only m →
  bind m k s = match (m s).1 with
               | inl e => (inl e, s)
               | inr a => k a s
               end.
Proof.
  intros Hm. unfold bind. specialize (Hm s).
  destruct (m s) as [[e|a] s']; simpl in *; by subst.
Qed.

(** What a guarded route can do to the database. *)
Lemma route_cases {A} (Φ : Database → list Database → Prop)
    (guard : token → Handler User.t) tok (body : User.t → Handler A) d :
  read_only (guard tok) →
  Φ d [] →
  (∀ u, response (guard tok) d = inr u →
        Φ (db_after (body u) d) (commits (body u) d)) →
  Φ (db_after (route guard tok body) d) (commits (route guard tok body) d).
Proof.
  intros Hg Hbase Hbody. unfold response, db_after, commits, serve, route in *.
  rewrite bind_read_only_head by done.
  destruct (guard tok _) as [[e|u] s0]; [done|]. simpl.
  specialize (Hbody u eq_refl).
  unfold bind. destruct (body u _) as [[e|a] s']; done.
Qed.

Lemma create_annotation_run annotation_data current_user d :
  serve (create_annotation annotation_data current_user) d
  = match head (filter
            (λ a, Annotation.sentence_id a
                    = AnnotationCreate.sentence_id annotation_data
                  ∧ Annotation.annotator_id a = User.id current_user)
            (annotations d)) with
    | Some _ =>
        (inl (HTTP 400 "You have already annotated this sentence"), d, [])
    | None =>
        let a := new_annotation annotation_data current_user
                   (next_id (Annotation.id <$> annotations d)) in
        let d1 := with_annotations (λ t, t ++ [a]) d in
        let d2 := if truthy_list (AnnotationCreate.highlights annotation_data)
                  then foldl (insert_text_highlight (Annotation.id a)) d1
                         (unique_highlights
                            (items (AnnotationCreate.highlights annotation_data)))
                  else d1 in
        ((annotation_dict a (mkSession d2 d2 [d2])).1, d2, [d2])
    end.
Proof.
  unfold serve, create_annotation, bind at 1, query at 1. simpl.
  destruct (head _); [done|].
  unfold bind at 1. simpl. unfold bind at 1. simpl. unfold bind at 1.
  destruct (truthy_list _); [rewrite add_highlights_run|];
    unfold bind at 1; simpl;
    match goal with |- context [annotation_dict ?a ?s] =>
      pose proof (read_only_annotation_dict a s) as Hro;
      destruct (annotation_dict a s) as [r s'] end;
    simpl in *; by subst.
Qed.

Lemma create_legacy_annotation_run annotation_data current_user d :
  serve (create_legacy_annotation annotation_data current_user) d
  = match head (filter
            (λ a, Annotation.sentence_id a
                    = LegacyAnnotationCreate.sentence_id annotation_data
                  ∧ Annotation.annotator_id a = User.id current_user)
            (annotations d)) with
    | Some _ =>
        (inl (HTTP 400 "You have already annotated this sentence"), d, [])
    | None =>
        let a := new_legacy_annotation annotation_data current_user
                   (next_id (Annotation.id <$> annotations d)) in
        let d1 := with_annotations (λ t, t ++ [a]) d in
        ((legacy_annotation_dict a (mkSession d1 d1 [d1])).1, d1, [d1])
    end.
Proof.
  unfold serve, create_legacy_annotation, bind at 1, query at 1. simpl.
  destruct (head _); [done|].
  unfold bind at 1. simpl. unfold bind at 1. simpl.
  match goal with |- context [legacy_annotation_dict ?a ?s] =>
    pose proof (read_only_legacy_annotation_dict a s) as Hro;
    destruct (legacy_annotation_dict a s) as [r s'] end.
  simpl in *. by subst.
Qed.

Lemma update_annotation_run annotation_id annotation_data current_user d :
  serve (update_annotation annotation_id annotation_data current_user) d
  = match head (filter
            (λ a, Annotation.id a = annotation_id
                  ∧ Annotation.annotator_id a = User.id current_user)
            (annotations d)) with
    | None => (inl (HTTP 404 "Annotation not found"), d, [])
    | Some annotation =>
        let d1 := with_annotations
                    (fmap (λ a, if decide (Annotation.id a = Annotation.id annotation)
                                then apply_annotation_update annotation_data a
                                else a)) d in
        let d2 := match AnnotationUpdate.highlights annotation_data with
                  | Some highlights =>
                      foldl (insert_text_highlight annotation_id)
                        (with_text_highlights
                           (filter (λ h, TextHighlight.annotation_id h ≠ annotation_id))
                           d1)
                        (unique_highlights highlights)
                  | None => d1
                  end in
        let a' := apply_annotation_update annotation_data annotation in
        ((annotation_dict a' (mkSession d2 d2 [d2])).1, d2, [d2])
    end.
Proof.
  unfold serve, update_annotation, bind at 1, query at 1. simpl.
  destruct (head _) as [annotation|]; [|done].
  unfold bind at 1. simpl. unfold bind at 1.
  destruct (AnnotationUpdate.highlights annotation_data) as [hs|].
  - unfold bind at 1. simpl. rewrite add_highlights_run.
    unfold bind at 1. simpl.
    match goal with |- context [annotation_dict ?a ?s] =>
      pose proof (read_only_annotation_dict a s) as Hro;
      destruct (annotation_dict a s) as [r s'] end.
    simpl in *. by subst.
  - simpl. unfold bind at 1. simpl.
    match goal with |- context [annotation_dict ?a ?s] =>
      pose proof (read_only_annotation_dict a s) as Hro;
      destruct (annotation_dict a s) as [r s'] end.
    simpl in *. by subst.
Qed.

Lemma toggle_user_evaluator_role_run user_id current_user d :
  serve (toggle_user_evaluator_role user_id current_user) d
  = match head (filter (λ u, User.id u = user_id) (users d)) with
    | None => (inl (HTTP 404 "User not found"), d, [])
    | Some user =>
        let user' := User.set_is_evaluator (negb (User.is_evaluator user)) user in
        let d1 := with_users
                    (fmap (λ u, if decide (User.id u = User.id user)
                                then User.set_is_evaluator
                                       (negb (User.is_evaluator user)) u
                                else u)) d in
        (inr (UserResponse.mk user'
                (UserLanguage.language <$>
                   filter (λ l, UserLanguage.user_id l = User.id user')
                          (user_languages d1))),
         d1, [d1])
    end.
Proof.
  unfold serve, toggle_user_evaluator_role, bind at 1, query at 1. simpl.
  by destruct (head _).
Qed.

Lemma mark_guidelines_seen_run current_user d :
  serve (mark_guidelines_seen current_user) d
  = let d1 := with_users
                (fmap (λ u, if decide (User.id u = User.id current_user)
                            then User.set_guidelines_seen true u else u)) d in
    (inr (UserResponse.mk (User.set_guidelines_seen true current_user)
            (UserLanguage.language <$>
               filter (λ l, UserLanguage.user_id l = User.id current_user)
                      (user_languages d1))),
     d1, [d1]).
Proof. reflexivity. Qed.

Lemma create_sentence_run sentence_data current_user d :
  serve (create_sentence sentence_data current_user) d
  = let d1 := insert_sentence d sentence_data in
    (inr (new_sentence sentence_data (next_id (Sentence.id <$> sentences d))),
     d1, [d1]).
Proof. reflexivity. Qed.

Lemma bulk_create_sentences_run sentences_data current_user d :
  ∃ rows,
    serve (bulk_create_sentences sentences_data current_user) d
    = let d1 := foldl insert_sentence d sentences_data in
      (inr rows, d1, [d1]).
Proof.
  destruct (bulk_add_sentences_run sentences_data [] (mkSession d d []))
    as [rows Hrows].
  exists rows. unfold serve, bulk_create_sentences, bind at 1.
  by rewrite Hrows.
Qed.

Lemma update_user_languages_run languages current_user d :
  serve (update_user_languages languages current_user) d
  = let d1 := with_user_languages
                (filter (λ l, UserLanguage.user_id l ≠ User.id current_user)) d in
    let d2 := foldl (insert_user_language (User.id current_user)) d1 languages in
    let d3 := match languages with
              | first_language :: _ =>
                  with_users
                    (fmap (λ u, if decide (User.id u = User.id current_user)
                                then User.set_preferred_language first_language u
                                else u)) d2
              | [] => d2
              end in
    (inr languages, d3, [d3]).
Proof.
  unfold serve, update_user_languages, bind at 1. simpl.
  unfold bind at 1. rewrite add_user_languages_run. simpl.
  by destruct languages.
Qed.

Lemma update_evaluation_run evaluation_id evaluation_data current_user d :
  serve (update_evaluation evaluation_id evaluation_data current_user) d
  = match head (filter
            (λ e, Evaluation.id e = evaluation_id
                  ∧ Evaluation.evaluator_id e = User.id current_user)
            (evaluations d)) with
    | None => (inl (HTTP 404 "Evaluation not found"), d, [])
    | Some evaluation =>
        let d1 := with_evaluations
                    (fmap (λ e, if decide (Evaluation.id e = Evaluation.id evaluation)
                                then apply_evaluation_update evaluation_data e
                                else e)) d in
        ((evaluation_dict (apply_evaluation_update evaluation_data evaluation)
            (mkSession d1 d1 [d1])).1,
         d1, [d1])
    end.
Proof.
  unfold serve, update_evaluation, bind at 1, query at 1. simpl.
  destruct (head _) as [evaluation|]; [|done].
  unfold bind at 1. simpl. unfold bind at 1. simpl.
  match goal with |- context [evaluation_dict ?e ?s] =>
    pose proof (read_only_evaluation_dict e s) as Hro;
    destruct (evaluation_dict e s) as [r s'] end.
  simpl in *. by subst.
Qed.

Lemma create_evaluation_run evaluation_data current_user d :
  serve (create_evaluation evaluation_data current_user) d
  = match head (filter
            (λ e, Evaluation.annotation_id e
                    = EvaluationCreate.annotation_id evaluation_data
                  ∧ Evaluation.evaluator_id e = User.id current_user)
            (evaluations d)) with
    | Some _ =>
        (inl (HTTP 400 "You have already evaluated this annotation"), d, [])
    | None =>
        let e := new_evaluation evaluation_data current_user
                   (next_id (Evaluation.id <$> evaluations d)) in
        let d1 := with_evaluations (λ t, t ++ [e]) d in
        match head (filter
                (λ a, Annotation.id a
                      = EvaluationCreate.annotation_id evaluation_data)
                (annotations d)) with
        | Some annotation =>
            let d2 := with_annotations
                        (fmap (λ a, if decide (Annotation.id a
                                               = Annotation.id annotation)
                                    then Annotation.set_annotation_status
                                           (Some "reviewed"%string) a
                                    else a)) d1 in
            ((evaluation_dict e (mkSession d2 d2 [d1; d2])).1, d2, [d1; d2])
        | None => ((evaluation_dict e (mkSession d1 d1 [d1])).1, d1, [d1])
        end
    end.
Proof.
  unfold serve, create_evaluation, bind at 1, query at 1. simpl.
  destruct (head _) as [?|]; [done|].
  unfold bind at 1. simpl. unfold bind at 1. simpl. unfold bind at 1. simpl.
  destruct (head _) as [annotation|]; simpl.
  - unfold bind at 1. simpl.
    match goal with |- context [evaluation_dict ?e ?s] =>
      pose proof (read_only_evaluation_dict e s) as Hro;
      destruct (evaluation_dict e s) as [r s'] end.
    simpl in *. by subst.
  - unfold bind at 1. simpl.
    match goal with |- context [evaluation_dict ?e ?s] =>
      pose proof (read_only_evaluation_dict e s) as Hro;
      destruct (evaluation_dict e s) as [r s'] end.
    simpl in *. by subst.
Qed.

(** ** What the loops leave alone *)

Lemma insert_text_highlights_frame annotation_id hs d :
  let d' := foldl (insert_text_highlight annotation_id) d hs in
  users d' = users d ∧ user_languages d' = user_languages d
  ∧ sentences d' = sentences d ∧ annotations d' = annotations d
  ∧ evaluations d' = evaluations d.
Proof.
  revert d. induction hs as [|h hs IH]; intros d; simpl; [done|].
  destruct (IH (insert_text_highlight annotation_id d h)) as (?&?&?&?&?).
  simpl in *. by repeat split.
Qed.

Lemma insert_user_languages_frame user_id languages d :
  let d' := foldl (insert_user_language user_id) d languages in
  users d' = users d ∧ sentences d' = sentences d
  ∧ annotations d' = annotations d
  ∧ text_highlights d' = text_highlights d
  ∧ evaluations d' = evaluations d.
Proof.
  revert d. induction languages as [|l ls IH]; intros d; simpl; [done|].
  destruct (IH (insert_user_language user_id d l)) as (?&?&?&?&?).
  simpl in *. by repeat split.
Qed.

Lemma insert_sentences_frame sentences_data d :
  let d' := foldl insert_sentence d sentences_data in
  users d' = users d ∧ user_languages d' = user_languages d
  ∧ annotations d' = annotations d
  ∧ text_highlights d' = text_highlights d
  ∧ evaluations d' = evaluations d.
Proof.
  revert d. induction sentences_data as [|x xs IH]; intros d; simpl; [done|].
  destruct (IH (insert_sentence d x)) as (?&?&?&?&?).
  simpl in *. by repeat split.
Qed.

Lemma register_run user_data d :
  serve (register user_data) d
  = match head (filter
            (λ u, User.email u = UserCreate.email user_data
                  ∨ User.username u = UserCreate.username user_data)
            (users d)) with
    | Some _ =>
        (inl (HTTP 400 "Email or username already registered"), d, [])
    | None =>
        let u := new_user user_data (next_id (User.id <$> users d)) in
        let d1 := with_users (λ t, t ++ [u]) d in
        let languages_of d' :=
          UserLanguage.language <$>
            filter (λ l, UserLanguage.user_id l = User.id u) (user_languages d') in
        if truthy_list (UserCreate.languages user_data)
           && bool_decide (0 < length (items (UserCreate.languages user_data)))%nat
        then
          let d2 := foldl (insert_user_language (User.id u)) d1
                      (items (UserCreate.languages user_data)) in
          (inr (UserResponse.mk u (languages_of d2)), d2, [d1; d2])
        else if truthy_str (UserCreate.preferred_language user_data) then
          let d2 := insert_user_language (User.id u) d1
                      (default ""%string (UserCreate.preferred_language user_data)) in
          (inr (UserResponse.mk u (languages_of d2)), d2, [d1; d2])
        else (inr (UserResponse.mk u (languages_of d1)), d1, [d1])
    end.
Proof.
  unfold serve, register, bind at 1, query at 1. simpl.
  destruct (head _); [done|].
  unfold bind at 1. simpl. unfold bind at 1. simpl. unfold bind at 1.
  destruct (truthy_list _ && _).
  - unfold bind at 1. by rewrite add_user_languages_run.
  - by destruct (truthy_str _).
Qed.

Lemma serve_discard {A} (h : Handler A) d :
  db_after (h;; ret tt) d = db_after h d
  ∧ commits (h;; ret tt) d = commits h d.
Proof.
  unfold db_after, commits, serve.
  pose proof (bind_read_only_tail h (λ _, ret tt) (mkSession d d [])
                (λ _, read_only_ret tt)) as Htail.
  destruct (bind h _ _) as [r s], (h _) as [r' s']. simpl in *. by subst.
Qed.

(** Every request is the unguarded registration or a guarded body. *)
Lemma handle_cases (Φ : Database → list Database → Prop) (r : request) d :
  Φ d [] →
  (∀ user_data, Φ (db_after (register user_data) d)
                  (commits (register user_data) d)) →
  (∀ u, Φ (db_after (mark_guidelines_seen u) d)
          (commits (mark_guidelines_seen u) d)) →
  (∀ u x, Φ (db_after (create_sentence x u) d)
            (commits (create_sentence x u) d)) →
  (∀ u x, Φ (db_after (bulk_create_sentences x u) d)
            (commits (bulk_create_sentences x u) d)) →
  (∀ u x, Φ (db_after (create_annotation x u) d)
            (commits (create_annotation x u) d)) →
  (∀ u x, Φ (db_after (create_legacy_annotation x u) d)
            (commits (create_legacy_annotation x u) d)) →
  (∀ u i x, Φ (db_after (update_annotation i x u) d)
              (commits (update_annotation i x u) d)) →
  (∀ u i, Φ (db_after (toggle_user_evaluator_role i u) d)
            (commits (toggle_user_evaluator_role i u) d)) →
  (∀ u x, Φ (db_after (create_evaluation x u) d)
            (commits (create_evaluation x u) d)) →
  (∀ u i x, Φ (db_after (update_evaluation i x u) d)
              (commits (update_evaluation i x u) d)) →
  (∀ u x, Φ (db_after (update_user_languages x u) d)
            (commits (update_user_languages x u) d)) →
  Φ (step r d) (commits (handle r) d).
Proof.
  intros Hbase Hreg Hmark Hsent Hbulk Hann Hleg Hupd Htog Hev Hupe Hlang.
  unfold step. destruct r; simpl handle;
    try (apply route_cases; [eauto with read_only|done|intros; eauto]).
  destruct (serve_discard (register user_data) d) as [-> ->]. apply Hreg.
Qed.

Lemma highlights_keep_users i hs d :
  users (foldl (insert_text_highlight i) d hs) = users d.
Proof. apply insert_text_highlights_frame. Qed.
Lemma highlights_keep_user_languages i hs d :
  user_languages (foldl (insert_text_highlight i) d hs) = user_languages d.
Proof. apply insert_text_highlights_frame. Qed.
Lemma highlights_keep_sentences i hs d :
  sentences (foldl (insert_text_highlight i) d hs) = sentences d.
Proof. apply insert_text_highlights_frame. Qed.
Lemma highlights_keep_annotations i hs d :
  annotations (foldl (insert_text_highlight i) d hs) = annotations d.
Proof. apply insert_text_highlights_frame. Qed.
Lemma highlights_keep_evaluations i hs d :
  evaluations (foldl (insert_text_highlight i) d hs) = evaluations d.
Proof. apply insert_text_highlights_frame. Qed.

Lemma languages_keep_users i ls d :
  users (foldl (insert_user_language i) d ls) = users d.
Proof. apply insert_user_languages_frame. Qed.
Lemma languages_keep_sentences i ls d :
  sentences (foldl (insert_user_language i) d ls) = sentences d.
Proof. apply insert_user_languages_frame. Qed.
Lemma languages_keep_annotations i ls d :
  annotations (foldl (insert_user_language i) d ls) = annotations d.
Proof. apply insert_user_languages_frame. Qed.
Lemma languages_keep_text_highlights i ls d :
  text_highlights (foldl (insert_user_language i) d ls) = text_highlights d.
Proof. apply insert_user_languages_frame. Qed.
Lemma languages_keep_evaluations i ls d :
  evaluations (foldl (insert_user_language i) d ls) = evaluations d.
Proof. apply insert_user_languages_frame. Qed.

Lemma sentences_keep_users xs d :
  users (foldl insert_sentence d xs) = users d.
Proof. apply insert_sentences_frame. Qed.
Lemma sentences_keep_user_languages xs d :
  user_languages (foldl insert_sentence d xs) = user_languages d.
Proof. apply insert_sentences_frame. Qed.
Lemma sentences_keep_annotations xs d :
  annotations (foldl insert_sentence d xs) = annotations d.
Proof. apply insert_sentences_frame. Qed.
Lemma sentences_keep_text_highlights xs d :
  text_highlights (foldl insert_sentence d xs) = text_highlights d.
Proof. apply insert_sentences_frame. Qed.
Lemma sentences_keep_evaluations xs d :
  evaluations (foldl insert_sentence d xs) = evaluations d.
Proof. apply insert_sentences_frame. Qed.

Create Rewrite HintDb frame.
#[global] Hint Rewrite
  highlights_keep_users highlights_keep_user_languages
  highlights_keep_sentences highlights_keep_annotations
  highlights_keep_evaluations
  languages_keep_users languages_keep_sentences languages_keep_annotations
  languages_keep_text_highlights languages_keep_evaluations
  sentences_keep_users sentences_keep_user_languages
  sentences_keep_annotations sentences_keep_text_highlights
  sentences_keep_evaluations : frame.

(** Replace a served handler by its closed form and split on the scans
    that decide its branches. *)
Ltac run_handler :=
  unfold db_after, commits, response;
  first
    [ rewrite register_run
    | rewrite mark_guidelines_seen_run
    | rewrite create_sentence_run
    | match goal with
      | |- context [serve (bulk_create_sentences ?x ?u) ?d] =>
          let rows := fresh "rows" in
          destruct (bulk_create_sentences_run x u d) as [rows ->]
      end
    | rewrite create_annotation_run
    | rewrite create_legacy_annotation_run
    | rewrite update_annotation_run
    | rewrite toggle_user_evaluator_role_run
    | rewrite create_evaluation_run
    | rewrite update_evaluation_run
    | rewrite update_user_languages_run ];
  cbv zeta.

Ltac split_branches :=
  repeat match goal with
    | |- context [match head ?l with _ => _ end] =>
        let Hhd := fresh "Hhd" in destruct (head l) eqn:Hhd
    | |- context [if ?b then _ else _] => destruct b eqn:?
    | |- context [match ?o with Some _ => _ | None => _ end] =>
        destruct o eqn:?
    | |- context [match ?l with [] => _ | _ :: _ => _ end] =>
        destruct l eqn:?
    end.

(** ** One annotation per sentence and annotator *)

Lemma annotation_pair_update u a :
  annotation_pair (apply_annotation_update u a) = annotation_pair a.
Proof. done. Qed.

Lemma annotation_pair_status v a :
  annotation_pair (Annotation.set_annotation_status v a) = annotation_pair a.
Proof. done. Qed.

Lemma annotation_pairs_fmap_if (P : Annotation.t → Prop)
    `{!∀ a, Decision (P a)} (f : Annotation.t → Annotation.t)
    (rows : list Annotation.t) :
  (∀ a, annotation_pair (f a) = annotation_pair a) →
  annotation_pair <$> ((λ a, if decide (P a) then f a else a) <$> rows)
  = annotation_pair <$> rows.
Proof.
  intros Hf. rewrite <-list_fmap_compose. apply list_fmap_ext.
  intros i a _. simpl. by destruct (decide _).
Qed.

Lemma annotation_pair_fresh sentence_id annotator_id
    (rows : list Annotation.t) :
  head (filter (λ a, Annotation.sentence_id a = sentence_id
                     ∧ Annotation.annotator_id a = annotator_id) rows) = None →
  (sentence_id, annotator_id) ∉ annotation_pair <$> rows.
Proof.
  intros Hhd Hin. apply list_elem_of_fmap in Hin as (a & Heq & Ha).
  eapply (proj1 (first_row_None _ _) Hhd); [done|].
  unfold annotation_pair in Heq. by injection Heq as -> ->.
Qed.

Lemma one_annotation_per_pair_append a (rows : list Annotation.t) :
  NoDup (annotation_pair <$> rows) →
  annotation_pair a ∉ annotation_pair <$> rows →
  NoDup (annotation_pair <$> (rows ++ [a])).
Proof.
  intros Hnd Hfresh. rewrite fmap_app. apply NoDup_app.
  split; [done|]. split; [|apply NoDup_singleton].
  intros p Hp Hp'. apply list_elem_of_singleton in Hp'. by subst.
Qed.

Lemma step_one_annotation_per_pair r d :
  one_annotation_per_pair d → one_annotation_per_pair (step r d).
Proof.
  intros Hd.
  apply (handle_cases (λ d' _, one_annotation_per_pair d')); [done|..];
    intros; run_handler; split_branches; unfold one_annotation_per_pair in *;
    simpl; autorewrite with frame; simpl; try done.
  - by apply one_annotation_per_pair_append, annotation_pair_fresh.
  - by apply one_annotation_per_pair_append, annotation_pair_fresh.
  - by apply one_annotation_per_pair_append, annotation_pair_fresh.
  - by rewrite annotation_pairs_fmap_if.
  - by rewrite annotation_pairs_fmap_if.
  - by rewrite annotation_pairs_fmap_if.
Qed.

Lemma reachable_run d0 history : reachable d0 (Demo.run d0 history).
Proof.
  unfold Demo.run. rewrite <-(reverse_involutive history).
  generalize (reverse history) as l. induction l as [|r l IH]; simpl.
  - apply reachable_refl.
  - rewrite reverse_cons, foldl_app. simpl. by apply reachable_step.
Qed.

Lemma reachable_run_from d0 d history :
  reachable d0 d → reachable d0 (Demo.run d history).
Proof.
  intros Hd. unfold Demo.run. rewrite <-(reverse_involutive history).
  generalize (reverse history) as l. induction l as [|r l IH]; simpl.
  - exact Hd.
  - rewrite reverse_cons, foldl_app. simpl. by apply reachable_step.
Qed.

Lemma reachable_one_annotation_per_pair d0 d :
  one_annotation_per_pair d0 → reachable d0 d → one_annotation_per_pair d.
Proof.
  intros Hd0 Hreach. induction Hreach as [|d r _ IH]; [done|].
  by apply step_one_annotation_per_pair.
Qed.

Lemma existing_annotation_found sentence_id annotator_id
    (rows : list Annotation.t) :
  (∃ a, a ∈ rows ∧ Annotation.sentence_id a = sentence_id
        ∧ Annotation.annotator_id a = annotator_id) →
  is_Some (head (filter (λ a, Annotation.sentence_id a = sentence_id
                              ∧ Annotation.annotator_id a = annotator_id) rows)).
Proof.
  intros (a & Ha & Hs & Hu).
  destruct (head _) as [a'|] eqn:Hhd; [by eexists|].
  exfalso. by eapply (proj1 (first_row_None _ _) Hhd).
Qed.

(** C2.  In every database the API reaches from one that holds at most one
    annotation per (sentence_id, annotator_id) pair, that still holds; and
    when the caller already has an annotation for a sentence, both
    POST /api/annotations and its legacy variant answer 400 for that
    sentence, commit nothing and leave the database as it was. *)
Theorem one_annotation_per_sentence_and_user (d0 d : Database) :
  one_annotation_per_pair d0 →
  reachable d0 d →
  one_annotation_per_pair d
  ∧ ∀ current_user sentence_id,
      (∃ a, a ∈ annotations d
            ∧ Annotation.sentence_id a = sentence_id
            ∧ Annotation.annotator_id a = User.id current_user) →
      (∀ annotation_data,
         AnnotationCreate.sentence_id annotation_data = sentence_id →
         ∃ detail,
           serve (create_annotation annotation_data current_user) d
           = (inl (HTTP 400 detail), d, []))
      ∧ (∀ annotation_data,
           LegacyAnnotationCreate.sentence_id annotation_data = sentence_id →
           ∃ detail,
             serve (create_legacy_annotation annotation_data current_user) d
             = (inl (HTTP 400 detail), d, [])).
Proof.
  intros Hd0 Hreach. split.
  { by eapply reachable_one_annotation_per_pair. }
  intros current_user sentence_id Hex. split.
  - intros annotation_data <-.
    apply existing_annotation_found in Hex as [a Hhd].
    rewrite create_annotation_run, Hhd. by eexists.
  - intros annotation_data <-.
    apply existing_annotation_found in Hex as [a Hhd].
    rewrite create_legacy_annotation_run, Hhd. by eexists.
Qed.

Lemma one_annotation_per_sentence_and_user_witness :
  one_annotation_per_pair Demo.seeded
  ∧ reachable Demo.seeded Demo.annotated
  ∧ (∃ a, a ∈ annotations Demo.annotated
          ∧ Annotation.sentence_id a = 1
          ∧ Annotation.annotator_id a = User.id Demo.alice)
  ∧ one_annotation_per_pair Demo.annotated
  ∧ ∃ detail,
      serve (create_annotation Demo.cat_annotation Demo.alice) Demo.annotated
      = (inl (HTTP 400 detail), Demo.annotated, []).
Proof.
  assert (one_annotation_per_pair Demo.seeded) as Hseed by apply NoDup_nil_2.
  assert (reachable Demo.seeded Demo.annotated) as Hreach.
  { unfold Demo.annotated, Demo.staffed.
    apply reachable_run_from, reachable_run. }
  assert (∃ a, a ∈ annotations Demo.annotated
               ∧ Annotation.sentence_id a = 1
               ∧ Annotation.annotator_id a = User.id Demo.alice) as Hex.
  { eexists. split; [|split]; [vm_compute; apply list_elem_of_here|done|done]. }
  destruct (one_annotation_per_sentence_and_user
              Demo.seeded Demo.annotated Hseed Hreach) as [Hone Hdup].
  repeat (split; [done|]).
  by apply (Hdup Demo.alice 1 Hex).
Defined.

Lemma next_sentence_first_unannotated_witness :
  primary_key_order (Sentence.id <$> sentences Demo.annotated)
  ∧ ∃ next_sentence,
      response (get_next_sentence Demo.alice) Demo.annotated = inr next_sentence
      ∧ db_after (get_next_sentence Demo.alice) Demo.annotated = Demo.annotated
      ∧ match next_sentence with
        | Some s =>
            s ∈ sentences Demo.annotated
            ∧ servable Demo.alice Demo.annotated s
            ∧ ∀ s', s' ∈ sentences Demo.annotated →
                    servable Demo.alice Demo.annotated s' →
                    Sentence.id s ≤ Sentence.id s'
        | None => ∀ s', s' ∈ sentences Demo.annotated →
                        ¬ servable Demo.alice Demo.annotated s'
        end.
Proof.
  assert (primary_key_order (Sentence.id <$> sentences Demo.annotated)) as Hpk.
  { vm_compute. repeat (constructor; [|repeat constructor; lia]). constructor. }
  split; [exact Hpk|].
  exact (next_sentence_first_unannotated Demo.alice Demo.annotated Hpk).
Defined.

(** ** Evaluating an annotation *)

Lemma scan_by_key_finds {A} (key : A → Z) (rows : list A) (x : A) :
  primary_key_order (key <$> rows) →
  x ∈ rows →
  head (filter (λ y, key y = key x) rows) = Some x.
Proof.
  intros Hpk Hx.
  destruct (head (filter (λ y, key y = key x) rows)) as [y|] eqn:Hhd.
  - destruct (first_row_Some _ _ _ Hhd) as [Hy Hk].
    f_equal. by apply (primary_key_unique key rows).
  - exfalso. by eapply (proj1 (first_row_None _ _) Hhd).
Qed.

Lemma update_by_key_is_update_row {A} `{!EqDecision A} (key : A → Z)
    (f : A → A) (rows : list A) (x : A) :
  primary_key_order (key <$> rows) →
  x ∈ rows →
  (λ y, if decide (key y = key x) then f y else y) <$> rows
  = (λ y, if decide (y = x) then f y else y) <$> rows.
Proof.
  intros Hpk Hx. apply list_fmap_ext. intros i y Hy.
  apply list_elem_of_lookup_2 in Hy.
  destruct (decide (key y = key x)) as [Hk|Hk], (decide (y = x)) as [He|He];
    try done.
  - destruct He. by apply (primary_key_unique key rows).
  - by subst.
Qed.

(** C3.  POST /api/evaluations that succeeds for a stored annotation whose
    status is "completed" (the annotation ids being a primary key) leaves
    that annotation stored with status "reviewed", every other annotation as
    it was, and no annotation with that id in another status. *)
Theorem evaluation_marks_annotation_reviewed (d : Database)
    (current_user : User.t) (evaluation_data : EvaluationCreate.t)
    (a : Annotation.t) (resp : EvaluationResponse.t) :
  primary_key_order (Annotation.id <$> annotations d) →
  a ∈ annotations d →
  Annotation.id a = EvaluationCreate.annotation_id evaluation_data →
  Annotation.annotation_status a = Some "completed"%string →
  response (create_evaluation evaluation_data current_user) d = inr resp →
  let d' := db_after (create_evaluation evaluation_data current_user) d in
  annotations d'
  = (λ x, if decide (x = a)
          then Annotation.set_annotation_status (Some "reviewed"%string) x
          else x) <$> annotations d
  ∧ Annotation.set_annotation_status (Some "reviewed"%string) a ∈ annotations d'
  ∧ ∀ a', a' ∈ annotations d' → Annotation.id a' = Annotation.id a →
          Annotation.annotation_status a' = Some "reviewed"%string.
Proof.
  intros Hpk Ha Hid Hstatus Hresp d'.
  assert (annotations d'
          = (λ x, if decide (x = a)
                  then Annotation.set_annotation_status (Some "reviewed"%string) x
                  else x) <$> annotations d) as Hrows.
  { subst d'. revert Hresp. run_handler.
    destruct (head (filter _ (evaluations d))); [done|].
    rewrite <-Hid, (scan_by_key_finds Annotation.id _ a Hpk Ha). simpl.
    intros _. by apply update_by_key_is_update_row. }
  split; [exact Hrows|]. rewrite Hrows. split.
  - apply list_elem_of_fmap. exists a. by rewrite decide_True.
  - intros a' Ha' Hida'. apply list_elem_of_fmap in Ha' as (x & -> & Hx).
    destruct (decide (x = a)) as [->|Hne]; [done|].
    exfalso. apply Hne. by apply (primary_key_unique Annotation.id (annotations d)).
Qed.

Lemma evaluation_marks_annotation_reviewed_witness :
  let a := new_annotation Demo.cat_annotation Demo.alice 1 in
  let d' := db_after (create_evaluation Demo.cat_evaluation Demo.eve)
              Demo.annotated in
  primary_key_order (Annotation.id <$> annotations Demo.annotated)
  ∧ a ∈ annotations Demo.annotated
  ∧ Annotation.annotation_status a = Some "completed"%string
  ∧ is_Some (match response (create_evaluation Demo.cat_evaluation Demo.eve)
                     Demo.annotated with
             | inr resp => Some resp
             | inl _ => None
             end)
  ∧ Annotation.set_annotation_status (Some "reviewed"%string) a ∈ annotations d'.
Proof.
  intros a d'.
  assert (primary_key_order (Annotation.id <$> annotations Demo.annotated))
    as Hpk.
  { vm_compute. repeat (constructor; [|repeat constructor; lia]). constructor. }
  assert (a ∈ annotations Demo.annotated) as Ha.
  { vm_compute. apply list_elem_of_here. }
  destruct (response (create_evaluation Demo.cat_evaluation Demo.eve)
              Demo.annotated) as [e|resp] eqn:Hresp.
  { exfalso. vm_compute in Hresp. discriminate Hresp. }
  repeat (split; [done|]).
  exact (proj1 (proj2 (evaluation_marks_annotation_reviewed
    Demo.annotated Demo.eve Demo.cat_evaluation a resp
    Hpk Ha eq_refl eq_refl Hresp))).
Defined.

(** ** De-duplicated highlights *)

Lemma unique_highlights_loop_spec hs seen acc :
  (∀ k, k ∈ seen ↔ k ∈ highlight_key <$> acc) →
  NoDup (highlight_key <$> acc) →
  NoDup (highlight_key <$> unique_highlights_loop hs seen acc)
  ∧ ∀ k, k ∈ highlight_key <$> unique_highlights_loop hs seen acc
         ↔ k ∈ highlight_key <$> acc ∨ k ∈ highlight_key <$> hs.
Proof.
  revert seen acc. induction hs as [|h hs IH]; intros seen acc Hseen Hnd; simpl.
  { split; [done|]. intros k. rewrite elem_of_nil. tauto. }
  destruct (decide (highlight_key h ∉ seen)) as [Hnew|Hold].
  - destruct (IH ({[highlight_key h]} ∪ seen) (acc ++ [h])) as [Hnd' Hkeys].
    + intros k. rewrite fmap_app, elem_of_app, elem_of_union, Hseen. simpl.
      rewrite elem_of_singleton, elem_of_cons, elem_of_nil. tauto.
    + rewrite fmap_app. apply NoDup_app. split; [done|].
      split; [|apply NoDup_singleton].
      intros k Hk Hk'. apply list_elem_of_singleton in Hk'. subst k.
      by apply Hnew, Hseen.
    + split; [done|]. intros k. rewrite Hkeys, fmap_app, elem_of_app. simpl.
      rewrite !elem_of_cons, elem_of_nil. tauto.
  - apply dec_stable in Hold.
    destruct (IH seen acc Hseen Hnd) as [Hnd' Hkeys].
    split; [done|]. intros k. rewrite Hkeys, elem_of_cons.
    split; [tauto|]. intros [?|[->|?]]; [tauto| |tauto].
    left. by apply Hseen.
Qed.

Lemma unique_highlights_spec hs :
  NoDup (highlight_key <$> unique_highlights hs)
  ∧ ∀ k, k ∈ highlight_key <$> unique_highlights hs ↔ k ∈ highlight_key <$> hs.
Proof.
  destruct (unique_highlights_loop_spec hs ∅ []) as [Hnd Hkeys].
  - intros k. simpl. rewrite elem_of_nil. set_solver.
  - apply NoDup_nil_2.
  - split; [done|]. intros k. unfold unique_highlights. rewrite Hkeys.
    simpl. rewrite elem_of_nil. tauto.
Qed.

Lemma insert_text_highlights_rows annotation_id hs d :
  ∃ added,
    text_highlights (foldl (insert_text_highlight annotation_id) d hs)
    = text_highlights d ++ added
    ∧ stored_highlight_key <$> added = highlight_key <$> hs
    ∧ Forall (λ h, TextHighlight.annotation_id h = annotation_id) added.
Proof.
  revert d. induction hs as [|h hs IH]; intros d; simpl.
  { exists []. by rewrite app_nil_r. }
  destruct (IH (insert_text_highlight annotation_id d h))
    as (added & Hrows & Hkeys & Hown).
  eexists (_ :: added). rewrite Hrows. simpl. rewrite <-app_assoc. simpl.
  split; [done|]. split.
  - f_equal. exact Hkeys.
  - by constructor.
Qed.

Lemma filter_all {A} (P : A → Prop) `{!∀ x, Decision (P x)} (l : list A) :
  Forall P l → filter P l = l.
Proof.
  induction 1 as [|x l Hx _ IH]; [done|].
  by rewrite filter_cons_True, IH.
Qed.

Lemma filter_none {A} (P : A → Prop) `{!∀ x, Decision (P x)} (l : list A) :
  Forall (λ x, ¬ P x) l → filter P l = [].
Proof.
  induction 1 as [|x l Hx _ IH]; [done|].
  by rewrite filter_cons_False.
Qed.

(** The highlights stored for [annotation_id] once the loop has run on a
    table that held none for it. *)
Lemma highlights_of_inserted annotation_id hs d :
  highlights_of annotation_id d = [] →
  stored_highlight_key <$>
    highlights_of annotation_id
      (foldl (insert_text_highlight annotation_id) d (unique_highlights hs))
  = highlight_key <$> unique_highlights hs.
Proof.
  intros Hnone. unfold highlights_of in *.
  destruct (insert_text_highlights_rows annotation_id (unique_highlights hs) d)
    as (added & -> & Hkeys & Hown).
  by rewrite filter_app, Hnone, (filter_all _ added Hown).
Qed.

Lemma next_id_above (ids : list Z) (i : Z) : i ∈ ids → i < next_id ids.
Proof.
  unfold next_id. induction ids as [|j ids IH]; intros Hi.
  { by apply not_elem_of_nil in Hi. }
  simpl. apply elem_of_cons in Hi as [->|Hi]; [lia|].
  specialize (IH Hi). lia.
Qed.

Lemma next_id_fresh (ids : list Z) : next_id ids ∉ ids.
Proof. intros Hin. apply next_id_above in Hin. lia. Qed.

Lemma stored_after_loop annotation_id hs d :
  highlights_of annotation_id d = [] →
  let stored :=
    highlights_of annotation_id
      (foldl (insert_text_highlight annotation_id) d (unique_highlights hs)) in
  NoDup (stored_highlight_key <$> stored)
  ∧ ∀ k, k ∈ stored_highlight_key <$> stored ↔ k ∈ highlight_key <$> hs.
Proof.
  intros Hnone stored. subst stored.
  rewrite (highlights_of_inserted _ _ _ Hnone). apply unique_highlights_spec.
Qed.

Lemma no_highlights_for_next_annotation d :
  highlights_refer_to_annotations d →
  filter (λ h, TextHighlight.annotation_id h
               = next_id (Annotation.id <$> annotations d))
         (text_highlights d) = [].
Proof.
  intros Href. apply filter_none, Forall_forall. intros h Hh Heq.
  apply Href in Hh. rewrite Heq in Hh. by apply next_id_fresh in Hh.
Qed.

Lemma no_highlights_after_delete annotation_id (rows : list TextHighlight.t) :
  filter (λ h, TextHighlight.annotation_id h = annotation_id)
    (filter (λ h, TextHighlight.annotation_id h ≠ annotation_id) rows) = [].
Proof.
  apply filter_none, Forall_forall. intros h Hh.
  by apply list_elem_of_filter in Hh as [? _].
Qed.

(** C4.  On a database whose highlights all belong to stored annotations:
    after a successful POST /api/annotations, and after a successful
    PUT /api/annotations/{id} that submits a highlight list, the highlights
    stored for that annotation (which the response returns) carry pairwise
    distinct (start_index, end_index, text_type, comment) tuples, and these
    are exactly the tuples occurring in the submitted list. *)
Theorem stored_highlights_one_per_tuple (d : Database) (current_user : User.t) :
  highlights_refer_to_annotations d →
  (∀ annotation_data resp,
     response (create_annotation annotation_data current_user) d = inr resp →
     let stored :=
       highlights_of (Annotation.id (AnnotationResponse.annotation resp))
         (db_after (create_annotation annotation_data current_user) d) in
     AnnotationResponse.highlights resp = stored
     ∧ NoDup (stored_highlight_key <$> stored)
     ∧ ∀ k, k ∈ stored_highlight_key <$> stored
            ↔ k ∈ highlight_key <$>
                    items (AnnotationCreate.highlights annotation_data))
  ∧ (∀ annotation_id annotation_data submitted resp,
       AnnotationUpdate.highlights annotation_data = Some submitted →
       response (update_annotation annotation_id annotation_data current_user) d
       = inr resp →
       let stored :=
         highlights_of annotation_id
           (db_after (update_annotation annotation_id annotation_data
                        current_user) d) in
       Annotation.id (AnnotationResponse.annotation resp) = annotation_id
       ∧ AnnotationResponse.highlights resp = stored
       ∧ NoDup (stored_highlight_key <$> stored)
       ∧ ∀ k, k ∈ stored_highlight_key <$> stored
              ↔ k ∈ highlight_key <$> submitted).
Proof.
  intros Href. split.
  - intros annotation_data resp. run_handler.
    destruct (head _) as [?|]; [done|]. cbn [fst snd].
    intros (-> & -> & _)%annotation_dict_inr. simpl.
    pose proof (no_highlights_for_next_annotation d Href) as Hnone.
    destruct (truthy_list (AnnotationCreate.highlights annotation_data)) eqn:Ht.
    + split; [done|].
      by apply (stored_after_loop
                  (next_id (Annotation.id <$> annotations d))).
    + unfold highlights_of. simpl. rewrite Hnone.
      split; [done|]. split; [apply NoDup_nil_2|].
      destruct (AnnotationCreate.highlights annotation_data) as [[|??]|];
        try done.
  - intros annotation_id annotation_data submitted resp Hsub. run_handler.
    destruct (head _) as [annotation|] eqn:Hhd; [|done]. cbn [fst snd].
    apply first_row_Some in Hhd as [_ [Hid _]].
    intros (-> & -> & _)%annotation_dict_inr. rewrite Hsub. simpl. rewrite Hid.
    split; [done|]. split; [done|].
    apply (stored_after_loop annotation_id). unfold highlights_of. simpl.
    apply no_highlights_after_delete.
Qed.

Lemma stored_highlights_one_per_tuple_witness :
  highlights_refer_to_annotations Demo.staffed
  ∧ ∃ resp,
      response (create_annotation Demo.cat_annotation Demo.alice) Demo.staffed
      = inr resp
      ∧ stored_highlight_key <$> AnnotationResponse.highlights resp
        = [highlight_key Demo.chat; highlight_key Demo.tapis]
      ∧ NoDup (stored_highlight_key <$> AnnotationResponse.highlights resp).
Proof.
  assert (highlights_refer_to_annotations Demo.staffed) as Href.
  { intros h Hh. vm_compute in Hh. by apply not_elem_of_nil in Hh. }
  split; [exact Href|].
  destruct (response (create_annotation Demo.cat_annotation Demo.alice)
              Demo.staffed) as [e|resp] eqn:Hresp.
  { exfalso. vm_compute in Hresp. discriminate Hresp. }
  exists resp. split; [done|].
  destruct (proj1 (stored_highlights_one_per_tuple Demo.staffed Demo.alice Href)
              Demo.cat_annotation resp Hresp) as (Hstored & Hnd & _).
  split.
  - vm_compute in Hresp. injection Hresp as <-. reflexivity.
  - rewrite Hstored. exact Hnd.
Defined.

(** ** Commits per request *)

(** C5, as stated, fails: serving the registration of Alice (who lists two
    languages) commits twice; the first snapshot already shows her user row
    and none of her language rows, which only the second one adds. *)
Lemma register_commits_partial_state :
  ¬ single_transaction (handle (Register Demo.alice_data)) Demo.seeded
  ∧ ∃ d1 d2,
      commits (handle (Register Demo.alice_data)) Demo.seeded = [d1; d2]
      ∧ Demo.alice ∈ users d1
      ∧ user_languages d1 = []
      ∧ length (user_languages d2) = 2%nat.
Proof.
  split.
  - intros [[Hlog _]|Hlog]; vm_compute in Hlog; discriminate Hlog.
  - eexists _, _. split; [vm_compute; reflexivity|].
    split; [vm_compute; apply list_elem_of_further, list_elem_of_here|].
    split; reflexivity.
Qed.

(** A guarded route in closed form. *)
Lemma route_run {A} (guard : token → Handler User.t) tok
    (body : User.t → Handler A) d :
  read_only (guard tok) →
  (db_after (route guard tok body) d, commits (route guard tok body) d)
  = match response (guard tok) d with
    | inl _ => (d, [])
    | inr u => (db_after (body u) d, commits (body u) d)
    end.
Proof.
  intros Hg. unfold response, db_after, commits, serve, route.
  rewrite bind_read_only_head by done.
  destruct (guard tok _) as [[e|u] s0]; [done|]. simpl.
  unfold bind. by destruct (body u _) as [[e|a] s'].
Qed.

Lemma registered_languages_run (user_data : UserCreate.t) :
  registered_languages user_data
  = if truthy_list (UserCreate.languages user_data)
       && bool_decide (0 < length (items (UserCreate.languages user_data)))%nat
    then items (UserCreate.languages user_data)
    else if truthy_str (UserCreate.preferred_language user_data)
         then [default ""%string (UserCreate.preferred_language user_data)]
         else [].
Proof.
  unfold registered_languages.
  by destruct (UserCreate.languages user_data) as [[|??]|].
Qed.

(** C5, amended.  Every writing request is served as a single transaction
    (it commits nothing and leaves the stored database unchanged, or it
    commits exactly once, the snapshot that is stored afterwards), except in
    exactly two cases, which commit twice.  A registration that is accepted
    and has language rows to store commits the database with the new user
    row alone, then the one with the language rows added.  An evaluation by
    an evaluator who has none yet for the annotation, when the annotation is
    stored, commits the database with the new evaluation row alone, then the
    one where the annotation's status is "reviewed". *)
Theorem single_transaction_unless_second_commit (r : request) (d : Database) :
  (¬ second_commit r d → single_transaction (handle r) d)
  ∧ (second_commit r d →
     ∃ d1, commits (handle r) d = [d1; step r d]
           ∧ two_commits r d d1 (step r d)).
Proof.
  unfold single_transaction, step.
  destruct r as [user_data| | | | | | | |tok evaluation_data| |];
    try (split; [intros _|intros []]; simpl handle;
         apply (route_cases (λ d' log, (log = [] ∧ d' = d) ∨ log = [d']));
         try (eauto with read_only); try (by left);
         intros u _; run_handler; split_branches; simpl; by auto).
  - (* registration *)
    simpl handle. destruct (serve_discard (register user_data) d) as [-> ->].
    unfold second_commit, two_commits. rewrite registered_languages_run.
    run_handler.
    destruct (head _) as [u|] eqn:Hhd.
    { split; [by left|]. intros [Hfree _].
      apply first_row_Some in Hhd as [Hu Hsame].
      destruct (Hfree u Hu) as [??]. by destruct Hsame. }
    assert (∀ u, u ∈ users d →
                 User.email u ≠ UserCreate.email user_data
                 ∧ User.username u ≠ UserCreate.username user_data) as Hfree.
    { intros u Hu. pose proof (proj1 (first_row_None _ _) Hhd u Hu) as Hno.
      split; intros ?; apply Hno; [by left|by right]. }
    destruct (truthy_list _ && _) eqn:Hlist; simpl.
    { split.
      - intros []. split; [done|]. left.
        by apply andb_true_iff in Hlist as [? _].
      - intros _. eexists. split; [done|]. split; [done|]. split; [done|].
        apply andb_true_iff in Hlist as [Hlist _].
        by destruct (UserCreate.languages user_data) as [[|??]|]. }
    destruct (truthy_str _) eqn:Hstr; simpl.
    { split.
      - intros []. split; [done|]. by right.
      - intros _. eexists. split; [done|]. by repeat split. }
    split; [by right|]. intros [_ [Hl|?]]; [|done].
    rewrite Hl in Hlist. simpl in Hlist.
    by destruct (UserCreate.languages user_data) as [[|??]|].
  - (* evaluation *)
    simpl handle. unfold second_commit, two_commits.
    pose proof (route_run get_current_evaluator_user tok
                  (create_evaluation evaluation_data) d
                  (read_only_get_current_evaluator_user tok)) as Hrun.
    destruct (response (get_current_evaluator_user tok) d) as [err|u] eqn:Hu.
    { injection Hrun as -> ->. split; [by left|]. by intros (? & ? & _). }
    injection Hrun as -> ->. run_handler.
    destruct (head _) as [e|] eqn:Hprior.
    { split; [by left|]. intros (u' & [= <-] & Hnone & _).
      apply first_row_Some in Hprior as [He Hsame]. by destruct (Hnone e He). }
    destruct (head (filter _ (annotations d))) as [a|] eqn:Ha; simpl.
    + apply first_row_Some in Ha as [Hin Hid]. split.
      * intros []. exists u. split; [done|]. split; [|by exists a].
        intros e He. exact (proj1 (first_row_None _ _) Hprior e He).
      * intros _. eexists. split; [done|]. exists u.
        split; [done|]. split; [done|]. by rewrite Hid.
    + split; [by right|]. intros (_ & _ & _ & a & Hin & Hid).
      exfalso. exact (proj1 (first_row_None _ _) Ha a Hin Hid).
Qed.

Lemma single_transaction_unless_second_commit_witness :
  second_commit (Register Demo.alice_data) Demo.seeded
  ∧ (∃ d1, commits (handle (Register Demo.alice_data)) Demo.seeded
           = [d1; step (Register Demo.alice_data) Demo.seeded]
           ∧ two_commits (Register Demo.alice_data) Demo.seeded d1
               (step (Register Demo.alice_data) Demo.seeded))
  ∧ ¬ second_commit (CreateAnnotation Demo.alice_token Demo.cat_annotation)
        Demo.staffed
  ∧ single_transaction
      (handle (CreateAnnotation Demo.alice_token Demo.cat_annotation))
      Demo.staffed.
Proof.
  assert (second_commit (Register Demo.alice_data) Demo.seeded) as Htwice.
  { split; [|by left]. intros u Hu.
    apply list_elem_of_singleton in Hu as ->. by split. }
  split; [exact Htwice|]. split.
  - exact (proj2 (single_transaction_unless_second_commit
                    (Register Demo.alice_data) Demo.seeded) Htwice).
  - split; [intros []|].
    exact (proj1 (single_transaction_unless_second_commit
                    (CreateAnnotation Demo.alice_token Demo.cat_annotation)
                    Demo.staffed) (λ H, H)).
Defined.

(** ** Rows that persist and rows that are replaced *)

Lemma fmap_update_preserves {A B} (key : A → B) (P : A → Prop)
    `{!∀ x, Decision (P x)} (f : A → A) (rows : list A) :
  (∀ x, key (f x) = key x) →
  key <$> ((λ x, if decide (P x) then f x else x) <$> rows) = key <$> rows.
Proof.
  intros Hf. rewrite <-list_fmap_compose. apply list_fmap_ext.
  intros i x _. simpl. by destruct (decide _).
Qed.

Lemma insert_sentences_rows sentences_data d :
  sentences d `prefix_of` sentences (foldl insert_sentence d sentences_data).
Proof.
  revert d. induction sentences_data as [|x xs IH]; intros d; simpl; [done|].
  etrans; [|apply IH]. simpl. by apply prefix_app_r.
Qed.

Lemma insert_user_languages_rows user_id languages d :
  user_languages d
  `prefix_of` user_languages (foldl (insert_user_language user_id) d languages).
Proof.
  revert d. induction languages as [|x xs IH]; intros d; simpl; [done|].
  etrans; [|apply IH]. simpl. by apply prefix_app_r.
Qed.

Lemma insert_text_highlights_prefix annotation_id hs d :
  text_highlights d
  `prefix_of` text_highlights (foldl (insert_text_highlight annotation_id) d hs).
Proof.
  destruct (insert_text_highlights_rows annotation_id hs d) as (added & -> & _).
  by apply prefix_app_r.
Qed.

Lemma prefix_fmap_snoc {A B} (key : A → B) (rows : list A) (x : A) :
  (key <$> rows) `prefix_of` (key <$> (rows ++ [x])).
Proof. rewrite fmap_app. by apply prefix_app_r. Qed.

(** User, sentence, annotation and evaluation keys persist through every
    request, in order; sentence rows are never rewritten. *)
Lemma step_keeps_keys r d :
  (User.id <$> users d) `prefix_of` (User.id <$> users (step r d))
  ∧ sentences d `prefix_of` sentences (step r d)
  ∧ (Annotation.id <$> annotations d)
      `prefix_of` (Annotation.id <$> annotations (step r d))
  ∧ (Evaluation.id <$> evaluations d)
      `prefix_of` (Evaluation.id <$> evaluations (step r d)).
Proof.
  apply (handle_cases (λ d' _,
    (User.id <$> users d) `prefix_of` (User.id <$> users d')
    ∧ sentences d `prefix_of` sentences d'
    ∧ (Annotation.id <$> annotations d)
        `prefix_of` (Annotation.id <$> annotations d')
    ∧ (Evaluation.id <$> evaluations d)
        `prefix_of` (Evaluation.id <$> evaluations d'))); [done|..];
    intros; run_handler; split_branches; simpl; autorewrite with frame; simpl;
    rewrite ?fmap_update_preserves by done;
    repeat split;
    try done; try apply prefix_fmap_snoc; try (by apply prefix_app_r);
    try apply insert_sentences_rows.
Qed.

Lemma step_user_languages r d l :
  l ∈ user_languages d →
  l ∈ user_languages (step r d)
  ∨ ∃ tok languages u,
      r = UpdateUserLanguages tok languages
      ∧ response (get_current_user tok) d = inr u
      ∧ User.id u = UserLanguage.user_id l.
Proof.
  intros Hl. unfold step.
  destruct r; simpl handle;
    try (left;
         apply (route_cases (λ d' _, l ∈ user_languages d'));
           [eauto with read_only|done|];
         intros u _; run_handler; split_branches; simpl;
         by autorewrite with frame).
  - left. destruct (serve_discard (register user_data) d) as [-> _].
    run_handler; split_branches; simpl; try done.
    + eapply elem_of_prefix; [exact Hl|].
      etrans; [|apply insert_user_languages_rows]. done.
    + apply elem_of_app. by left.
  - apply (route_cases (λ d' _,
      l ∈ user_languages d'
      ∨ ∃ tok' languages' u,
          UpdateUserLanguages tok languages = UpdateUserLanguages tok' languages'
          ∧ response (get_current_user tok') d = inr u
          ∧ User.id u = UserLanguage.user_id l));
      [eauto with read_only|by left|].
    intros u Hu.
    destruct (decide (UserLanguage.user_id l = User.id u)) as [Heq|Hne].
    { right. by exists tok, languages, u. }
    left. run_handler.
    assert (l ∈ user_languages
              (foldl (insert_user_language (User.id u))
                 (with_user_languages
                    (filter (λ l, UserLanguage.user_id l ≠ User.id u)) d)
                 languages)) as Hkept.
    { eapply elem_of_prefix; [|apply insert_user_languages_rows].
      simpl. by apply list_elem_of_filter. }
    by destruct languages.
Qed.

Lemma step_text_highlights r d h :
  h ∈ text_highlights d →
  h ∈ text_highlights (step r d)
  ∨ ∃ tok annotation_data submitted,
      r = UpdateAnnotation tok (TextHighlight.annotation_id h) annotation_data
      ∧ AnnotationUpdate.highlights annotation_data = Some submitted.
Proof.
  intros Hh. unfold step.
  destruct r; simpl handle;
    try (left;
         apply (route_cases (λ d' _, h ∈ text_highlights d'));
           [eauto with read_only|done|];
         intros u _; run_handler; split_branches; simpl;
         autorewrite with frame; try done;
         solve [eapply elem_of_prefix; [exact Hh|];
                etrans; [|apply insert_text_highlights_prefix]; done]).
  - left. destruct (serve_discard (register user_data) d) as [-> _].
    run_handler; split_branches; simpl; by autorewrite with frame.
  - destruct (AnnotationUpdate.highlights annotation_data) as [submitted|] eqn:Hs.
    + destruct (decide (TextHighlight.annotation_id h = annotation_id))
        as [Heq|Hne].
      { right. exists tok, annotation_data, submitted. by rewrite Heq. }
      left. apply (route_cases (λ d' _, h ∈ text_highlights d'));
        [eauto with read_only|done|].
      intros u _. run_handler. destruct (head _); [|done]. simpl. rewrite Hs.
      eapply elem_of_prefix; [|apply insert_text_highlights_prefix].
      simpl. by apply list_elem_of_filter.
    + left. apply (route_cases (λ d' _, h ∈ text_highlights d'));
        [eauto with read_only|done|].
      intros u _. run_handler. destruct (head _); [|done]. simpl.
      by rewrite Hs.
Qed.

(** C6, as stated, fails: when Alice posts an empty language list, both of
    her stored language rows are gone afterwards; and when she updates her
    annotation with an empty highlight list, its stored highlights are
    gone. *)
Lemma update_requests_delete_rows :
  (∃ l, l ∈ user_languages Demo.staffed
        ∧ l ∉ user_languages
                (step (UpdateUserLanguages Demo.alice_token []) Demo.staffed))
  ∧ (∃ h, h ∈ text_highlights Demo.annotated
          ∧ h ∉ text_highlights
                  (step (UpdateAnnotation Demo.alice_token 1
                           (AnnotationUpdate.mk None None None None None None
                              None None None (Some [])))
                        Demo.annotated)).
Proof.
  split.
  - exists (UserLanguage.mk 1 2 "fr"). split.
    + vm_compute. apply list_elem_of_here.
    + vm_compute. apply not_elem_of_nil.
  - exists (TextHighlight.mk 1 1 "chat" 3 7 "machine" "wrong noun"). split.
    + vm_compute. apply list_elem_of_here.
    + vm_compute. apply not_elem_of_nil.
Qed.

(** C6, amended.  No request removes a user, sentence, annotation or
    evaluation: their primary keys persist in order, and sentence rows are
    never rewritten.  A stored language row is gone after a request only if
    that request is POST /api/me/languages by the row's own user, and a
    stored highlight only if the request is PUT /api/annotations/{id} for
    the highlight's annotation with a highlight list in the payload. *)
Theorem rows_persist_unless_replaced (r : request) (d : Database) :
  (User.id <$> users d) `prefix_of` (User.id <$> users (step r d))
  ∧ sentences d `prefix_of` sentences (step r d)
  ∧ (Annotation.id <$> annotations d)
      `prefix_of` (Annotation.id <$> annotations (step r d))
  ∧ (Evaluation.id <$> evaluations d)
      `prefix_of` (Evaluation.id <$> evaluations (step r d))
  ∧ (∀ l, l ∈ user_languages d →
          l ∈ user_languages (step r d)
          ∨ ∃ tok languages u,
              r = UpdateUserLanguages tok languages
              ∧ response (get_current_user tok) d = inr u
              ∧ User.id u = UserLanguage.user_id l)
  ∧ (∀ h, h ∈ text_highlights d →
          h ∈ text_highlights (step r d)
          ∨ ∃ tok annotation_data submitted,
              r = UpdateAnnotation tok (TextHighlight.annotation_id h)
                    annotation_data
              ∧ AnnotationUpdate.highlights annotation_data = Some submitted).
Proof.
  destruct (step_keeps_keys r d) as (Hu & Hs & Ha & He).
  repeat (split; [done|]). split.
  - intros l. apply step_user_languages.
  - intros h. apply step_text_highlights.
Qed.

(** ** Pending evaluations *)

Lemma pending_query_spec current_user d :
  pending_query current_user d
  = filter (pending_for current_user d) (annotations d).
Proof.
  unfold pending_query. apply list_filter_iff. intros a. unfold pending_for.
  rewrite list_elem_of_fmap.
  split; intros [Hst Hno]; (split; [done|]).
  - intros (e & He & Hid & Hev). apply Hno. exists e.
    split; [done|]. by apply list_elem_of_filter.
  - intros (e & Hid & He). apply list_elem_of_filter in He as [Hev He].
    apply Hno. by exists e.
Qed.

Lemma annotation_dicts_run rows acc s :
  annotation_dicts rows acc s
  = (match mapM (λ a, match (annotation_dict a s).1 with
                      | inr entry => Some entry
                      | inl _ => None
                      end) rows with
     | Some entries => inr (acc ++ entries)
     | None => inl (HTTP 500 "Internal Server Error")
     end, s).
Proof.
  revert acc. induction rows as [|a rows IH]; intros acc.
  - simpl. unfold ret. by rewrite app_nil_r.
  - cbn [annotation_dicts]. unfold bind at 1.
    pose proof (annotation_dict_run a s) as Hrun.
    destruct (annotation_dict a s) as [[err|entry] s'] eqn:Hdict.
    + injection Hrun as Herr <-. csimpl. rewrite Hdict. csimpl.
      repeat case_match; by simplify_eq.
    + injection Hrun as _ <-. rewrite IH. csimpl. rewrite Hdict. csimpl.
      destruct (mapM _ rows); [|done]. csimpl. by rewrite <-app_assoc.
Qed.

Lemma get_pending_evaluations_run skip limit current_user d :
  serve (get_pending_evaluations skip limit current_user) d
  = (match mapM (λ a, match (annotation_dict a (mkSession d d [])).1 with
                      | inr entry => Some entry
                      | inl _ => None
                      end)
                (offset_limit skip limit (pending_query current_user d)) with
     | Some entries => inr entries
     | None => inl (HTTP 500 "Internal Server Error")
     end, d, []).
Proof.
  unfold serve, get_pending_evaluations, bind, query. simpl.
  rewrite annotation_dicts_run. by destruct (mapM _ _).
Qed.

(** The response dict of an annotation can be built exactly when its
    sentence and its annotator are stored. *)
Lemma annotation_dict_inr_iff a s :
  (∃ entry, (annotation_dict a s).1 = inr entry)
  ↔ has_sentence_and_annotator (txn s) a.
Proof.
  rewrite annotation_dict_run. cbn [fst]. unfold has_sentence_and_annotator.
  destruct (head (filter _ (sentences _))) as [x|] eqn:Hx.
  - destruct (head (filter _ (users _))) as [u|] eqn:Hu.
    + apply first_row_Some in Hx as [??], Hu as [??].
      split; [intros _|by eexists]. split; by eexists.
    + split; [by intros [??]|]. intros [_ (u & Hin & Hid)].
      exfalso. exact (proj1 (first_row_None _ _) Hu u Hin Hid).
  - split; [by intros [??]|]. intros [(x & Hin & Hid) _].
    exfalso. exact (proj1 (first_row_None _ _) Hx x Hin Hid).
Qed.

Lemma offset_limit_lookup {A} (skip limit : Z) (rows : list A) (i : nat) :
  0 ≤ skip → 0 ≤ limit →
  offset_limit skip limit rows !! i
  = if decide (Z.of_nat i < limit)
    then rows !! Z.to_nat (skip + Z.of_nat i)
    else None.
Proof.
  intros Hskip Hlimit. unfold offset_limit.
  destruct (decide (Z.of_nat i < limit)) as [Hlt|Hge].
  - rewrite lookup_take_lt by lia. rewrite lookup_drop. f_equal. lia.
  - apply lookup_take_ge. lia.
Qed.

(** C7.  GET /api/evaluations/pending with a non-negative offset and limit
    writes nothing.  It answers with a page exactly when every annotation
    the page is to list has its sentence and its annotator stored (the
    response cannot be built otherwise).  The [i]-th entry of the page is
    the [skip + i]-th, in table order, of the annotations with status
    "completed" that the caller has not evaluated, for [i] below [limit],
    and there is no further entry; each entry comes with the annotation's
    stored highlights, its sentence and its annotator, and none has an
    evaluation by the caller. *)
Theorem pending_evaluations_page (current_user : User.t) (d : Database)
    (skip limit : Z) :
  0 ≤ skip → 0 ≤ limit →
  db_after (get_pending_evaluations skip limit current_user) d = d
  ∧ commits (get_pending_evaluations skip limit current_user) d = []
  ∧ ((∃ page,
        response (get_pending_evaluations skip limit current_user) d = inr page)
     ↔ ∀ (i : nat) a,
         Z.of_nat i < limit →
         filter (pending_for current_user d) (annotations d)
           !! Z.to_nat (skip + Z.of_nat i) = Some a →
         has_sentence_and_annotator d a)
  ∧ ∀ page,
      response (get_pending_evaluations skip limit current_user) d = inr page →
      (∀ i : nat,
         AnnotationResponse.annotation <$> page !! i
         = if decide (Z.of_nat i < limit)
           then filter (pending_for current_user d) (annotations d)
                  !! Z.to_nat (skip + Z.of_nat i)
           else None)
      ∧ ∀ entry, entry ∈ page →
          let a := AnnotationResponse.annotation entry in
          a ∈ annotations d
          ∧ pending_for current_user d a
          ∧ AnnotationResponse.highlights entry
            = highlights_of (Annotation.id a) d
          ∧ AnnotationResponse.sentence entry ∈ sentences d
          ∧ Sentence.id (AnnotationResponse.sentence entry)
            = Annotation.sentence_id a
          ∧ UserResponse.user (AnnotationResponse.annotator entry) ∈ users d
          ∧ User.id (UserResponse.user (AnnotationResponse.annotator entry))
            = Annotation.annotator_id a.
Proof.
  intros Hskip Hlimit. unfold db_after, commits, response.
  rewrite get_pending_evaluations_run, pending_query_spec. cbn [fst snd].
  split; [done|]. split; [done|].
  set (rows := offset_limit skip limit
                 (filter (pending_for current_user d) (annotations d))).
  set (entry_of := λ a, match (annotation_dict a (mkSession d d [])).1 with
                        | inr entry => Some entry
                        | inl _ => None
                        end).
  assert (∀ a entry, entry_of a = Some entry →
                     (annotation_dict a (mkSession d d [])).1 = inr entry)
    as Hentry_of.
  { intros a entry. unfold entry_of.
    destruct (annotation_dict a _).1; [done|]. by intros [= ->]. }
  split.
  - transitivity (is_Some (mapM entry_of rows)).
    { destruct (mapM entry_of rows) as [entries|].
      - split; [by eexists|by eexists].
      - split; [by intros [??]|by intros [??]]. }
    rewrite mapM_is_Some, Forall_forall. split.
    + intros Hall i a Hi Hlookup.
      assert (a ∈ rows) as Hin.
      { apply list_elem_of_lookup. exists i. subst rows.
        rewrite offset_limit_lookup by done. by rewrite decide_True. }
      destruct (Hall a Hin) as [entry Hentry].
      apply (annotation_dict_inr_iff a (mkSession d d [])).
      exists entry. by apply Hentry_of.
    + intros Hall a Hin. apply list_elem_of_lookup in Hin as [i Hlookup].
      subst rows. rewrite offset_limit_lookup in Hlookup by done.
      destruct (decide (Z.of_nat i < limit)) as [Hi|]; [|done].
      destruct (proj2 (annotation_dict_inr_iff a (mkSession d d []))
                  (Hall i a Hi Hlookup)) as [entry Hentry].
      exists entry. unfold entry_of. by rewrite Hentry.
  - intros page Hpage.
    destruct (mapM entry_of rows) as [entries|] eqn:Hentries; [|done].
    injection Hpage as ->. apply mapM_Some in Hentries.
    assert (AnnotationResponse.annotation <$> page = rows) as Hrows.
    { clear -Hentries Hentry_of.
      induction Hentries as [|a entry rows page Hhd _ IH]; [done|].
      csimpl. rewrite IH. f_equal.
      by apply Hentry_of, annotation_dict_inr in Hhd as [-> _]. }
    split.
    + intros i. rewrite <-list_lookup_fmap, Hrows. subst rows.
      by apply offset_limit_lookup.
    + intros entry Hentry. cbv zeta.
      apply list_elem_of_lookup in Hentry as [i Hi].
      destruct (Forall2_lookup_r _ _ _ _ _ Hentries Hi) as (a & Ha & Hdict).
      apply Hentry_of, annotation_dict_inr in Hdict
        as (Hann & Hhl & Hsentence & Hannotator).
      rewrite Hann, Hhl.
      apply first_row_Some in Hsentence as [??], Hannotator as [??].
      assert (a ∈ rows) as Hin.
      { apply list_elem_of_lookup. by exists i. }
      subst rows. unfold offset_limit in Hin.
      assert (a ∈ filter (pending_for current_user d) (annotations d)) as Hin'.
      { eapply elem_of_sublist; [exact Hin|].
        etrans; [apply sublist_take|apply sublist_drop]. }
      apply list_elem_of_filter in Hin' as [Hp Hin'].
      simpl in *. split; [done|]. split; [done|]. by repeat split.
Qed.

Lemma pending_evaluations_page_witness :
  0 ≤ 0 ∧ 0 ≤ 50
  ∧ db_after (get_pending_evaluations 0 50 Demo.eve) Demo.annotated
    = Demo.annotated
  ∧ ∃ page,
      response (get_pending_evaluations 0 50 Demo.eve) Demo.annotated = inr page
      ∧ AnnotationResponse.annotation <$> page
        = [new_annotation Demo.cat_annotation Demo.alice 1]
      ∧ ∀ entry, entry ∈ page →
          pending_for Demo.eve Demo.annotated
            (AnnotationResponse.annotation entry).
Proof.
  split; [lia|]. split; [lia|].
  destruct (pending_evaluations_page Demo.eve Demo.annotated 0 50)
    as (Hdb & _ & _ & Hpage); [lia|lia|].
  split; [exact Hdb|].
  destruct (response (get_pending_evaluations 0 50 Demo.eve) Demo.annotated)
    as [err|page] eqn:Hresp.
  { exfalso. vm_compute in Hresp. discriminate Hresp. }
  exists page. split; [done|].
  destruct (Hpage page eq_refl) as [_ Hentries]. split.
  - vm_compute in Hresp. injection Hresp as <-. reflexivity.
  - intros entry Hentry. by destruct (Hentries entry Hentry) as (_ & ? & _).
Defined.

(** ** Registration *)

(** C8.  A registration that succeeds with no preferred_language in its
    payload stores a user whose preferred_language is the first submitted
    language when the languages list is non-empty, and "tagalog" when the
    list is empty or absent. *)
Theorem register_default_preferred_language (user_data : UserCreate.t)
    (d : Database) (resp : UserResponse.t) :
  UserCreate.preferred_language user_data = None →
  response (register user_data) d = inr resp →
  let u := UserResponse.user resp in
  u ∈ users (db_after (register user_data) d)
  ∧ User.email u = UserCreate.email user_data
  ∧ User.preferred_language u
    = match UserCreate.languages user_data with
      | Some (first_language :: _) => first_language
      | Some [] | None => "tagalog"%string
      end.
Proof.
  intros Hpl. run_handler. destruct (head _) as [?|]; [done|].
  unfold new_user. rewrite Hpl. simpl.
  destruct (UserCreate.languages user_data) as [[|l ls]|]; simpl;
    intros [= <-]; simpl; autorewrite with frame; simpl;
    (split; [|done]); apply elem_of_app; right; apply list_elem_of_here.
Qed.

Lemma register_default_preferred_language_witness :
  UserCreate.preferred_language Demo.alice_data = None
  ∧ UserCreate.preferred_language Demo.eve_data = None
  ∧ ∃ resp_alice resp_eve,
      response (register Demo.alice_data) Demo.seeded = inr resp_alice
      ∧ response (register Demo.eve_data) Demo.seeded = inr resp_eve
      ∧ User.preferred_language (UserResponse.user resp_alice) = "fr"%string
      ∧ User.preferred_language (UserResponse.user resp_eve) = "tagalog"%string.
Proof.
  split; [reflexivity|]. split; [reflexivity|].
  destruct (response (register Demo.alice_data) Demo.seeded)
    as [e|resp_alice] eqn:Halice.
  { exfalso. vm_compute in Halice. discriminate Halice. }
  destruct (response (register Demo.eve_data) Demo.seeded)
    as [e|resp_eve] eqn:Heve.
  { exfalso. vm_compute in Heve. discriminate Heve. }
  exists resp_alice, resp_eve. repeat (split; [done|]).
  split.
  - exact (proj2 (proj2 (register_default_preferred_language
             Demo.alice_data Demo.seeded resp_alice eq_refl Halice))).
  - exact (proj2 (proj2 (register_default_preferred_language
             Demo.eve_data Demo.seeded resp_eve eq_refl Heve))).
Defined.

(** ** Toggling the evaluator role *)


Lemma with_users_id d : with_users (λ t, t) d = d.
Proof. by destruct d. Qed.



(** ** Evaluator statistics *)




(** ** Unique e-mails and usernames *)

Lemma credentials_fresh email username (rows : list User.t) :
  head (filter (λ u, User.email u = email ∨ User.username u = username) rows)
  = None →
  (email ∉ User.email <$> rows) ∧ (username ∉ User.username <$> rows).
Proof.
  intros Hhd. pose proof (proj1 (first_row_None _ _) Hhd) as Hno.
  split; intros Hin; apply list_elem_of_fmap in Hin as (u & Heq & Hu);
    apply (Hno u Hu); [by left|by right].
Qed.

Lemma NoDup_snoc_fresh {A} (l : list A) (x : A) :
  NoDup l → x ∉ l → NoDup (l ++ [x]).
Proof.
  intros Hnd Hx. apply NoDup_app. split; [done|].
  split; [|apply NoDup_singleton].
  intros y Hy Hy'. apply list_elem_of_singleton in Hy'. by subst.
Qed.

Lemma step_unique_credentials r d :
  unique_credentials d → unique_credentials (step r d).
Proof.
  intros [Hemail Hname].
  apply (handle_cases (λ d' _, unique_credentials d')); [done|..];
    intros; run_handler; split_branches; unfold unique_credentials;
    simpl; autorewrite with frame; simpl;
    rewrite ?fmap_update_preserves by done; try done.
  all: match goal with
       | H : head _ = None |- _ => apply credentials_fresh in H as [? ?]
       end;
       rewrite !fmap_app; simpl; split; by apply NoDup_snoc_fresh.
Qed.

(** X3.  In every database the API reaches from one with unique e-mails
    and unique usernames, both are still unique; and a registration whose
    e-mail or whose username is already stored answers 400, commits
    nothing and leaves the database as it was. *)
Theorem register_rejects_taken_credentials (d0 d : Database) :
  unique_credentials d0 →
  reachable d0 d →
  unique_credentials d
  ∧ ∀ user_data,
      (∃ u, u ∈ users d
            ∧ (User.email u = UserCreate.email user_data
               ∨ User.username u = UserCreate.username user_data)) →
      ∃ detail, serve (register user_data) d = (inl (HTTP 400 detail), d, []).
Proof.
  intros Hd0 Hreach. split.
  - induction Hreach as [|d r _ IH]; [done|]. by apply step_unique_credentials.
  - intros user_data (u & Hu & Hsame). rewrite register_run.
    destruct (head _) as [?|] eqn:Hhd; [by eexists|].
    exfalso. by eapply (proj1 (first_row_None _ _) Hhd).
Qed.

Lemma register_rejects_taken_credentials_witness :
  unique_credentials empty_db
  ∧ reachable empty_db (step (Register Demo.alice_data) empty_db)
  ∧ unique_credentials (step (Register Demo.alice_data) empty_db)
  ∧ ∃ detail,
      serve (register Demo.alice_data) (step (Register Demo.alice_data) empty_db)
      = (inl (HTTP 400 detail), step (Register Demo.alice_data) empty_db, []).
Proof.
  assert (unique_credentials empty_db) as Hd0.
  { split; apply NoDup_nil_2. }
  assert (reachable empty_db (step (Register Demo.alice_data) empty_db))
    as Hreach by apply reachable_step, reachable_refl.
  destruct (register_rejects_taken_credentials _ _ Hd0 Hreach) as [Huniq Hdup].
  repeat (split; [done|]). apply Hdup.
  eexists. split; [vm_compute; apply list_elem_of_here|]. by left.
Defined.

(** ** One evaluation per annotation and evaluator *)

Lemma evaluation_pair_fresh annotation_id evaluator_id
    (rows : list Evaluation.t) :
  head (filter (λ e, Evaluation.annotation_id e = annotation_id
                     ∧ Evaluation.evaluator_id e = evaluator_id) rows) = None →
  (annotation_id, evaluator_id) ∉ evaluation_pair <$> rows.
Proof.
  intros Hhd Hin. apply list_elem_of_fmap in Hin as (e & Heq & He).
  eapply (proj1 (first_row_None _ _) Hhd); [done|].
  unfold evaluation_pair in Heq. by injection Heq as -> ->.
Qed.

Lemma step_one_evaluation_per_pair r d :
  one_evaluation_per_pair d → one_evaluation_per_pair (step r d).
Proof.
  intros Hd.
  apply (handle_cases (λ d' _, one_evaluation_per_pair d')); [done|..];
    intros; run_handler; split_branches; unfold one_evaluation_per_pair in *;
    simpl; autorewrite with frame; simpl;
    rewrite ?fmap_update_preserves by done; try done.
  all: rewrite fmap_app; apply NoDup_snoc_fresh; [done|];
       by apply evaluation_pair_fresh.
Qed.

(** X4.  In every database the API reaches from one that holds at most one
    evaluation per (annotation_id, evaluator_id) pair, that still holds; and
    when the caller already has an evaluation of an annotation,
    POST /api/evaluations for that annotation answers 400, commits nothing
    and leaves the database as it was. *)
Theorem one_evaluation_per_annotation_and_evaluator (d0 d : Database) :
  one_evaluation_per_pair d0 →
  reachable d0 d →
  one_evaluation_per_pair d
  ∧ ∀ current_user evaluation_data,
      (∃ e, e ∈ evaluations d
            ∧ Evaluation.annotation_id e
              = EvaluationCreate.annotation_id evaluation_data
            ∧ Evaluation.evaluator_id e = User.id current_user) →
      ∃ detail,
        serve (create_evaluation evaluation_data current_user) d
        = (inl (HTTP 400 detail), d, []).
Proof.
  intros Hd0 Hreach. split.
  - induction Hreach as [|d r _ IH]; [done|].
    by apply step_one_evaluation_per_pair.
  - intros current_user evaluation_data (e & He & Hid & Hev).
    rewrite create_evaluation_run.
    destruct (head _) as [?|] eqn:Hhd; [by eexists|].
    exfalso. by eapply (proj1 (first_row_None _ _) Hhd).
Qed.

Lemma one_evaluation_per_annotation_and_evaluator_witness :
  one_evaluation_per_pair Demo.annotated
  ∧ reachable Demo.annotated Demo.evaluated
  ∧ one_evaluation_per_pair Demo.evaluated
  ∧ ∃ detail,
      serve (create_evaluation Demo.cat_evaluation Demo.eve) Demo.evaluated
      = (inl (HTTP 400 detail), Demo.evaluated, []).
Proof.
  assert (one_evaluation_per_pair Demo.annotated) as Hd0.
  { unfold one_evaluation_per_pair. vm_compute. apply NoDup_nil_2. }
  assert (reachable Demo.annotated Demo.evaluated) as Hreach
    by apply reachable_run.
  destruct (one_evaluation_per_annotation_and_evaluator _ _ Hd0 Hreach)
    as [Hone Hdup].
  repeat (split; [done|]). apply Hdup.
  eexists. split; [vm_compute; apply list_elem_of_here|]. by split.
Defined.

(** ** Primary keys *)

Lemma primary_key_order_snoc (ids : list Z) :
  primary_key_order ids → primary_key_order (ids ++ [next_id ids]).
Proof.
  intros Hpk. apply StronglySorted_app. split; [|split; [done|]].
  - intros i j Hi Hj. apply list_elem_of_singleton in Hj as ->.
    by apply next_id_above.
  - repeat constructor.
Qed.

Lemma primary_key_order_filter {A} (key : A → Z) (P : A → Prop)
    `{!∀ x, Decision (P x)} (rows : list A) :
  primary_key_order (key <$> rows) →
  primary_key_order (key <$> filter P rows).
Proof.
  unfold primary_key_order. induction rows as [|x rows IH]; [done|].
  rewrite fmap_cons, StronglySorted_cons, filter_cons. intros [Hlt Hpk].
  destruct (decide (P x)); [|by apply IH].
  rewrite fmap_cons, StronglySorted_cons. split; [|by apply IH].
  rewrite Forall_forall in *. intros k Hk. apply Hlt.
  apply list_elem_of_fmap in Hk as (y & -> & Hy).
  apply list_elem_of_filter in Hy as [_ Hy].
  apply list_elem_of_fmap. by exists y.
Qed.

Lemma insert_sentences_keyed sentences_data d :
  primary_key_order (Sentence.id <$> sentences d) →
  primary_key_order
    (Sentence.id <$> sentences (foldl insert_sentence d sentences_data)).
Proof.
  revert d. induction sentences_data as [|x xs IH]; intros d Hpk; [done|].
  simpl. apply IH. simpl. rewrite fmap_app. by apply primary_key_order_snoc.
Qed.

Lemma insert_user_languages_keyed user_id languages d :
  primary_key_order (UserLanguage.id <$> user_languages d) →
  primary_key_order
    (UserLanguage.id <$>
       user_languages (foldl (insert_user_language user_id) d languages)).
Proof.
  revert d. induction languages as [|x xs IH]; intros d Hpk; [done|].
  simpl. apply IH. simpl. rewrite fmap_app. by apply primary_key_order_snoc.
Qed.

Lemma insert_text_highlights_keyed annotation_id hs d :
  primary_key_order (TextHighlight.id <$> text_highlights d) →
  primary_key_order
    (TextHighlight.id <$>
       text_highlights (foldl (insert_text_highlight annotation_id) d hs)).
Proof.
  revert d. induction hs as [|x xs IH]; intros d Hpk; [done|].
  simpl. apply IH. simpl. rewrite fmap_app. by apply primary_key_order_snoc.
Qed.

Ltac keyed_table :=
  simpl; autorewrite with frame; simpl;
  rewrite ?fmap_update_preserves by done;
  first
    [ done
    | rewrite fmap_app; simpl; apply primary_key_order_snoc; keyed_table
    | apply insert_sentences_keyed; keyed_table
    | apply insert_user_languages_keyed; keyed_table
    | apply insert_text_highlights_keyed; keyed_table
    | apply primary_key_order_filter; keyed_table ].

Lemma step_keyed r d : keyed d → keyed (step r d).
Proof.
  intros (Hu & Hl & Hs & Ha & Hh & He).
  apply (handle_cases (λ d' _, keyed d')); [done|..];
    intros; run_handler; split_branches; unfold keyed;
    repeat split; keyed_table.
Qed.

(** X5.  Primary-key order is an invariant of the API: from a database that
    stores each of its six tables in strictly increasing key order, every
    request leads to such a database.
    Handlers never write or change an id, and a new row takes a key above
    all stored ones. *)
Theorem primary_key_order_is_invariant (d0 d : Database) :
  keyed d0 → reachable d0 d → keyed d.
Proof.
  intros Hd0 Hreach.
  induction Hreach as [|d r _ IH]; [done|]. by apply step_keyed.
Qed.

Lemma primary_key_order_is_invariant_witness :
  keyed Demo.seeded
  ∧ reachable Demo.seeded Demo.evaluated
  ∧ keyed Demo.evaluated.
Proof.
  assert (keyed Demo.seeded) as Hd0.
  { repeat split; vm_compute; repeat constructor. }
  assert (reachable Demo.seeded Demo.evaluated) as Hreach.
  { unfold Demo.evaluated, Demo.annotated, Demo.staffed.
    do 2 apply reachable_run_from. apply reachable_run. }
  split; [exact Hd0|]. split; [exact Hreach|].
  exact (primary_key_order_is_invariant _ _ Hd0 Hreach).
Defined.

(** ** Highlights belong to stored annotations *)

Lemma insert_text_highlights_refer annotation_id hs d (ids : list Z) :
  (∀ h, h ∈ text_highlights d → TextHighlight.annotation_id h ∈ ids) →
  annotation_id ∈ ids →
  ∀ h, h ∈ text_highlights (foldl (insert_text_highlight annotation_id) d hs) →
       TextHighlight.annotation_id h ∈ ids.
Proof.
  intros Hold Hid h.
  destruct (insert_text_highlights_rows annotation_id hs d)
    as (added & -> & _ & Hown).
  rewrite elem_of_app. intros [Hh|Hh]; [by apply Hold|].
  rewrite Forall_forall in Hown. by rewrite (Hown h Hh).
Qed.

Lemma step_highlights_refer r d :
  highlights_refer_to_annotations d →
  highlights_refer_to_annotations (step r d).
Proof.
  intros Href.
  apply (handle_cases (λ d' _, highlights_refer_to_annotations d'));
    [done|..];
    intros; run_handler; split_branches;
    unfold highlights_refer_to_annotations in *;
    simpl; autorewrite with frame; simpl;
    rewrite ?fmap_update_preserves by done; try done.
  - apply insert_text_highlights_refer; simpl.
    + intros h Hh. rewrite fmap_app, elem_of_app. left. by apply Href.
    + rewrite fmap_app, elem_of_app. right. apply list_elem_of_here.
  - intros h Hh. rewrite fmap_app, elem_of_app. left. by apply Href.
  - intros h Hh. rewrite fmap_app, elem_of_app. left. by apply Href.
  - apply insert_text_highlights_refer; simpl.
    + intros h Hh. apply list_elem_of_filter in Hh as [_ Hh]. by apply Href.
    + match goal with
      | H : head _ = Some ?a |- _ =>
          apply first_row_Some in H as [Hin [<- _]];
          apply list_elem_of_fmap; by exists a
      end.
Qed.

(** X6.  Referential integrity of highlights is an invariant of the API:
    from a database in which every stored highlight belongs to a stored
    annotation, every request leads to such a database. *)
Theorem highlights_always_refer_to_annotations (d0 d : Database) :
  highlights_refer_to_annotations d0 →
  reachable d0 d →
  highlights_refer_to_annotations d.
Proof.
  intros Hd0 Hreach.
  induction Hreach as [|d r _ IH]; [done|]. by apply step_highlights_refer.
Qed.

Lemma highlights_always_refer_to_annotations_witness :
  highlights_refer_to_annotations Demo.seeded
  ∧ reachable Demo.seeded Demo.annotated
  ∧ highlights_refer_to_annotations Demo.annotated
  ∧ length (text_highlights Demo.annotated) = 2%nat.
Proof.
  assert (highlights_refer_to_annotations Demo.seeded) as Hd0.
  { intros h Hh. vm_compute in Hh. by apply not_elem_of_nil in Hh. }
  assert (reachable Demo.seeded Demo.annotated) as Hreach.
  { unfold Demo.annotated, Demo.staffed.
    apply reachable_run_from, reachable_run. }
  split; [exact Hd0|]. split; [exact Hreach|].
  split; [exact (highlights_always_refer_to_annotations _ _ Hd0 Hreach)|].
  vm_compute. reflexivity.
Defined.

(** ** Unannotated sentences, by page and one at a time *)

Lemma get_unannotated_sentences_run skip limit current_user d :
  serve (get_unannotated_sentences skip limit current_user) d
  = (inr (offset_limit skip limit (unannotated_query current_user d)), d, []).
Proof. reflexivity. Qed.

(** X7.  GET /api/sentences/unannotated with a non-negative offset and limit
    answers without error and writes nothing; its [i]-th entry is the
    [skip + i]-th, in table order, of the active sentences in the caller's
    preferred language that the caller has not annotated, for [i] below
    [limit], and there is no further entry.  With offset 0 and a positive
    limit its first entry is what GET /api/sentences/next returns, and the
    page is empty exactly when that endpoint returns none. *)
Theorem unannotated_page_starts_with_next_sentence (current_user : User.t)
    (d : Database) (skip limit : Z) :
  0 ≤ skip → 0 ≤ limit →
  ∃ page,
    serve (get_unannotated_sentences skip limit current_user) d
    = (inr page, d, [])
    ∧ (∀ i : nat,
         page !! i
         = if decide (Z.of_nat i < limit)
           then filter (servable current_user d) (sentences d)
                  !! Z.to_nat (skip + Z.of_nat i)
           else None)
    ∧ (skip = 0 → 0 < limit →
       response (get_next_sentence current_user) d = inr (head page)).
Proof.
  intros Hskip Hlimit. eexists.
  split; [apply get_unannotated_sentences_run|].
  rewrite unannotated_query_spec. split.
  - intros i. by apply offset_limit_lookup.
  - intros -> Hpos. unfold response. rewrite get_next_sentence_run. simpl.
    rewrite unannotated_query_spec. f_equal.
    rewrite !head_lookup, offset_limit_lookup by done.
    by rewrite decide_True by lia.
Qed.

Lemma unannotated_page_starts_with_next_sentence_witness :
  0 ≤ 0 ∧ 0 ≤ 50
  ∧ ∃ page,
      serve (get_unannotated_sentences 0 50 Demo.alice) Demo.annotated
      = (inr page, Demo.annotated, [])
      ∧ response (get_next_sentence Demo.alice) Demo.annotated
        = inr (head page).
Proof.
  split; [lia|]. split; [lia|].
  destruct (unannotated_page_starts_with_next_sentence
              Demo.alice Demo.annotated 0 50) as (page & Hserve & _ & Hnext);
    [lia|lia|].
  exists page. split; [exact Hserve|]. apply Hnext; [done|lia].
Defined.

(** ** Annotating a sentence takes it out of the annotator's queue *)

Lemma unannotated_query_after_annotation (d : Database)
    (a : Annotation.t) (other : User.t) (d' : Database) :
  sentences d' = sentences d →
  annotations d' = annotations d ++ [a] →
  unannotated_query other d'
  = filter (λ s, ¬ (Annotation.sentence_id a = Sentence.id s
                    ∧ Annotation.annotator_id a = User.id other))
           (unannotated_query other d).
Proof.
  intros Hs Ha. unfold unannotated_query. rewrite Hs, Ha.
  rewrite !list_filter_filter. apply list_filter_iff. intros s.
  rewrite Exists_app, Exists_cons, Exists_nil. tauto.
Qed.

(** X8.  After a successful POST /api/annotations, the sentences offered to
    the annotator are those offered before, in the same order, without the
    sentence just annotated; what is offered to users with another id is
    unchanged. *)
Theorem annotated_sentence_leaves_queue (d : Database)
    (current_user : User.t) (annotation_data : AnnotationCreate.t)
    (resp : AnnotationResponse.t) :
  response (create_annotation annotation_data current_user) d = inr resp →
  let d' := db_after (create_annotation annotation_data current_user) d in
  unannotated_query current_user d'
  = filter (λ s, Sentence.id s ≠ AnnotationCreate.sentence_id annotation_data)
           (unannotated_query current_user d)
  ∧ ∀ other, User.id other ≠ User.id current_user →
             unannotated_query other d' = unannotated_query other d.
Proof.
  intros Hresp d'.
  assert (sentences d' = sentences d
          ∧ annotations d'
            = annotations d
              ++ [new_annotation annotation_data current_user
                    (next_id (Annotation.id <$> annotations d))]) as [Hs Ha].
  { subst d'. revert Hresp. run_handler.
    destruct (head _); [done|]. intros _.
    destruct (truthy_list _); simpl; by autorewrite with frame. }
  split.
  - rewrite (unannotated_query_after_annotation d _ _ d' Hs Ha).
    apply list_filter_iff. intros s. simpl. split.
    + intros Hno Heq. apply Hno. by split.
    + intros Hne [Heq _]. by apply Hne.
  - intros other Hother.
    rewrite (unannotated_query_after_annotation d _ _ d' Hs Ha).
    apply filter_all, Forall_forall. intros s _ [_ Heq]. simpl in Heq.
    by apply Hother.
Qed.

Lemma annotated_sentence_leaves_queue_witness :
  ∃ resp,
    response (create_annotation Demo.cat_annotation Demo.alice) Demo.staffed
    = inr resp
    ∧ Sentence.id <$> unannotated_query Demo.alice Demo.staffed = [1; 3]
    ∧ Sentence.id <$> unannotated_query Demo.alice
                        (db_after (create_annotation Demo.cat_annotation
                                     Demo.alice) Demo.staffed) = [3].
Proof.
  destruct (response (create_annotation Demo.cat_annotation Demo.alice)
              Demo.staffed) as [e|resp] eqn:Hresp.
  { exfalso. vm_compute in Hresp. discriminate Hresp. }
  exists resp. split; [done|]. split; [vm_compute; reflexivity|].
  rewrite (proj1 (annotated_sentence_leaves_queue Demo.staffed Demo.alice
                    Demo.cat_annotation resp Hresp)).
  vm_compute. reflexivity.
Defined.

(** ** Evaluating an annotation takes it out of every pending list *)

Lemma pending_rows_after_review (a : Annotation.t) (evaluated evaluated' : list Z)
    (rows : list Annotation.t) :
  (∀ x, x ∈ rows → Annotation.id x = Annotation.id a → x = a) →
  (∀ i, i ≠ Annotation.id a → i ∈ evaluated' ↔ i ∈ evaluated) →
  filter (λ x, Annotation.annotation_status x = Some "completed"%string
               ∧ Annotation.id x ∉ evaluated')
    ((λ x, if decide (x = a)
           then Annotation.set_annotation_status (Some "reviewed"%string) x
           else x) <$> rows)
  = filter (λ x, Annotation.id x ≠ Annotation.id a)
      (filter (λ x, Annotation.annotation_status x = Some "completed"%string
                    ∧ Annotation.id x ∉ evaluated) rows).
Proof.
  intros Hkey Hev. induction rows as [|x rows IH]; [done|].
  rewrite fmap_cons, list_filter_filter.
  rewrite list_filter_filter in IH.
  assert (∀ y, y ∈ rows → Annotation.id y = Annotation.id a → y = a) as Hkey'.
  { intros y Hy. apply Hkey. by right. }
  destruct (decide (x = a)) as [->|Hne].
  - rewrite filter_cons_False by (by intros [? _]).
    rewrite filter_cons_False by (by intros [? _]). by apply IH.
  - assert (Annotation.id x ≠ Annotation.id a) as Hid.
    { intros Heq. apply Hne, Hkey; [by left|done]. }
    rewrite !filter_cons, (IH Hkey').
    destruct (decide (_ ∧ Annotation.id x ∉ evaluated')) as [[Hst Hx]|Hno].
    + rewrite decide_True; [done|].
      split; [done|]. split; [done|]. by rewrite <-(Hev _ Hid).
    + rewrite decide_False; [done|].
      intros (_ & Hst & Hx). apply Hno. split; [done|]. by rewrite (Hev _ Hid).
Qed.

(** X9.  After a successful POST /api/evaluations for a stored annotation
    (annotation ids being a primary key), the pending list of every user,
    not only of the caller, is what it was before without that annotation:
    its status is now "reviewed". *)
Theorem evaluated_annotation_leaves_pending (d : Database)
    (current_user : User.t) (evaluation_data : EvaluationCreate.t)
    (a : Annotation.t) (resp : EvaluationResponse.t) :
  primary_key_order (Annotation.id <$> annotations d) →
  a ∈ annotations d →
  Annotation.id a = EvaluationCreate.annotation_id evaluation_data →
  response (create_evaluation evaluation_data current_user) d = inr resp →
  let d' := db_after (create_evaluation evaluation_data current_user) d in
  ∀ evaluator,
    pending_query evaluator d'
    = filter (λ x, Annotation.id x
                   ≠ EvaluationCreate.annotation_id evaluation_data)
             (pending_query evaluator d).
Proof.
  intros Hpk Ha Hid Hresp d' evaluator.
  assert (annotations d'
          = (λ x, if decide (x = a)
                  then Annotation.set_annotation_status (Some "reviewed"%string) x
                  else x) <$> annotations d
          ∧ evaluations d'
            = evaluations d
              ++ [new_evaluation evaluation_data current_user
                    (next_id (Evaluation.id <$> evaluations d))]) as [Hrows Hevs].
  { subst d'. revert Hresp. run_handler.
    destruct (head (filter _ (evaluations d))); [done|].
    rewrite <-Hid, (scan_by_key_finds Annotation.id _ a Hpk Ha). simpl.
    intros _. split; [|done]. by apply update_by_key_is_update_row. }
  unfold pending_query. rewrite Hrows, Hevs, <-Hid.
  apply pending_rows_after_review.
  - intros x Hx Heq. by apply (primary_key_unique Annotation.id (annotations d)).
  - intros i Hi. rewrite filter_app, fmap_app, elem_of_app.
    split; [|by left]. intros [Hin|Hin]; [done|].
    rewrite filter_cons in Hin. destruct (decide _); simpl in Hin.
    + apply list_elem_of_singleton in Hin. by rewrite <-Hid in Hin.
    + by apply not_elem_of_nil in Hin.
Qed.

Lemma evaluated_annotation_leaves_pending_witness :
  let a := new_annotation Demo.cat_annotation Demo.alice 1 in
  primary_key_order (Annotation.id <$> annotations Demo.annotated)
  ∧ a ∈ annotations Demo.annotated
  ∧ pending_query Demo.admin Demo.annotated = [a]
  ∧ ∃ resp,
      response (create_evaluation Demo.cat_evaluation Demo.eve) Demo.annotated
      = inr resp
      ∧ pending_query Demo.admin
          (db_after (create_evaluation Demo.cat_evaluation Demo.eve)
             Demo.annotated) = [].
Proof.
  intros a.
  assert (primary_key_order (Annotation.id <$> annotations Demo.annotated))
    as Hpk.
  { vm_compute. repeat (constructor; [|repeat constructor; lia]). constructor. }
  assert (a ∈ annotations Demo.annotated) as Ha.
  { vm_compute. apply list_elem_of_here. }
  split; [exact Hpk|]. split; [exact Ha|]. split; [vm_compute; reflexivity|].
  destruct (response (create_evaluation Demo.cat_evaluation Demo.eve)
              Demo.annotated) as [e|resp] eqn:Hresp.
  { exfalso. vm_compute in Hresp. discriminate Hresp. }
  exists resp. split; [done|].
  rewrite (evaluated_annotation_leaves_pending Demo.annotated Demo.eve
             Demo.cat_evaluation a resp Hpk Ha eq_refl Hresp Demo.admin).
  vm_compute. reflexivity.
Defined.

(** ** Updating an annotation *)

(** X10.  PUT /api/annotations/{id} on an annotations table keyed by id:
    when no stored annotation has that id and the caller as annotator, the
    answer is 404 and nothing is committed.  In every case the annotations
    of other annotators and the annotations with another id are stored
    unchanged afterwards, no annotation changes its id, sentence or
    annotator, a payload without a highlight list leaves all highlights as
    they were, a highlight of another annotation is never removed, and the
    users, languages, sentences and evaluations are untouched. *)
Theorem update_annotation_touches_only_own (d : Database)
    (current_user : User.t) (annotation_id : Z)
    (annotation_data : AnnotationUpdate.t) :
  primary_key_order (Annotation.id <$> annotations d) →
  let d' := db_after (update_annotation annotation_id annotation_data
                        current_user) d in
  ((¬ ∃ a, a ∈ annotations d
           ∧ Annotation.id a = annotation_id
           ∧ Annotation.annotator_id a = User.id current_user) →
   serve (update_annotation annotation_id annotation_data current_user) d
   = (inl (HTTP 404 "Annotation not found"), d, []))
  ∧ (∀ x, x ∈ annotations d →
          Annotation.annotator_id x ≠ User.id current_user
          ∨ Annotation.id x ≠ annotation_id →
          x ∈ annotations d')
  ∧ Annotation.id <$> annotations d' = Annotation.id <$> annotations d
  ∧ annotation_pair <$> annotations d' = annotation_pair <$> annotations d
  ∧ (AnnotationUpdate.highlights annotation_data = None →
     text_highlights d' = text_highlights d)
  ∧ (∀ h, h ∈ text_highlights d →
          TextHighlight.annotation_id h ≠ annotation_id →
          h ∈ text_highlights d')
  ∧ users d' = users d ∧ user_languages d' = user_languages d
  ∧ sentences d' = sentences d ∧ evaluations d' = evaluations d.
Proof.
  intros Hpk d'. subst d'. run_handler.
  destruct (head _) as [a|] eqn:Hhd.
  - apply first_row_Some in Hhd as (Ha & Hid & Howner). cbn [fst snd].
    split; [intros Hno; exfalso; apply Hno; by exists a|].
    split.
    { intros x Hx Hother.
      assert (x ≠ a) as Hne by (intros ->; by destruct Hother).
      assert (Annotation.id x ≠ Annotation.id a) as Hkey.
      { intros Heq. apply Hne.
        by apply (primary_key_unique Annotation.id (annotations d)). }
      destruct (AnnotationUpdate.highlights annotation_data); simpl;
        autorewrite with frame; simpl;
        apply list_elem_of_fmap; exists x; by rewrite decide_False. }
    destruct (AnnotationUpdate.highlights annotation_data) as [hs|] eqn:Hhs;
      simpl; autorewrite with frame; simpl;
      rewrite !fmap_update_preserves by done; repeat split; try done.
    intros h Hh Hne.
    eapply elem_of_prefix; [|apply insert_text_highlights_prefix].
    simpl. by apply list_elem_of_filter.
  - cbn [fst snd]. repeat split; try done.
Qed.

Lemma update_annotation_touches_only_own_witness :
  primary_key_order (Annotation.id <$> annotations Demo.annotated)
  ∧ serve (update_annotation 1
             (AnnotationUpdate.mk (Some (Some 1)) None None None None None None
                None None None) Demo.eve) Demo.annotated
    = (inl (HTTP 404 "Annotation not found"), Demo.annotated, []).
Proof.
  assert (primary_key_order (Annotation.id <$> annotations Demo.annotated))
    as Hpk.
  { vm_compute. repeat (constructor; [|repeat constructor; lia]). constructor. }
  split; [exact Hpk|].
  apply (update_annotation_touches_only_own Demo.annotated Demo.eve 1 _ Hpk).
  intros (a & Ha & _ & Howner). vm_compute in Ha.
  apply list_elem_of_singleton in Ha. subst a. discriminate Howner.
Defined.

(** ** Stored languages of a user *)

Lemma insert_user_languages_added user_id languages d :
  ∃ added,
    user_languages (foldl (insert_user_language user_id) d languages)
    = user_languages d ++ added
    ∧ UserLanguage.language <$> added = languages
    ∧ Forall (λ l, UserLanguage.user_id l = user_id) added.
Proof.
  revert d. induction languages as [|x xs IH]; intros d; simpl.
  { exists []. by rewrite app_nil_r. }
  destruct (IH (insert_user_language user_id d x))
    as (added & Hrows & Hlangs & Hown).
  eexists (_ :: added). rewrite Hrows. simpl. rewrite <-app_assoc. simpl.
  split; [done|]. split.
  - f_equal. exact Hlangs.
  - by constructor.
Qed.

Lemma get_user_languages_run user_id d :
  serve (get_user_languages user_id) d
  = (inr (UserLanguage.language <$>
            filter (λ l, UserLanguage.user_id l = user_id) (user_languages d)),
     d, []).
Proof. reflexivity. Qed.


Lemma no_languages_for_next_user d :
  languages_refer_to_users d →
  filter (λ l, UserLanguage.user_id l = next_id (User.id <$> users d))
         (user_languages d) = [].
Proof.
  intros Href. apply filter_none, Forall_forall. intros l Hl Heq.
  apply Href in Hl. rewrite Heq in Hl. by apply next_id_fresh in Hl.
Qed.

Lemma truthy_str_singleton (o : option string) :
  match o with
  | Some p => if decide (p = ""%string) then [] else [p]
  | None => []
  end
  = if truthy_str o then [default ""%string o] else [].
Proof.
  destruct o as [p|]; [|done]. unfold truthy_str.
  destruct (decide (p = ""%string)) as [Hp|Hp].
  - by rewrite bool_decide_true.
  - by rewrite bool_decide_false.
Qed.

(** X12.  On a database whose language rows all belong to stored users, a
    successful registration answers with a user under a fresh id whose
    languages are the submitted list when it is non-empty, else the single
    submitted preferred_language when that is a non-empty string, else
    none; and these are the languages stored for the new user. *)
Theorem register_stores_languages (d : Database) (user_data : UserCreate.t)
    (resp : UserResponse.t) :
  languages_refer_to_users d →
  response (register user_data) d = inr resp →
  let d' := db_after (register user_data) d in
  let u := UserResponse.user resp in
  (User.id u ∉ User.id <$> users d)
  ∧ users d' = users d ++ [u]
  ∧ UserResponse.languages resp
    = match UserCreate.languages user_data with
      | Some (l :: ls) => l :: ls
      | Some [] | None =>
          match UserCreate.preferred_language user_data with
          | Some p => if decide (p = ""%string) then [] else [p]
          | None => []
          end
      end
  ∧ response (get_user_languages (User.id u)) d'
    = inr (UserResponse.languages resp).
Proof.
  intros Href. unfold response at 2. rewrite get_user_languages_run.
  rewrite truthy_str_singleton.
  run_handler. destruct (head _) as [?|]; [done|].
  pose proof (no_languages_for_next_user d Href) as Hnone.
  pose proof (next_id_fresh (User.id <$> users d)) as Hfresh.
  destruct (UserCreate.languages user_data) as [[|l ls]|] eqn:Hl; simpl.
  - destruct (truthy_str (UserCreate.preferred_language user_data));
      intros [= <-]; simpl; rewrite ?filter_app, Hnone; simpl;
      rewrite ?filter_cons_True by done; done.
  - intros [= <-]. cbn [fst snd UserResponse.user UserResponse.languages].
    autorewrite with frame. split; [done|]. split; [done|].
    destruct (insert_user_languages_added
                (next_id (User.id <$> users d)) (l :: ls)
                (with_users (λ t, t ++ [new_user user_data
                                          (next_id (User.id <$> users d))]) d))
      as (added & Hrows & Hlangs & Hown).
    simpl in Hrows. simpl. rewrite Hrows.
    rewrite filter_app, Hnone, (filter_all _ added Hown). simpl.
    by rewrite Hlangs.
  - destruct (truthy_str (UserCreate.preferred_language user_data));
      intros [= <-]; simpl; rewrite ?filter_app, Hnone; simpl;
      rewrite ?filter_cons_True by done; done.
Qed.

Lemma register_stores_languages_witness :
  languages_refer_to_users Demo.seeded
  ∧ ∃ resp,
      response (register Demo.alice_data) Demo.seeded = inr resp
      ∧ UserResponse.languages resp = ["fr"; "tagalog"]%string.
Proof.
  assert (languages_refer_to_users Demo.seeded) as Href.
  { intros l Hl. vm_compute in Hl. by apply not_elem_of_nil in Hl. }
  split; [exact Href|].
  destruct (response (register Demo.alice_data) Demo.seeded)
    as [e|resp] eqn:Hresp.
  { exfalso. vm_compute in Hresp. discriminate Hresp. }
  exists resp. split; [done|].
  exact (proj1 (proj2 (proj2 (register_stores_languages Demo.seeded
                                Demo.alice_data resp Href Hresp)))).
Defined.

(** ** Bulk creation of sentences *)



(** ** Sentence counts by target language *)

Lemma sum_list_pointwise {K} (g h : K → nat) (ks : list K) :
  sum_list ((λ k, g k + h k)%nat <$> ks)
  = (sum_list (g <$> ks) + sum_list (h <$> ks))%nat.
Proof. induction ks as [|k ks IH]; csimpl; [done|]. rewrite IH. lia. Qed.

Lemma sum_list_indicator {K} `{!EqDecision K} (k0 : K) (ks : list K) :
  NoDup ks →
  sum_list ((λ k, if decide (k0 = k) then 1 else 0)%nat <$> ks)
  = if decide (k0 ∈ ks) then 1%nat else 0%nat.
Proof.
  induction 1 as [|k ks Hk Hnd IH]; csimpl; [done|].
  rewrite IH. destruct (decide (k0 = k)) as [->|Hne].
  - rewrite (decide_False (P := k ∈ ks)) by done.
    rewrite decide_True by apply list_elem_of_here. done.
  - destruct (decide (k0 ∈ ks)) as [Hin|Hnin].
    + rewrite decide_True by (by apply list_elem_of_further). done.
    + rewrite decide_False; [done|].
      intros Hin. apply elem_of_cons in Hin as [?|?]; done.
Qed.

Lemma group_sizes_sum {A K} `{!EqDecision K} (f : A → K) (ks : list K)
    (rows : list A) :
  NoDup ks →
  (∀ s, s ∈ rows → f s ∈ ks) →
  sum_list ((λ k, length (filter (λ s, f s = k) rows)) <$> ks) = length rows.
Proof.
  intros Hnd. induction rows as [|s rows IH]; intros Hcover.
  - csimpl. clear Hnd Hcover. induction ks as [|k ks IHks]; [done|].
    csimpl. apply IHks.
  - transitivity
      (sum_list ((λ k, (if decide (f s = k) then 1 else 0)
                       + length (filter (λ s, f s = k) rows))%nat <$> ks)).
    { f_equal. apply list_fmap_ext. intros i k _. rewrite filter_cons.
      by destruct (decide (f s = k)). }
    rewrite sum_list_pointwise, sum_list_indicator by done.
    rewrite decide_True by (apply Hcover; left).
    rewrite IH; [done|]. intros s' Hs'. apply Hcover. by right.
Qed.

Lemma counts_loop_spec (target_counts : list (string * Z))
    (counts : gmap string Z) (total : Z) :
  NoDup target_counts.*1 →
  (counts_loop target_counts counts total).2
  = total + foldr Z.add 0 target_counts.*2
  ∧ (∀ language count, (language, count) ∈ target_counts →
       (counts_loop target_counts counts total).1 !! language = Some count)
  ∧ (∀ language, language ∉ target_counts.*1 →
       (counts_loop target_counts counts total).1 !! language
       = counts !! language).
Proof.
  revert counts total.
  induction target_counts as [|[l c] tcs IH]; intros counts total Hnd; csimpl.
  { split; [lia|]. split; [|done]. intros ?? Hin.
    by apply not_elem_of_nil in Hin. }
  csimpl in Hnd. apply NoDup_cons in Hnd as [Hl Hnd].
  destruct (IH (<[l := c]> counts) (total + c) Hnd) as (Htotal & Hin & Hout).
  split; [lia|]. split.
  - intros language count Hmem. apply elem_of_cons in Hmem as [[= -> ->]|Hmem].
    + rewrite (Hout l Hl). apply lookup_insert_eq.
    + by apply Hin.
  - intros language Hnot. apply not_elem_of_cons in Hnot as [Hne Hnot].
    rewrite (Hout _ Hnot). by apply lookup_insert_ne.
Qed.

(** X14.  GET /api/admin/sentences/counts writes nothing and answers with
    a dict whose "all" entry is the number of stored sentences and whose
    entry for any other language is the number of stored sentences with
    that target language, the language being absent when it has none.  (A
    target language spelled "all" has its own count overwritten by the
    total.) *)
Theorem sentence_counts_by_language (d : Database) (current_user : User.t) :
  ∃ counts,
    serve (get_sentence_counts_by_language current_user) d
    = (inr counts, d, [])
    ∧ counts !! "all"%string = Some (Z.of_nat (length (sentences d)))
    ∧ ∀ language, language ≠ "all"%string →
        counts !! language
        = let n := length (filter (λ s, Sentence.target_language s = language)
                                  (sentences d)) in
          if decide (n = 0)%nat then None else Some (Z.of_nat n).
Proof.
  unfold serve, get_sentence_counts_by_language, bind, query. simpl.
  pose proof (counts_loop_spec (count_by_target_language (sentences d)) ∅ 0)
    as Hloop.
  destruct (counts_loop (count_by_target_language (sentences d)) ∅ 0)
    as [counts total] eqn:Hrun.
  simpl. eexists. split; [done|].
  assert ((count_by_target_language (sentences d)).*1
          = remove_dups (Sentence.target_language <$> sentences d)) as Hkeys.
  { unfold count_by_target_language. rewrite <-list_fmap_compose.
    apply list_fmap_id. }
  destruct Hloop as (Htotal & Hin & Hout).
  { rewrite Hkeys. apply NoDup_remove_dups. }
  simpl in *. split.
  - rewrite lookup_insert_eq. f_equal. rewrite Htotal.
    unfold count_by_target_language. rewrite <-list_fmap_compose.
    rewrite <-(group_sizes_sum Sentence.target_language
                 (remove_dups (Sentence.target_language <$> sentences d))
                 (sentences d)).
    + generalize (remove_dups (Sentence.target_language <$> sentences d)) as ks.
      induction ks as [|k ks IH]; csimpl; [done|]. csimpl in IH. lia.
    + apply NoDup_remove_dups.
    + intros s Hs. apply elem_of_remove_dups, list_elem_of_fmap. by exists s.
  - intros language Hne. rewrite lookup_insert_ne by done.
    destruct (decide (length (filter _ (sentences d)) = 0%nat)) as [Hz|Hnz].
    + rewrite Hout; [done|]. rewrite Hkeys, elem_of_remove_dups.
      intros Hmem. apply list_elem_of_fmap in Hmem as (s & -> & Hs).
      apply length_zero_iff_nil in Hz.
      eapply (filter_nil_not_elem_of _ _ s Hz); done.
    + apply Hin. unfold count_by_target_language.
      apply list_elem_of_fmap. eexists. split; [done|].
      apply elem_of_remove_dups.
      destruct (filter _ (sentences d)) as [|s rest] eqn:Hf; [done|].
      assert (s ∈ filter (λ s, Sentence.target_language s = language)
                         (sentences d)) as Hs by (rewrite Hf; left).
      apply list_elem_of_filter in Hs as [<- Hs].
      apply list_elem_of_fmap. by exists s.
Qed.

(** ** Seeding the database *)

Lemma sample_sentences_length : length Seed.sample_sentences = 15%nat.
Proof. reflexivity. Qed.

Opaque Seed.sample_sentences.

Lemma add_sentences_run sentences_data s :
  for_each sentences_data (λ sentence_data,
      db_add_sentence (new_sentence sentence_data);; ret tt) s
  = (inr tt,
     mkSession (stored s) (foldl insert_sentence (txn s) sentences_data)
       (commit_log s)).
Proof.
  revert s. induction sentences_data as [|x xs IH]; intros; simpl.
  - unfold ret. by rewrite session_eta.
  - unfold bind at 1. unfold bind at 1. simpl. by rewrite IH.
Qed.

Lemma insert_sentences_length sentences_data d :
  length (sentences (foldl insert_sentence d sentences_data))
  = (length (sentences d) + length sentences_data)%nat.
Proof.
  revert d. induction sentences_data as [|x xs IH]; intros d; simpl; [lia|].
  rewrite IH. simpl. rewrite length_app. simpl. lia.
Qed.

(** [init_database] in closed form. *)
Lemma init_database_run d :
  serve Seed.init_database d
  = match head (filter (λ u, User.email u = "admin@example.com"%string)
                       (users d)) with
    | Some _ =>
        match sentences d with
        | [] => let d2 := foldl insert_sentence d Seed.sample_sentences in
                (inr tt, d2, [d2])
        | _ :: _ => (inr tt, d, [])
        end
    | None =>
        match head (filter (λ u, User.username u = "admin"%string)
                           (users d)) with
        | Some _ => (inl (HTTP 500 "IntegrityError"), d, [])
        | None =>
            let d1 := with_users
                        (λ t, t ++ [Seed.admin_user
                                      (next_id (User.id <$> users d))]) d in
            match sentences d with
            | [] => let d2 := foldl insert_sentence d1 Seed.sample_sentences in
                    (inr tt, d2, [d1; d2])
            | _ :: _ => (inr tt, d1, [d1])
            end
        end
    end.
Proof.
  unfold serve, Seed.init_database.
  generalize Seed.sample_sentences as samples. intros samples.
  unfold bind at 1, query at 1. simpl.
  destruct (head _) as [?|]; simpl.
  - unfold bind at 1. simpl. unfold bind at 1. simpl.
    destruct (sentences d) as [|??]; [|done].
    unfold bind at 1. by rewrite add_sentences_run.
  - unfold bind at 1. unfold bind at 1, query at 1. simpl.
    destruct (head _) as [?|]; simpl; [done|].
    unfold bind at 1. simpl. unfold bind at 1. simpl.
    destruct (sentences d) as [|??]; [|done].
    unfold bind at 1. by rewrite add_sentences_run.
Qed.

Lemma init_database_run_free d :
  admin_can_be_seeded d →
  serve Seed.init_database d
  = let seeded_admin :=
      match head (filter (λ u, User.email u = "admin@example.com"%string)
                         (users d)) with
      | Some _ => None
      | None => Some (with_users
                        (λ t, t ++ [Seed.admin_user (next_id (User.id <$> users d))])
                        d)
      end in
    let d1 := default d seeded_admin in
    let seeded_sentences :=
      match sentences d with
      | [] => Some (foldl insert_sentence d1 Seed.sample_sentences)
      | _ :: _ => None
      end in
    (inr tt, default d1 seeded_sentences,
     option_list seeded_admin ++ option_list seeded_sentences).
Proof.
  intros Hfree. rewrite init_database_run. cbv zeta.
  destruct (head (filter _ (users d))) as [?|] eqn:Hemail.
  { by destruct (sentences d). }
  destruct (head (filter (λ u, User.username u = _) (users d)))
    as [u|] eqn:Hname.
  2: { by destruct (sentences d). }
  apply first_row_Some in Hname as [Hu Hname]. exfalso.
  destruct Hfree as [(u' & Hu' & He')|Hfree].
  - exact (proj1 (first_row_None _ _) Hemail u' Hu' He').
  - exact (Hfree u Hu Hname).
Qed.

(** Otherwise (a stored user has the username [admin] and none has the
    admin e-mail) [init_database] fails and stores nothing. *)
Lemma init_database_fails_on_taken_username d u :
  u ∈ users d → User.username u = "admin"%string →
  (∀ u', u' ∈ users d → User.email u' ≠ "admin@example.com"%string) →
  serve Seed.init_database d = (inl (HTTP 500 "IntegrityError"), d, []).
Proof.
  intros Hu Hname Hemail. rewrite init_database_run. cbv zeta.
  destruct (head (filter _ (users d))) as [u'|] eqn:Hhd.
  { apply first_row_Some in Hhd as [Hu' He]. by destruct (Hemail u' Hu'). }
  destruct (head (filter (λ u, User.username u = _) (users d)))
    as [?|] eqn:Hhd'; [done|].
  exfalso. exact (proj1 (first_row_None _ _) Hhd' u Hu Hname).
Qed.

(** X15.  When a stored user has the admin e-mail or none has the username
    [admin], [init_database] succeeds and is idempotent: run on the
    database it produced, it commits nothing and changes nothing.  What it
    produces holds a user with the admin e-mail and at least one sentence,
    keeps the users and sentences already stored, adds the admin only when
    no stored user has the admin e-mail, and adds the fifteen sample
    sentences only to an empty sentences table. *)
Theorem init_database_idempotent (d : Database) :
  admin_can_be_seeded d →
  let d' := db_after Seed.init_database d in
  response Seed.init_database d = inr tt
  ∧ serve Seed.init_database d' = (inr tt, d', [])
  ∧ (∃ u, u ∈ users d' ∧ User.email u = "admin@example.com"%string)
  ∧ users d `prefix_of` users d'
  ∧ sentences d `prefix_of` sentences d'
  ∧ ((∃ u, u ∈ users d ∧ User.email u = "admin@example.com"%string) →
     users d' = users d)
  ∧ (sentences d ≠ [] → sentences d' = sentences d)
  ∧ (sentences d = [] → length (sentences d') = 15%nat)
  ∧ user_languages d' = user_languages d ∧ annotations d' = annotations d
  ∧ text_highlights d' = text_highlights d ∧ evaluations d' = evaluations d.
Proof.
  intros Hfree d'.
  split; [unfold response; by rewrite init_database_run_free|].
  assert (∃ u, u ∈ users d' ∧ User.email u = "admin@example.com"%string)
    as Hadmin.
  { subst d'. unfold db_after. rewrite init_database_run_free by done.
    cbn zeta.
    destruct (head _) as [u|] eqn:Hhd.
    - apply first_row_Some in Hhd as [Hu Hemail]. exists u.
      split; [|done]. cbn [fst snd default from_option id].
      destruct (sentences d); simpl; by autorewrite with frame.
    - exists (Seed.admin_user (next_id (User.id <$> users d))).
      split; [|reflexivity]. cbn [fst snd default from_option id].
      destruct (sentences d); simpl; autorewrite with frame; simpl;
        apply elem_of_app; right; apply list_elem_of_here. }
  assert (sentences d' ≠ []
          ∧ (sentences d ≠ [] → sentences d' = sentences d)
          ∧ (sentences d = [] → length (sentences d') = 15%nat)
          ∧ sentences d `prefix_of` sentences d') as (Hne & Hkeep & Hfill & Hpre).
  { subst d'. unfold db_after. rewrite init_database_run_free by done.
    cbn zeta.
    destruct (sentences d) as [|s rest] eqn:Hs; cbn [fst snd default from_option id].
    - assert (length (sentences
                (foldl insert_sentence
                   (default d
                      match head (filter
                               (λ u, User.email u = "admin@example.com"%string)
                               (users d)) with
                      | Some _ => None
                      | None => Some (with_users
                          (λ t, t ++ [Seed.admin_user
                                        (next_id (User.id <$> users d))]) d)
                      end)
                   Seed.sample_sentences)) = 15%nat) as Hlen.
      { rewrite insert_sentences_length, sample_sentences_length.
        destruct (head _); simpl; by rewrite Hs. }
      split; [|split; [done|split; [done|apply prefix_nil]]].
      intros Hnil. by rewrite Hnil in Hlen.
    - destruct (head _); simpl; rewrite Hs; by repeat split. }
  split; [|split; [exact Hadmin|]].
  - rewrite init_database_run. cbn zeta.
    destruct Hadmin as (u & Hu & Hemail).
    destruct (head (filter _ (users d'))) as [?|] eqn:Hhd.
    + destruct (sentences d'); [done|]. reflexivity.
    + exfalso. exact (proj1 (first_row_None _ _) Hhd u Hu Hemail).
  - subst d'. unfold db_after in *.
    rewrite init_database_run_free in * by done.
    cbn zeta in *.
    destruct (head (filter _ (users d))) as [u|] eqn:Hhd;
      destruct (sentences d) as [|s rest] eqn:Hs;
      cbn [fst snd default from_option id] in *; simpl;
      autorewrite with frame; simpl;
      repeat split; try done;
      try (by apply prefix_app_r);
      try (intros (u' & Hu' & He'); exfalso;
           by eapply (proj1 (first_row_None _ _) Hhd)).
Qed.

Lemma init_database_idempotent_witness :
  admin_can_be_seeded empty_db
  ∧ response Seed.init_database empty_db = inr tt
  ∧ serve Seed.init_database (db_after Seed.init_database empty_db)
    = (inr tt, db_after Seed.init_database empty_db, [])
  ∧ length (sentences (db_after Seed.init_database empty_db)) = 15%nat.
Proof.
  assert (admin_can_be_seeded empty_db) as Hfree.
  { right. intros u Hu. by apply not_elem_of_nil in Hu. }
  split; [exact Hfree|].
  destruct (init_database_idempotent empty_db Hfree)
    as (Hok & Hagain & _ & _ & _ & _ & _ & Hfill & _).
  split; [exact Hok|]. split; [exact Hagain|]. by apply Hfill.
Defined.

Transparent Seed.sample_sentences.

(** ** The legacy annotation endpoint *)

(** X17.  POST /api/annotations/legacy behaves as POST /api/annotations
    with the same fields and no highlights (absent or empty list): both
    answer with an error in the same cases, and otherwise commit once the
    same database, the legacy response being the other response without its
    highlights. *)
Theorem legacy_annotation_is_create_without_highlights (d : Database)
    (current_user : User.t) (legacy : LegacyAnnotationCreate.t)
    (highlights : option (list TextHighlightCreate.t)) :
  truthy_list highlights = false →
  let full :=
    AnnotationCreate.mk
      (LegacyAnnotationCreate.fluency_score legacy)
      (LegacyAnnotationCreate.adequacy_score legacy)
      (LegacyAnnotationCreate.overall_quality legacy)
      (LegacyAnnotationCreate.errors_found legacy)
      (LegacyAnnotationCreate.suggested_correction legacy)
      (LegacyAnnotationCreate.comments legacy)
      (LegacyAnnotationCreate.final_form legacy)
      (LegacyAnnotationCreate.time_spent_seconds legacy)
      (LegacyAnnotationCreate.sentence_id legacy)
      highlights in
  db_after (create_legacy_annotation legacy current_user) d
  = db_after (create_annotation full current_user) d
  ∧ commits (create_legacy_annotation legacy current_user) d
    = commits (create_annotation full current_user) d
  ∧ response (create_legacy_annotation legacy current_user) d
    = match response (create_annotation full current_user) d with
      | inl e => inl e
      | inr resp =>
          inr (LegacyAnnotationResponse.mk
                 (AnnotationResponse.annotation resp)
                 (AnnotationResponse.sentence resp)
                 (AnnotationResponse.annotator resp))
      end.
Proof.
  intros Hnone full. subst full. unfold db_after, commits, response.
  rewrite create_legacy_annotation_run, create_annotation_run.
  cbn [AnnotationCreate.sentence_id AnnotationCreate.highlights].
  destruct (head _); [done|]. cbn zeta. rewrite Hnone.
  rewrite legacy_annotation_dict_run. by repeat split.
Qed.

Lemma legacy_annotation_is_create_without_highlights_witness :
  truthy_list (Some (@nil TextHighlightCreate.t)) = false
  ∧ db_after (create_legacy_annotation Demo.cat_annotation_legacy Demo.alice)
      Demo.staffed
    = db_after (create_annotation
                  (AnnotationCreate.mk (Some 4) (Some 3) (Some 4) None None
                     None None (Some 42) 1 (Some []))
                  Demo.alice) Demo.staffed.
Proof.
  split; [reflexivity|].
  exact (proj1 (legacy_annotation_is_create_without_highlights Demo.staffed
                  Demo.alice Demo.cat_annotation_legacy (Some []) eq_refl)).
Defined.

(** ** When an evaluation is accepted *)

Lemma scan_updated_rows_head {A} (key : A → Z) (g : A → A) (k : Z)
    (rows : list A) :
  (∀ x, key (g x) = key x) →
  head (filter (λ x, key x = k) (g <$> rows))
  = g <$> head (filter (λ x, key x = k) rows).
Proof.
  intros Hg. induction rows as [|x rows IH]; [done|]. csimpl.
  destruct (decide (key x = k)) as [Hk|Hk].
  - rewrite !filter_cons_True by (by rewrite ?Hg). done.
  - rewrite !filter_cons_False by (by rewrite ?Hg). done.
Qed.

(** X18.  POST /api/evaluations on an annotations table keyed by id
    succeeds exactly when the caller has no stored evaluation of the
    annotation, the caller is a stored user, and the annotation with that
    id is stored together with its sentence and its annotator; the
    annotation's status plays no part.  When the caller already has an
    evaluation of it, the answer is 400. *)
Theorem create_evaluation_succeeds_iff (d : Database) (current_user : User.t)
    (evaluation_data : EvaluationCreate.t) :
  primary_key_order (Annotation.id <$> annotations d) →
  let evaluated_before :=
    ∃ e, e ∈ evaluations d
         ∧ Evaluation.annotation_id e
           = EvaluationCreate.annotation_id evaluation_data
         ∧ Evaluation.evaluator_id e = User.id current_user in
  ((∃ resp, response (create_evaluation evaluation_data current_user) d
            = inr resp)
   ↔ ¬ evaluated_before
     ∧ (∃ u, u ∈ users d ∧ User.id u = User.id current_user)
     ∧ ∃ a, a ∈ annotations d
            ∧ Annotation.id a = EvaluationCreate.annotation_id evaluation_data
            ∧ has_sentence_and_annotator d a)
  ∧ (evaluated_before →
     ∃ detail, response (create_evaluation evaluation_data current_user) d
               = inl (HTTP 400 detail)).
Proof.
  intros Hkey evaluated_before. subst evaluated_before.
  unfold response. rewrite create_evaluation_run.
  destruct (head (filter _ (evaluations d))) as [e|] eqn:Hev.
  { apply first_row_Some in Hev as (He & Hid & Hu). simpl. split.
    - split; [by intros [? ?]|]. intros [Hno _]. exfalso. apply Hno.
      by exists e.
    - intros _. by eexists. }
  pose proof (proj1 (first_row_None _ _) Hev) as Hno.
  split.
  2: { intros (e & He & Hid & Hu). exfalso. by apply (Hno e). }
  assert (¬ ∃ e, e ∈ evaluations d
                 ∧ Evaluation.annotation_id e
                   = EvaluationCreate.annotation_id evaluation_data
                 ∧ Evaluation.evaluator_id e = User.id current_user) as Hfresh.
  { intros (e & He & Hid' & Hu). by apply (Hno e). }
  cbn zeta. destruct (head (filter _ (annotations d))) as [a|] eqn:Ha.
  - pose proof Ha as Hscan. apply first_row_Some in Ha as [Ha Hid].
    cbn [fst snd]. rewrite evaluation_dict_run.
    cbn [fst txn new_evaluation Evaluation.evaluator_id
         Evaluation.annotation_id].
    change (users (with_annotations _ _)) with (users d).
    change (annotations (with_annotations ?f (with_evaluations ?g d)))
      with (f (annotations d)).
    rewrite (scan_updated_rows_head Annotation.id) by (intros x; by case_decide).
    rewrite Hscan. csimpl. rewrite decide_True by done.
    set (a' := Annotation.set_annotation_status (Some "reviewed"%string) a).
    set (s := mkSession _ _ _).
    assert (has_sentence_and_annotator (txn s) a'
            ↔ has_sentence_and_annotator d a) as Hsame by done.
    pose proof (annotation_dict_inr_iff a' s) as Hdict.
    rewrite Hsame in Hdict.
    destruct (head (filter _ (users d))) as [u|] eqn:Hu.
    + apply first_row_Some in Hu as [Hu Huid].
      split.
      * intros [resp Hresp]. split; [done|]. split; [by exists u|].
        exists a. split; [done|]. split; [done|]. apply Hdict.
        destruct (annotation_dict a' s).1 as [?|ar]; [done|]. by exists ar.
      * intros (_ & _ & a0 & Ha0 & Hid0 & Hok).
        assert (a0 = a) as ->.
        { apply (primary_key_unique Annotation.id (annotations d));
            [done..|congruence]. }
        apply Hdict in Hok as [ar ->]. by eexists.
    + split; [by intros [? ?]|]. intros (_ & (u & Hin & Hid') & _).
      exfalso. exact (proj1 (first_row_None _ _) Hu u Hin Hid').
  - pose proof (proj1 (first_row_None _ _) Ha) as Hnoa. cbn [fst snd].
    rewrite evaluation_dict_run.
    cbn [fst txn new_evaluation Evaluation.evaluator_id
         Evaluation.annotation_id].
    change (annotations (with_evaluations _ d)) with (annotations d).
    rewrite Ha. split.
    + intros [resp Hresp]. by destruct (head _) in Hresp.
    + intros (_ & _ & a & Hin & Hid & _). exfalso. by apply (Hnoa a).
Qed.

Lemma create_evaluation_succeeds_iff_witness :
  primary_key_order (Annotation.id <$> annotations Demo.annotated)
  ∧ ∃ resp,
      response (create_evaluation Demo.cat_evaluation Demo.eve) Demo.annotated
      = inr resp.
Proof.
  assert (primary_key_order (Annotation.id <$> annotations Demo.annotated))
    as Hkey.
  { vm_compute. repeat constructor. }
  split; [exact Hkey|].
  apply (proj1 (create_evaluation_succeeds_iff Demo.annotated Demo.eve
                  Demo.cat_evaluation Hkey)).
  split; [|split].
  - intros (e & He & _). vm_compute in He. by apply not_elem_of_nil in He.
  - exists Demo.eve. split; [|done].
    vm_compute. do 2 apply list_elem_of_further. apply list_elem_of_here.
  - exists (new_annotation Demo.cat_annotation Demo.alice 1).
    split; [vm_compute; apply list_elem_of_here|]. split; [done|]. split.
    + eexists. split; [vm_compute; apply list_elem_of_here|done].
    + exists Demo.alice. split; [|done].
      vm_compute. apply list_elem_of_further, list_elem_of_here.
Defined.

(** ** Updating an evaluation *)

Lemma evaluation_pair_update u e :
  evaluation_pair (apply_evaluation_update u e) = evaluation_pair e.
Proof. done. Qed.

(** X19.  PUT /api/evaluations/{id} on an evaluations table keyed by id:
    when no stored evaluation has that id and the caller as evaluator, the
    answer is 404 and nothing is committed.  In every case the evaluations
    of other evaluators and those with another id are stored unchanged
    afterwards, no evaluation changes its id, annotation or evaluator, and
    every other table, the annotations and their status included, is
    untouched. *)
Theorem update_evaluation_touches_only_own (d : Database)
    (current_user : User.t) (evaluation_id : Z)
    (evaluation_data : EvaluationUpdate.t) :
  primary_key_order (Evaluation.id <$> evaluations d) →
  let d' := db_after (update_evaluation evaluation_id evaluation_data
                        current_user) d in
  ((¬ ∃ e, e ∈ evaluations d
           ∧ Evaluation.id e = evaluation_id
           ∧ Evaluation.evaluator_id e = User.id current_user) →
   serve (update_evaluation evaluation_id evaluation_data current_user) d
   = (inl (HTTP 404 "Evaluation not found"), d, []))
  ∧ (∀ x, x ∈ evaluations d →
          Evaluation.evaluator_id x ≠ User.id current_user
          ∨ Evaluation.id x ≠ evaluation_id →
          x ∈ evaluations d')
  ∧ Evaluation.id <$> evaluations d' = Evaluation.id <$> evaluations d
  ∧ evaluation_pair <$> evaluations d' = evaluation_pair <$> evaluations d
  ∧ users d' = users d ∧ user_languages d' = user_languages d
  ∧ sentences d' = sentences d ∧ annotations d' = annotations d
  ∧ text_highlights d' = text_highlights d.
Proof.
  intros Hpk d'. subst d'. run_handler.
  destruct (head _) as [e|] eqn:Hhd.
  - apply first_row_Some in Hhd as (He & Hid & Howner). cbn [fst snd].
    split; [intros Hno; exfalso; apply Hno; by exists e|].
    split.
    { intros x Hx Hother.
      assert (x ≠ e) as Hne by (intros ->; by destruct Hother).
      assert (Evaluation.id x ≠ Evaluation.id e) as Hkey.
      { intros Heq. apply Hne.
        by apply (primary_key_unique Evaluation.id (evaluations d)). }
      simpl. apply list_elem_of_fmap. exists x. by rewrite decide_False. }
    simpl. rewrite !fmap_update_preserves by done. by repeat split.
  - cbn [fst snd]. by repeat split.
Qed.

Lemma update_evaluation_touches_only_own_witness :
  primary_key_order (Evaluation.id <$> evaluations Demo.evaluated)
  ∧ serve (update_evaluation 1
             (EvaluationUpdate.mk None None None None
                (Some (Some "too lenient"%string)) None None None)
             Demo.admin) Demo.evaluated
    = (inl (HTTP 404 "Evaluation not found"), Demo.evaluated, []).
Proof.
  assert (primary_key_order (Evaluation.id <$> evaluations Demo.evaluated))
    as Hpk.
  { vm_compute. repeat (constructor; [|repeat constructor; lia]). constructor. }
  split; [exact Hpk|].
  apply (update_evaluation_touches_only_own Demo.evaluated Demo.admin 1 _ Hpk).
  intros (e & He & _ & Howner). vm_compute in He.
  apply list_elem_of_singleton in He. subst e. discriminate Howner.
Defined.

(** ** Language rows belong to stored users *)

Lemma get_current_user_stored tok d u :
  response (get_current_user tok) d = inr u → u ∈ users d.
Proof.
  unfold response, serve, get_current_user.
  destruct tok as [sub|]; [|done]. unfold bind, query. simpl.
  destruct (head _) as [u'|] eqn:Hhd; [|done]. simpl. intros [= <-].
  by apply first_row_Some in Hhd as [? _].
Qed.

Lemma insert_user_languages_refer user_id languages d (ids : list Z) :
  (∀ l, l ∈ user_languages d → UserLanguage.user_id l ∈ ids) →
  user_id ∈ ids →
  ∀ l, l ∈ user_languages (foldl (insert_user_language user_id) d languages) →
       UserLanguage.user_id l ∈ ids.
Proof.
  intros Hold Hid l.
  destruct (insert_user_languages_added user_id languages d)
    as (added & -> & _ & Hown).
  rewrite elem_of_app. intros [Hl|Hl]; [by apply Hold|].
  rewrite Forall_forall in Hown. by rewrite (Hown l Hl).
Qed.

Lemma step_languages_refer r d :
  languages_refer_to_users d → languages_refer_to_users (step r d).
Proof.
  intros Href. unfold step.
  destruct r; simpl handle;
    try (apply (route_cases (λ d' _, languages_refer_to_users d'));
           [eauto with read_only|done|];
         intros u _; run_handler; split_branches;
         unfold languages_refer_to_users in *; simpl;
         autorewrite with frame; simpl;
         rewrite ?fmap_update_preserves by done; done).
  - destruct (serve_discard (register user_data) d) as [-> _].
    run_handler; split_branches; unfold languages_refer_to_users in *; simpl;
      autorewrite with frame; simpl; try done.
    + apply insert_user_languages_refer; simpl.
      * intros l Hl. rewrite fmap_app, elem_of_app. left. by apply Href.
      * rewrite fmap_app, elem_of_app. right. apply list_elem_of_here.
    + intros l Hl. rewrite fmap_app, elem_of_app.
      apply elem_of_app in Hl as [Hl|Hl]; [left; by apply Href|].
      apply list_elem_of_singleton in Hl as ->. right. apply list_elem_of_here.
    + intros l Hl. rewrite fmap_app, elem_of_app. left. by apply Href.
  - apply (route_cases (λ d' _, languages_refer_to_users d'));
      [eauto with read_only|done|].
    intros u Hu. apply get_current_user_stored in Hu.
    assert (User.id u ∈ User.id <$> users d) as Hid.
    { apply list_elem_of_fmap. by exists u. }
    run_handler.
    assert (∀ l, l ∈ user_languages
                   (foldl (insert_user_language (User.id u))
                      (with_user_languages
                         (filter (λ l, UserLanguage.user_id l ≠ User.id u)) d)
                      languages) →
                 UserLanguage.user_id l ∈ User.id <$> users d) as Hnew.
    { apply insert_user_languages_refer; [|done]. simpl.
      intros l Hl. apply list_elem_of_filter in Hl as [_ Hl]. by apply Href. }
    unfold languages_refer_to_users.
    destruct languages as [|first_language rest];
      [cbn [fst snd]; by autorewrite with frame in *|].
    cbn [fst snd users user_languages with_users].
    rewrite fmap_update_preserves by done. autorewrite with frame. exact Hnew.
Qed.

(** X20.  From a database whose language rows all belong to stored users,
    every request leads to such a database: registration stores language
    rows under the id of the user it has just stored, and
    POST /api/me/languages under the id of the stored user the token
    resolves to. *)
Theorem languages_always_refer_to_users (d0 d : Database) :
  languages_refer_to_users d0 →
  reachable d0 d →
  languages_refer_to_users d.
Proof.
  intros Hd0 Hreach.
  induction Hreach as [|d r _ IH]; [done|]. by apply step_languages_refer.
Qed.

Lemma languages_always_refer_to_users_witness :
  languages_refer_to_users Demo.seeded
  ∧ reachable Demo.seeded Demo.staffed
  ∧ languages_refer_to_users Demo.staffed
  ∧ length (user_languages Demo.staffed) = 2%nat.
Proof.
  assert (languages_refer_to_users Demo.seeded) as Hd0.
  { intros l Hl. vm_compute in Hl. by apply not_elem_of_nil in Hl. }
  assert (reachable Demo.seeded Demo.staffed) as Hreach.
  { unfold Demo.staffed. apply reachable_run. }
  split; [exact Hd0|]. split; [exact Hreach|].
  split; [exact (languages_always_refer_to_users _ _ Hd0 Hreach)|].
  vm_compute. reflexivity.
Defined.

(** ** Fetching a sentence *)

Lemma get_sentence_run sentence_id current_user d :
  serve (get_sentence sentence_id current_user) d
  = (match head (filter (λ s, Sentence.id s = sentence_id) (sentences d)) with
     | Some sentence => inr sentence
     | None => inl (HTTP 404 "Sentence not found")
     end, d, []).
Proof.
  unfold serve, get_sentence, bind, query. simpl. by destruct (head _).
Qed.

(** X21.  GET /api/sentences/{id} writes nothing; it answers 404 exactly
    when no stored sentence has that id, and otherwise with a stored
    sentence of that id.  The sentence that POST /api/sentences has just
    created can be fetched under the id of the response, and comes back
    equal to that response. *)
Theorem created_sentence_can_be_fetched (d : Database)
    (admin reader : User.t) (sentence_data : SentenceCreate.t)
    (sentence_id : Z) :
  (∃ r, serve (get_sentence sentence_id reader) d = (r, d, [])
        ∧ match r with
          | inr s => s ∈ sentences d ∧ Sentence.id s = sentence_id
          | inl e => e = HTTP 404 "Sentence not found"
                     ∧ ∀ s, s ∈ sentences d → Sentence.id s ≠ sentence_id
          end)
  ∧ ∃ created,
      response (create_sentence sentence_data admin) d = inr created
      ∧ response (get_sentence (Sentence.id created) reader)
          (db_after (create_sentence sentence_data admin) d)
        = inr created.
Proof.
  split.
  - eexists. split; [apply get_sentence_run|].
    destruct (head _) as [s|] eqn:Hhd.
    + by apply first_row_Some in Hhd.
    + split; [done|]. exact (proj1 (first_row_None _ _) Hhd).
  - exists (new_sentence sentence_data (next_id (Sentence.id <$> sentences d))).
    split; [reflexivity|].
    unfold response, db_after. rewrite get_sentence_run, create_sentence_run.
    cbn [fst snd]. simpl. rewrite filter_app.
    rewrite (filter_none _ (sentences d)).
    + simpl. rewrite filter_cons_True by done. done.
    + apply Forall_forall. intros s Hs Heq.
      apply (next_id_fresh (Sentence.id <$> sentences d)).
      rewrite <-Heq. apply list_elem_of_fmap. by exists s.
Qed.
